(** * FutureGen: the request-orchestration layer of [services/geminiService.ts]

    A shallow embedding of the image pre-processing, aspect-ratio resolution,
    retry policy, feature extraction and generation orchestration, followed by
    the properties stated about them in the specification.

    Conventions of the embedding.
    - A JavaScript [number] holding a ratio is an exact rational ([Q]); pixel
      dimensions read from a decoded image are integers ([Z]).  Arithmetic is
      exact: the rounding of IEEE doubles is not modelled.
    - A string enum of [types.ts] is an inductive type; its wire value is given
      by a [*_str] function.
    - An optional property is an [option]; JavaScript truthiness is spelled
      out by the [truthy_*] functions.
    - A string is held as the UTF-8 bytes of its text, as the string
      literals of this file are: a character outside ASCII takes two or three
      bytes, and the white space of [trim] is recognised in that form.
    - [async] code is sequential: every [await] is a bind of the monad [M],
      which threads the observable world (outbound requests, sleeps, console)
      and carries a completion that is either a value or a thrown value. *)

From Stdlib Require Import ZArith NArith QArith Qabs Qround Lqa Lia.
From Stdlib Require Import Bool List String Ascii DecimalString.
Import ListNotations.

Local Open Scope string_scope.

(* ===================================================================== *)
(** * JavaScript primitives used by the service *)
(* ===================================================================== *)

Module Js.

(** The line feed written [\n] in the source. *)
Definition LF : string := String (ascii_of_nat 10) EmptyString.

(** The double quote written [\"] or ["] inside template literals. *)
Definition DQ : string := String (ascii_of_nat 34) EmptyString.

(** Truthiness of a string: every string but the empty one. *)
Definition truthy_string (s : string) : bool :=
  match s with
  | EmptyString => false
  | String _ _ => true
  end.

(** Truthiness of an optional string property: [undefined] and the empty
    string are falsy. *)
Definition truthy_opt_string (o : option string) : bool :=
  match o with
  | None => false
  | Some s => truthy_string s
  end.

(** [a || b] on an optional string with a string default. *)
Definition or_string (o : option string) (dflt : string) : string :=
  match o with
  | Some (String c s) => String c s
  | _ => dflt
  end.

(** Truthiness of an optional number: [undefined] and [0] are falsy. *)
Definition truthy_opt_number (o : option Q) : bool :=
  match o with
  | None => false
  | Some q => negb (Qeq_bool q 0)
  end.

(** [String.prototype.includes]. *)
Fixpoint includes (s needle : string) : bool :=
  if String.prefix needle s then true
  else match s with
       | EmptyString => false
       | String _ rest => includes rest needle
       end.

(** The UTF-8 bytes of a code point of the Basic Multilingual Plane: one
    byte below U+0080, two below U+0800, three otherwise. *)
Definition utf8 (codePoint : N) : string :=
  (if codePoint <? 0x80 then
     String (ascii_of_N codePoint) EmptyString
   else if codePoint <? 0x800 then
     String (ascii_of_N (0xC0 + codePoint / 0x40))
       (String (ascii_of_N (0x80 + codePoint mod 0x40)) EmptyString)
   else
     String (ascii_of_N (0xE0 + codePoint / 0x1000))
       (String (ascii_of_N (0x80 + (codePoint / 0x40) mod 0x40))
          (String (ascii_of_N (0x80 + codePoint mod 0x40)) EmptyString)))%N.

(** The code points [String.prototype.trim] removes, the WhiteSpace and
    LineTerminator of ECMAScript: TAB, LF, VT, FF, CR, SPACE, the
    no-break space U+00A0, the Ogham space mark U+1680, the spaces U+2000 to
    U+200A, the line and paragraph separators U+2028 and U+2029, the narrow
    no-break space U+202F, the mathematical space U+205F, the ideographic
    space U+3000 and the byte order mark U+FEFF. *)
Definition white_space : list N :=
  [ 0x0009; 0x000A; 0x000B; 0x000C; 0x000D; 0x0020; 0x00A0; 0x1680;
    0x2000; 0x2001; 0x2002; 0x2003; 0x2004; 0x2005; 0x2006; 0x2007;
    0x2008; 0x2009; 0x200A; 0x2028; 0x2029; 0x202F; 0x205F; 0x3000;
    0xFEFF ]%N.

(** Whether the bytes of one character are those of a white-space code
    point. *)
Definition is_space (character : string) : bool :=
  existsb (fun codePoint => String.eqb (utf8 codePoint) character) white_space.

(** [String.prototype.trimStart]: the white-space characters at the start
    are skipped, one, two or three bytes at a time. *)
Fixpoint trimStart (s : string) : string :=
  match s with
  | EmptyString => EmptyString
  | String b1 r1 =>
      if is_space (String b1 EmptyString) then trimStart r1
      else
        match r1 with
        | EmptyString => s
        | String b2 r2 =>
            if is_space (String b1 (String b2 EmptyString)) then trimStart r2
            else
              match r2 with
              | EmptyString => s
              | String b3 r3 =>
                  if is_space (String b1 (String b2 (String b3 EmptyString)))
                  then trimStart r3
                  else s
              end
        end
  end.

(** [String.prototype.trimEnd]: [s] is cut where what follows is white space
    only. *)
Fixpoint trimEnd (s : string) : string :=
  match s with
  | EmptyString => EmptyString
  | String c rest =>
      if truthy_string (trimStart s) then String c (trimEnd rest) else EmptyString
  end.

(** [String.prototype.trim]. *)
Definition trim (s : string) : string := trimEnd (trimStart s).

(** Truthiness of [s.trim()]. *)
Definition truthy_trim (s : string) : bool := truthy_string (trim s).

(** [x < y] on numbers. *)
Definition ltb (x y : Q) : bool := negb (Qle_bool y x).

(** [Math.round]: the nearest integer, halves going up. *)
Definition Math_round (x : Q) : Z := Qfloor (x + (1 # 2)).

(** [Array.prototype.reduce] without an initial value, on the non-empty
    array [first :: rest]: the accumulator starts at [first]. *)
Definition reduce {A : Type} (f : A -> A -> A) (first : A) (rest : list A) : A :=
  fold_left f rest first.

End Js.

(* ===================================================================== *)
(** * types.ts *)
(* ===================================================================== *)

Inductive AspectRatio : Type :=
| SQUARE
| PORTRAIT
| LANDSCAPE
| WIDE_LANDSCAPE
| WIDE_PORTRAIT
| SAME_AS_SOURCE.

Definition AspectRatio_str (a : AspectRatio) : string :=
  match a with
  | SQUARE => "1:1"
  | PORTRAIT => "3:4"
  | LANDSCAPE => "4:3"
  | WIDE_LANDSCAPE => "16:9"
  | WIDE_PORTRAIT => "9:16"
  | SAME_AS_SOURCE => "SAME_AS_SOURCE"
  end.

Inductive ReferenceMode : Type :=
| POSE
| DRESS
| EXPRESSION
| STYLE
| BACKGROUND
| COMPOSITION
| CUSTOM.

Inductive ModelId : Type :=
| GEMINI_2_5
| GEMINI_3_PRO
| IMAGEN_4.

Definition ModelId_str (m : ModelId) : string :=
  match m with
  | GEMINI_2_5 => "gemini-2.5-flash-image"
  | GEMINI_3_PRO => "gemini-3-pro-image-preview"
  | IMAGEN_4 => "imagen-4.0-generate-001"
  end.

Record ImageAsset : Type := mkImageAsset {
  data : string;
  mimeType : string;
  width : option Q;
  height : option Q
}.

Record GenerationConfig : Type := mkGenerationConfig {
  prompt : string;
  aspectRatio : AspectRatio;
  referenceMode : option ReferenceMode;
  customReferencePrompt : option string;
  modelId : option ModelId
}.

(* ===================================================================== *)
(** * getClosestSupportedRatio *)
(* ===================================================================== *)

(** An entry [{ str, val }] of the [supported] table.  The [str] fields of
    the source are the wire values of five members of [AspectRatio], so the
    cast [as AspectRatio] at the call site is the identity; the entry holds
    the member itself. *)
Record RatioEntry : Type := mkRatioEntry {
  str : AspectRatio;
  val : Q
}.

Definition supported_first : RatioEntry := {| str := SQUARE; val := 1 |}.

Definition supported_rest : list RatioEntry :=
  [ {| str := PORTRAIT; val := 75 # 100 |};
    {| str := LANDSCAPE; val := 133 # 100 |};
    {| str := WIDE_PORTRAIT; val := 5625 # 10000 |};
    {| str := WIDE_LANDSCAPE; val := 177 # 100 |} ].

Definition supported : list RatioEntry := supported_first :: supported_rest.

(** The callback of the [reduce]: [curr] replaces [prev] only when it is
    strictly closer to [ratio]. *)
Definition closer (ratio : Q) (prev curr : RatioEntry) : RatioEntry :=
  if Js.ltb (Qabs (val curr - ratio)) (Qabs (val prev - ratio)) then curr else prev.

Definition getClosestSupportedRatio (width height : Q) : AspectRatio :=
  let ratio := width / height in
  str (Js.reduce (closer ratio) supported_first supported_rest).

(* ===================================================================== *)
(** * Thrown values and completions *)
(* ===================================================================== *)

(** What the service reads from a caught value: its [message], its numeric
    [status] and [code] (absent when the property is missing or is not a
    number) and the text [JSON.stringify] gives for it. *)
Record JsError : Type := mkJsError {
  message : option string;
  status : option Z;
  code : option Z;
  json : string
}.

(** [new Error(msg)]: no [status], no [code], and no enumerable property. *)
Definition new_Error (msg : string) : JsError :=
  {| message := Some msg; status := None; code := None; json := "{}" |}.

(** A thrown value: an object, or [undefined] (what [throw lastError] throws
    when no attempt was made). *)
Inductive Thrown : Type :=
| ThrownUndefined
| ThrownError (e : JsError).

(** Reading a property of [undefined] throws this [TypeError]. *)
Definition TypeError_undefined (property : string) : JsError :=
  new_Error ("Cannot read properties of undefined (reading '" ++ property ++ "')").

(** The outcome of a call or of a settled promise. *)
Inductive Completion (A : Type) : Type :=
| Return (v : A)
| Throw (e : Thrown).

Arguments Return {A} v.
Arguments Throw {A} e.

(** What the console and the timer observe, in program order.  [Invoked]
    marks each evaluation of [operation()] inside [retryOperation]. *)
Inductive Effect : Type :=
| Invoked
| Slept (ms : Z)
| ConsoleWarn (text : string)
| ConsoleError (label : string) (e : Thrown).

(** Decimal rendering of an integer inside a template literal. *)
Definition string_of_Z (z : Z) : string :=
  NilZero.string_of_int (Z.to_int z).

(* ===================================================================== *)
(** * compressImage *)
(* ===================================================================== *)

(** The browser facilities [compressImage] relies on.
    - [decode mimeType base64Str]: the [width] and [height] of the [Image]
      once the data URL has loaded, [None] when [onerror] fires;
    - [getContext2d w h]: whether [canvas.getContext('2d')] is non-null on
      a canvas of that size;
    - [toJpegBase64 mimeType base64Str w h]: the payload
      [dataUrl.split(',')[1]] of [canvas.toDataURL('image/jpeg', 0.95)]
      after the image has been drawn on the [w] by [h] canvas. *)
Record Browser : Type := mkBrowser {
  decode : string -> string -> option (Z * Z);
  getContext2d : Z -> Z -> bool;
  toJpegBase64 : string -> string -> Z -> Z -> string
}.

Definition MAX_SIZE : Z := 1024.

(** Lines 27-40: the size given to the canvas for an image of the given
    size. *)
Definition canvasSize (width height : Z) : Z * Z :=
  if ((width >? MAX_SIZE) || (height >? MAX_SIZE))%Z then
    if (width >? height)%Z then
      (MAX_SIZE, Js.Math_round (inject_Z (height * MAX_SIZE) / inject_Z width))
    else
      (Js.Math_round (inject_Z (width * MAX_SIZE) / inject_Z height), MAX_SIZE)
  else (width, height).

(** The resolved value [{ data, mimeType }]. *)
Record Compressed : Type := mkCompressed {
  c_data : string;
  c_mimeType : string
}.

Definition compressImage (b : Browser) (base64Str mimeType : string)
  : Completion Compressed :=
  match decode b mimeType base64Str with
  | None => Throw (ThrownError (new_Error "Failed to process image"))
  | Some (img_width, img_height) =>
      let '(width, height) := canvasSize img_width img_height in
      if negb (getContext2d b width height) then
        Throw (ThrownError (new_Error "Canvas context not available"))
      else
        Return {| c_data := toJpegBase64 b mimeType base64Str width height;
                  c_mimeType := "image/jpeg" |}
  end.

(* ===================================================================== *)
(** * retryOperation *)
(* ===================================================================== *)

(** [error.message || JSON.stringify(error)]. *)
Definition error_msg (error : JsError) : string :=
  Js.or_string (message error) (json error).

Definition is_429 (o : option Z) : bool :=
  match o with
  | Some n => (n =? 429)%Z
  | None => false
  end.

Definition isRateLimit (error : JsError) : bool :=
  let msg := error_msg error in
  Js.includes msg "429" || is_429 (status error) || is_429 (code error)
  || Js.includes msg "quota" || Js.includes msg "RESOURCE_EXHAUSTED".

Definition rate_limit_warning (delay : Z) (i retries : nat) : string :=
  "Rate limit hit. Retrying in " ++ string_of_Z delay ++ "ms... (Attempt "
  ++ string_of_Z (Z.of_nat (i + 1)) ++ "/" ++ string_of_Z (Z.of_nat retries) ++ ")".

Section Retry.

(** [St] is the state the operation closes over (for the service: the
    remote side), [T] its result type. *)
Context {St T : Type}.

Definition Operation : Type := St -> Completion T * St.

(** The [for] loop at iteration [i], with [remaining = retries - i]
    iterations left. *)
Fixpoint retry_loop (operation : Operation) (retries : nat) (initialDelay : Z)
    (remaining i : nat) (lastError : Thrown) (s : St) (log : list Effect)
  : Completion T * St * list Effect :=
  match remaining with
  | O => (Throw lastError, s, log)
  | S remaining' =>
      match operation s with
      | (Return v, s') => (Return v, s', (log ++ [Invoked])%list)
      | (Throw ThrownUndefined, s') =>
          (Throw (ThrownError (TypeError_undefined "message")), s',
           (log ++ [Invoked])%list)
      | (Throw (ThrownError error), s') =>
          if isRateLimit error && (i <? retries - 1)%nat then
            let delay := (initialDelay * 2 ^ Z.of_nat i)%Z in
            retry_loop operation retries initialDelay remaining' (S i)
              (ThrownError error) s'
              (log ++ [Invoked; ConsoleWarn (rate_limit_warning delay i retries);
                       Slept delay])%list
          else (Throw (ThrownError error), s', (log ++ [Invoked])%list)
      end
  end.

Definition retryOperation (operation : Operation) (retries : nat) (initialDelay : Z)
    (s : St) (log : list Effect) : Completion T * St * list Effect :=
  retry_loop operation retries initialDelay retries 0 ThrownUndefined s log.

End Retry.

(* ===================================================================== *)
(** * The remote service, as seen through [@google/genai] *)
(* ===================================================================== *)

Module GenAI.

(** A content part, of a request or of a response: inline data or text. *)
Inductive Part : Type :=
| InlineData (data mimeType : string)
| Text (text : string).

Inductive HarmCategory : Type :=
| HARM_CATEGORY_HARASSMENT
| HARM_CATEGORY_HATE_SPEECH
| HARM_CATEGORY_SEXUALLY_EXPLICIT
| HARM_CATEGORY_DANGEROUS_CONTENT.

Inductive HarmBlockThreshold : Type :=
| BLOCK_ONLY_HIGH.

Record ImageConfig : Type := mkImageConfig {
  aspectRatio : AspectRatio;
  imageSize : option string
}.

Record GenerateContentConfig : Type := mkGenerateContentConfig {
  imageConfig : ImageConfig;
  safetySettings : list (HarmCategory * HarmBlockThreshold)
}.

(** The [config] of [generateImages]; its [aspectRatio] is a plain string
    there, named [imagesAspectRatio] here. *)
Record GenerateImagesConfig : Type := mkGenerateImagesConfig {
  numberOfImages : Z;
  imagesAspectRatio : string;
  outputMimeType : string
}.

(** An outbound request: a call of [ai.models.generateContent] with
    [{ model, contents: { parts }, config }], or of
    [ai.models.generateImages] with [{ model, prompt, config }]. *)
Inductive Request : Type :=
| GenerateContent (model : string) (parts : list Part)
    (config : option GenerateContentConfig)
| GenerateImages (model : string) (prompt : string)
    (config : GenerateImagesConfig).

(** [content] is [candidate.content?.parts]. *)
Record Candidate : Type := mkCandidate {
  finishReason : option string;
  content : option (list Part)
}.

Record GenerateContentResponse : Type := mkGenerateContentResponse {
  candidates : option (list Candidate);
  text : option string
}.

(** The [image] of a generated image; its [imageBytes] may be missing. *)
Record Image : Type := mkImage {
  imageBytes : option string
}.

(** An entry of [response.generatedImages]; its [image] may be missing. *)
Record GeneratedImage : Type := mkGeneratedImage {
  image : option Image
}.

Record GenerateImagesResponse : Type := mkGenerateImagesResponse {
  generatedImages : option (list GeneratedImage)
}.

(** The service: how each call settles, given the requests sent before
    it. *)
Record Remote : Type := mkRemote {
  generateContent : list Request -> Request -> Completion GenerateContentResponse;
  generateImages : list Request -> Request -> Completion GenerateImagesResponse
}.

End GenAI.

(** The process environment: [process.env.API_KEY], the browser and the
    remote service. *)
Record Env : Type := mkEnv {
  API_KEY : option string;
  browser : Browser;
  remote : GenAI.Remote
}.

(* ===================================================================== *)
(** * The monad of the [async] functions *)
(* ===================================================================== *)

Record World : Type := mkWorld {
  outbound : list GenAI.Request;
  effects : list Effect
}.

Definition M (A : Type) : Type := World -> Completion A * World.

Definition ret {A : Type} (v : A) : M A := fun w => (Return v, w).

Definition throw {A : Type} (e : JsError) : M A := fun w => (Throw (ThrownError e), w).

Definition bind {A B : Type} (c : M A) (k : A -> M B) : M B :=
  fun w =>
    match c w with
    | (Return v, w') => k v w'
    | (Throw e, w') => (Throw e, w')
    end.

(** [try { c } catch (e) { handler e }]. *)
Definition try_catch {A : Type} (c : M A) (handler : Thrown -> M A) : M A :=
  fun w =>
    match c w with
    | (Return v, w') => (Return v, w')
    | (Throw e, w') => handler e w'
    end.

(** [await] of a promise that touches nothing but the browser. *)
Definition await {A : Type} (c : Completion A) : M A := fun w => (c, w).

Definition console (e : Effect) : M unit :=
  fun w => (Return tt, {| outbound := outbound w; effects := (effects w ++ [e])%list |}).

Notation "x <- c1 ;; c2" := (bind c1 (fun x => c2))
  (at level 61, c1 at next level, right associativity).
Notation "c1 ;; c2" := (bind c1 (fun _ => c2))
  (at level 61, right associativity).

(** One call of the remote service: the request is recorded as sent, and
    settles as the service decides. *)
Definition send {A : Type}
    (respond : list GenAI.Request -> GenAI.Request -> Completion A)
    (request : GenAI.Request) : @Operation (list GenAI.Request) A :=
  fun sent => (respond sent request, (sent ++ [request])%list).

(** [await retryOperation(operation)] with the default [retries = 3] and
    [initialDelay = 2000]. *)
Definition await_retry {A : Type} (operation : @Operation (list GenAI.Request) A) : M A :=
  fun w =>
    let '(c, sent, log) := retryOperation operation 3 2000 (outbound w) (effects w) in
    (c, {| outbound := sent; effects := log |}).

(* ===================================================================== *)
(** * extractFeatureDescription *)
(* ===================================================================== *)

Definition API_KEY_missing : JsError :=
  new_Error "API Key not found in environment variables.".

(** Lines 99-126: the analysis question of each mode.  The [default] branch
    of the [switch] is unreachable for a member of [ReferenceMode]. *)
Definition extractionPrompt (mode : ReferenceMode) (customPrompt : option string) : string :=
  match mode with
  | POSE => "Analyze the image and describe the body pose. Focus on the position of arms, legs, head tilt, and spine curvature. Describe it in a way that an artist could use to pose a model."
  | DRESS => "Analyze the clothing in this image. Provide an EXTREMELY DETAILED technical description of the outfit, including specific materials, cuts, textures, patterns, and how it drapes. Ignore the person, focus on the clothes."
  | EXPRESSION => "Describe the facial expression and emotion shown in this image. What is the mood?"
  | STYLE => "Describe the art style, lighting, and medium of this image."
  | BACKGROUND => "Describe the setting, background elements, and lighting environment of this scene."
  | COMPOSITION => "Describe the camera angle, framing, and composition of this shot."
  | CUSTOM =>
      match customPrompt with
      | Some (String c s) =>
          "Analyze the image and provide a detailed description of the following feature: "
          ++ Js.DQ ++ String c s ++ Js.DQ
          ++ ". Describe it specifically so it can be visually replicated."
      | _ => "Describe the key distinctive visual attributes of this image."
      end
  end.

(** The request of the analysis call. *)
Definition extractionRequest (processed : Compressed) (promptText : string)
  : GenAI.Request :=
  GenAI.GenerateContent "gemini-2.5-flash"
    [ GenAI.InlineData (c_data processed) (c_mimeType processed);
      GenAI.Text promptText ]
    None.

Definition extractFeatureDescription (env : Env) (image : ImageAsset)
    (mode : ReferenceMode) (customPrompt : option string) : M string :=
  if negb (Js.truthy_opt_string (API_KEY env)) then throw API_KEY_missing
  else
    processed <- await (compressImage (browser env) (data image) (mimeType image)) ;;
    let promptText := extractionPrompt mode customPrompt in
    try_catch
      (response <- await_retry
         (send (GenAI.generateContent (remote env))
               (extractionRequest processed promptText)) ;;
       ret (Js.or_string (GenAI.text response) EmptyString))
      (fun error =>
         console (ConsoleError "Feature Extraction Error:" error) ;;
         ret EmptyString).

(* ===================================================================== *)
(** * generateFutureImage *)
(* ===================================================================== *)

(** Lines 166-180: the aspect ratio the request is made with. *)
Definition resolveTargetRatio (config : GenerationConfig) (sourceImage : ImageAsset)
  : AspectRatio :=
  match aspectRatio config with
  | SAME_AS_SOURCE =>
      match width sourceImage, height sourceImage with
      | Some sourceWidth, Some sourceHeight =>
          if Js.truthy_opt_number (Some sourceWidth)
             && Js.truthy_opt_number (Some sourceHeight)
          then getClosestSupportedRatio sourceWidth sourceHeight
          else SQUARE
      | _, _ => SQUARE
      end
  | targetRatio => targetRatio
  end.

(** Lines 190-193: the aspect ratio given to the text-to-image model. *)
Definition imagenAspectRatio (targetRatio : AspectRatio) : string :=
  match targetRatio with
  | SQUARE => "1:1"
  | LANDSCAPE => "4:3"
  | WIDE_LANDSCAPE => "16:9"
  | PORTRAIT => "3:4"
  | _ => "9:16"
  end.

Definition imagenRequest (config : GenerationConfig) (targetRatio : AspectRatio)
  : GenAI.Request :=
  GenAI.GenerateImages (ModelId_str IMAGEN_4) (prompt config)
    {| GenAI.numberOfImages := 1;
       GenAI.imagesAspectRatio := imagenAspectRatio targetRatio;
       GenAI.outputMimeType := "image/jpeg" |}.

(** [`${e.message}`] inside a template literal. *)
Definition message_in_template (e : JsError) : string :=
  match message e with
  | Some m => m
  | None => "undefined"
  end.

(** Line 216: the guidance block made of a truthy description. *)
Definition guidanceOf (desc : string) : string :=
  if Js.truthy_string desc then
    Js.LF ++ "VISUAL DESCRIPTION OF REFERENCE (for guidance): "
    ++ Js.DQ ++ desc ++ Js.DQ ++ Js.LF
  else EmptyString.

(** Line 295: [config.customReferencePrompt || "feature"]. *)
Definition customFeature (config : GenerationConfig) : string :=
  Js.or_string (customReferencePrompt config) "feature".

(** Lines 265-300: the directive of each reference mode; nothing is added
    when [config.referenceMode] is undefined. *)
Definition modeDirective (config : GenerationConfig) : string :=
  match referenceMode config with
  | Some POSE =>
      Js.LF ++ "MODE: POSE MATCHING" ++ Js.LF
      ++ "1. The character MUST adopt the EXACT pose of the Reference Image." ++ Js.LF
      ++ "2. ALIGNMENT: Match limb angles, head tilt, and spine curvature to the reference." ++ Js.LF
      ++ "3. REFERENCE TRUTH: The Reference Image is the ground truth for the pose. Follow it strictly." ++ Js.LF
  | Some DRESS =>
      Js.LF ++ "MODE: OUTFIT TRANSFER" ++ Js.LF
      ++ "1. TARGET: Create an EXACT DIGITAL REPLICA of the outfit from the Reference Image on the Source Character." ++ Js.LF
      ++ "2. DETAILS: Match the fabric texture, gloss, material weight, seams, buttons, and accessories pixel-for-pixel where possible." ++ Js.LF
      ++ "3. FIT: Draping must follow the source character's body naturally but strictly adhere to the reference design." ++ Js.LF
  | Some EXPRESSION =>
      Js.LF ++ "MODE: EXPRESSION MATCHING" ++ Js.LF
      ++ "1. Adjust the Source Character's facial expression to match the emotion of the Reference Image." ++ Js.LF
  | Some STYLE =>
      Js.LF ++ "MODE: STYLE TRANSFER" ++ Js.LF
      ++ "1. Re-render the Source Character using the artistic style and medium of the Reference Image." ++ Js.LF
  | Some BACKGROUND =>
      Js.LF ++ "MODE: BACKGROUND TRANSFER" ++ Js.LF
      ++ "1. Place the Source Character into a setting that matches the Reference Image's background." ++ Js.LF
  | Some COMPOSITION =>
      Js.LF ++ "MODE: COMPOSITION MATCHING" ++ Js.LF
      ++ "1. Frame the Source Character similarly to the Reference Image (camera angle, framing)." ++ Js.LF
  | Some CUSTOM =>
      let feature := customFeature config in
      Js.LF ++ "MODE: CUSTOM TRANSFER (" ++ feature ++ ")" ++ Js.LF
      ++ "1. Transfer the " ++ feature
      ++ " from the Reference Image to the Source Character." ++ Js.LF
      ++ "2. Blend the " ++ feature
      ++ " naturally with the Source Character while preserving their identity." ++ Js.LF
  | None => EmptyString
  end.

(** Lines 306-308: the user's prompt, when it is not blank. *)
Definition userInstructions (config : GenerationConfig) : string :=
  if Js.truthy_string (prompt config) && Js.truthy_trim (prompt config) then
    Js.LF ++ "USER INSTRUCTIONS: " ++ Js.DQ ++ prompt config ++ Js.DQ ++ Js.LF
  else EmptyString.

(** Lines 253-263: the opening of the instruction when a reference image
    accompanies the source, with the guidance injected when it is truthy. *)
Definition dualImagePreamble (guidanceDescription : string) : string :=
  "I have provided TWO images above." ++ Js.LF
  ++ "- First Image: Source Character (The person to be modified)." ++ Js.LF
  ++ "- Second Image: Reference Style/Attribute." ++ Js.LF ++ Js.LF
  ++ "TASK: Create a high-quality NEW image of the Source Character that adopts the specific attribute from the Reference Image." ++ Js.LF
  ++ "IMPORTANT: Maintain the facial identity and physical likeness of the Source Character." ++ Js.LF
  ++ (if Js.truthy_string guidanceDescription
      then guidanceDescription ++ Js.LF else EmptyString).

(** Lines 302-303: the opening of the instruction for a lone source image. *)
Definition singleImagePreamble : string :=
  "I have provided ONE image. It is the Source Image." ++ Js.LF
  ++ "TASK: Edit this image based on the user instructions. PRESERVE IDENTITY." ++ Js.LF.

(** Lines 250-308: the instruction text. *)
Definition composeInstruction (processedRef : option Compressed)
    (guidanceDescription : string) (config : GenerationConfig) : string :=
  (match processedRef with
   | Some _ => dualImagePreamble guidanceDescription ++ modeDirective config
   | None => singleImagePreamble
   end)
  ++ userInstructions config.

Definition inlinePart (processed : Compressed) : GenAI.Part :=
  GenAI.InlineData (c_data processed) (c_mimeType processed).

(** Lines 231-247 and 310: the parts, in the order they are pushed. *)
Definition buildParts (processedSource : Compressed) (processedRef : option Compressed)
    (instruction : string) : list GenAI.Part :=
  ([inlinePart processedSource]
   ++ match processedRef with
      | Some processed => [inlinePart processed]
      | None => []
      end
   ++ [GenAI.Text instruction])%list.

Definition safetySettings : list (GenAI.HarmCategory * GenAI.HarmBlockThreshold) :=
  [ (GenAI.HARM_CATEGORY_HARASSMENT, GenAI.BLOCK_ONLY_HIGH);
    (GenAI.HARM_CATEGORY_HATE_SPEECH, GenAI.BLOCK_ONLY_HIGH);
    (GenAI.HARM_CATEGORY_SEXUALLY_EXPLICIT, GenAI.BLOCK_ONLY_HIGH);
    (GenAI.HARM_CATEGORY_DANGEROUS_CONTENT, GenAI.BLOCK_ONLY_HIGH) ].

(** Lines 313-331: the request of the edit call. *)
Definition editRequest (model : ModelId) (parts : list GenAI.Part)
    (targetRatio : AspectRatio) : GenAI.Request :=
  GenAI.GenerateContent (ModelId_str model) parts
    (Some {| GenAI.imageConfig :=
               {| GenAI.aspectRatio := targetRatio;
                  GenAI.imageSize :=
                    match model with
                    | GEMINI_3_PRO => Some "1K"
                    | _ => None
                    end |};
             GenAI.safetySettings := safetySettings |}).

Definition blockedMessage (reason : string) : string :=
  "Generation blocked: The request was flagged for " ++ reason
  ++ " (likely too close to a protected image or person). Try a different reference.".

Definition filterMessage (reason : string) : string :=
  "Generation blocked by filter: " ++ reason.

Definition noResponseMessage : string := "No response from AI model.".

Definition textInsteadOfImageMessage : string :=
  "The model generated a text response instead of an image. Please try adjusting your prompt.".

(** Lines 348-354: the data of the first part that has [inlineData]. *)
Fixpoint firstInlineData (parts : list GenAI.Part) : option string :=
  match parts with
  | [] => None
  | GenAI.InlineData d _ :: _ => Some d
  | GenAI.Text _ :: rest => firstInlineData rest
  end.

(** Lines 340-346: the error raised for a finish reason that is truthy and
    is not ['STOP']. *)
Definition finishReasonError (candidate : GenAI.Candidate) : option JsError :=
  match GenAI.finishReason candidate with
  | Some reason =>
      if Js.truthy_string reason && negb (String.eqb reason "STOP") then
        if String.eqb reason "RECITATION" || String.eqb reason "IMAGE_RECITATION"
           || String.eqb reason "SAFETY"
        then Some (new_Error (blockedMessage reason))
        else Some (new_Error (filterMessage reason))
      else None
  | None => None
  end.

(** Lines 333-356: what the body of the [try] makes of the response.  The
    value returned is what the promise of [generateFutureImage] resolves to:
    a string here, [undefined] ([None]) on the text-to-image path when the
    image has no bytes. *)
Definition interpretResponse (response : GenAI.GenerateContentResponse)
  : Completion (option string) :=
  match GenAI.candidates response with
  | Some (candidate :: _) =>
      match finishReasonError candidate with
      | Some e => Throw (ThrownError e)
      | None =>
          match GenAI.content candidate with
          | Some parts =>
              match firstInlineData parts with
              | Some d => Return (Some d)
              | None => Throw (ThrownError (new_Error textInsteadOfImageMessage))
              end
          | None => Throw (ThrownError (new_Error textInsteadOfImageMessage))
          end
      end
  | _ => Throw (ThrownError (new_Error noResponseMessage))
  end.

(** Lines 182-205: the text-to-image path.  Line 199 reads
    [generatedImages[0].image.imageBytes] unchecked: a first entry without
    [image] throws the [TypeError] inside the [try], and an [image] without
    [imageBytes] makes the call return [undefined]. *)
Definition generateWithImagen (env : Env) (config : GenerationConfig)
    (targetRatio : AspectRatio) : M (option string) :=
  try_catch
    (response <- await_retry
       (send (GenAI.generateImages (remote env)) (imagenRequest config targetRatio)) ;;
     match GenAI.generatedImages response with
     | Some (generated :: _) =>
         match GenAI.image generated with
         | Some image => ret (GenAI.imageBytes image)
         | None => throw (TypeError_undefined "imageBytes")
         end
     | _ => throw (new_Error "No image generated by Imagen.")
     end)
    (fun e =>
       match e with
       | ThrownError e =>
           throw (new_Error ("Imagen Generation Failed: " ++ message_in_template e))
       | ThrownUndefined => throw (TypeError_undefined "message")
       end).

(** Lines 210-221: the guidance text, empty when there is no reference,
    no mode, no description, or when the extraction throws. *)
Definition extractGuidance (env : Env) (referenceImage : option ImageAsset)
    (config : GenerationConfig) : M string :=
  match referenceImage, referenceMode config with
  | Some reference, Some mode =>
      try_catch
        (desc <- extractFeatureDescription env reference mode
                   (customReferencePrompt config) ;;
         ret (guidanceOf desc))
        (fun _ =>
           console (ConsoleWarn "Guidance extraction failed, proceeding without it.") ;;
           ret EmptyString)
  | _, _ => ret EmptyString
  end.

(** Lines 223-228: the compressed source, and the compressed reference when
    there is one. *)
Definition compressBoth (env : Env) (sourceImage : ImageAsset)
    (referenceImage : option ImageAsset) : M (Compressed * option Compressed) :=
  processedSource <-
    await (compressImage (browser env) (data sourceImage) (mimeType sourceImage)) ;;
  match referenceImage with
  | Some reference =>
      processedRef <-
        await (compressImage (browser env) (data reference) (mimeType reference)) ;;
      ret (processedSource, Some processedRef)
  | None => ret (processedSource, None)
  end.

(** Lines 312-360: the edit call and the reading of its response. *)
Definition editAndInterpret (env : Env) (request : GenAI.Request) : M (option string) :=
  try_catch
    (response <- await_retry (send (GenAI.generateContent (remote env)) request) ;;
     await (interpretResponse response))
    (fun error =>
       console (ConsoleError "Gemini API Error:" error) ;;
       match error with
       | ThrownError e =>
           throw (new_Error (Js.or_string (message e) "Failed to generate image."))
       | ThrownUndefined => throw (TypeError_undefined "message")
       end).

Definition generateFutureImage (env : Env) (sourceImage : ImageAsset)
    (referenceImage : option ImageAsset) (config : GenerationConfig)
  : M (option string) :=
  if negb (Js.truthy_opt_string (API_KEY env)) then throw API_KEY_missing
  else
    let model :=
      match modelId config with
      | Some m => m
      | None => GEMINI_2_5
      end in
    let targetRatio := resolveTargetRatio config sourceImage in
    match model with
    | IMAGEN_4 => generateWithImagen env config targetRatio
    | _ =>
        guidanceDescription <- extractGuidance env referenceImage config ;;
        processed <- compressBoth env sourceImage referenceImage ;;
        let '(processedSource, processedRef) := processed in
        let instruction := composeInstruction processedRef guidanceDescription config in
        let parts := buildParts processedSource processedRef instruction in
        editAndInterpret env (editRequest model parts targetRatio)
    end.

(** The world before the first request. *)
Definition initial : World := {| outbound := []; effects := [] |}.

(* ===================================================================== *)
(** * Vocabulary of the properties *)
(* ===================================================================== *)

Definition AspectRatio_eq_dec (a b : AspectRatio) : {a = b} + {a <> b}.
Proof. decide equality. Defined.

(** The distance the callback of the [reduce] compares. *)
Definition dist (ratio : Q) (e : RatioEntry) : Q := Qabs (val e - ratio).

(** The number of evaluations of [operation()] recorded in a log. *)
Fixpoint invocations (log : list Effect) : nat :=
  match log with
  | [] => 0
  | Invoked :: rest => S (invocations rest)
  | _ :: rest => invocations rest
  end.

(** The delays of the [wait] calls recorded in a log, in order. *)
Fixpoint sleeps (log : list Effect) : list Z :=
  match log with
  | [] => []
  | Slept ms :: rest => ms :: sleeps rest
  | _ :: rest => sleeps rest
  end.

(** An error the retry policy treats as a rate limit, in the words of the
    specification: its message contains "429", "quota" or
    "RESOURCE_EXHAUSTED", or its status or code is 429.  The message is
    [error.message], or the JSON text of the error when it has none. *)
Definition RateLimitClassified (error : JsError) : Prop :=
  Js.includes (error_msg error) "429" = true
  \/ Js.includes (error_msg error) "quota" = true
  \/ Js.includes (error_msg error) "RESOURCE_EXHAUSTED" = true
  \/ status error = Some 429%Z
  \/ code error = Some 429%Z.

(** The aspect-ratio value a request carries on the wire, if it has one. *)
Definition requestAspectRatio (request : GenAI.Request) : option string :=
  match request with
  | GenAI.GenerateContent _ _ (Some config) =>
      Some (AspectRatio_str (GenAI.aspectRatio (GenAI.imageConfig config)))
  | GenAI.GenerateContent _ _ None => None
  | GenAI.GenerateImages _ _ config => Some (GenAI.imagesAspectRatio config)
  end.

(** [c], started in [w], sends only requests that satisfy [P]. *)
Definition sends_only (P : GenAI.Request -> Prop) {A : Type} (c : M A) (w : World) : Prop :=
  exists new, outbound (snd (c w)) = (outbound w ++ new)%list /\ Forall P new.

(** [{ ...config, aspectRatio }]. *)
Definition withAspectRatio (config : GenerationConfig) (a : AspectRatio)
  : GenerationConfig :=
  {| prompt := prompt config;
     aspectRatio := a;
     referenceMode := referenceMode config;
     customReferencePrompt := customReferencePrompt config;
     modelId := modelId config |}.

(** The parts of an edit request are in order: the compressed source first,
    then the compressed reference when there is one, the instruction text
    last. *)
Definition editPartsInOrder (env : Env) (sourceImage : ImageAsset)
    (referenceImage : option ImageAsset) (parts : list GenAI.Part) : Prop :=
  exists processedSource instruction,
    compressImage (browser env) (data sourceImage) (mimeType sourceImage)
    = Return processedSource
    /\ match referenceImage with
       | Some reference =>
           exists processedRef,
             compressImage (browser env) (data reference) (mimeType reference)
             = Return processedRef
             /\ parts = [ GenAI.InlineData (c_data processedSource) (c_mimeType processedSource);
                          GenAI.InlineData (c_data processedRef) (c_mimeType processedRef);
                          GenAI.Text instruction ]
       | None =>
           parts = [ GenAI.InlineData (c_data processedSource) (c_mimeType processedSource);
                     GenAI.Text instruction ]
       end.

(** The edit requests are the [generateContent] calls made with a [config];
    the analysis call of the extraction has none. *)
Definition editRequestInOrder (env : Env) (sourceImage : ImageAsset)
    (referenceImage : option ImageAsset) (request : GenAI.Request) : Prop :=
  match request with
  | GenAI.GenerateContent _ parts (Some _) =>
      editPartsInOrder env sourceImage referenceImage parts
  | _ => True
  end.

(** What a request made in Custom reference mode looks like, for a feature
    and a question.  The analysis call asks the question about one image.
    An edit call made with a reference names the feature in its directive,
    between the opening and the user's instructions; an edit call made
    without a reference has no directive.  A text-to-image call carries the
    prompt alone. *)
Definition customRequest (config : GenerationConfig) (feature question : string)
    (request : GenAI.Request) : Prop :=
  match request with
  | GenAI.GenerateContent _ parts None =>
      exists image, parts = [image; GenAI.Text question]
  | GenAI.GenerateContent _ parts (Some _) =>
      (exists source,
          parts = [source; GenAI.Text (singleImagePreamble ++ userInstructions config)])
      \/ (exists source reference guidance,
             parts
             = [ source; reference;
                 GenAI.Text
                   (dualImagePreamble guidance
                    ++ (Js.LF ++ "MODE: CUSTOM TRANSFER (" ++ feature ++ ")" ++ Js.LF
                        ++ "1. Transfer the " ++ feature
                        ++ " from the Reference Image to the Source Character." ++ Js.LF
                        ++ "2. Blend the " ++ feature
                        ++ " naturally with the Source Character while preserving their identity."
                        ++ Js.LF)
                    ++ userInstructions config) ])
  | GenAI.GenerateImages _ text _ => text = prompt config
  end.

(** What the caller sees of an error thrown while reading the response. *)
Definition surfaced (c : Completion (option string)) : Completion (option string) :=
  match c with
  | Return d => Return d
  | Throw (ThrownError e) =>
      Throw (ThrownError (new_Error (Js.or_string (message e) "Failed to generate image.")))
  | Throw ThrownUndefined => Throw (ThrownError (TypeError_undefined "message"))
  end.

(* ===================================================================== *)
(** * Concrete environments used by the examples *)
(* ===================================================================== *)

(** A browser that decodes every payload as a 4000 by 3000 image. *)
Definition canvas_browser : Browser :=
  {| decode := fun _ _ => Some (4000, 3000)%Z;
     getContext2d := fun _ _ => true;
     toJpegBase64 := fun _ _ _ _ => "/9j/4AAQ" |}.



(** A browser that decodes every payload as an 800 by 600 image and marks
    what it re-encodes. *)
Definition jpeg_browser : Browser :=
  {| decode := fun _ _ => Some (800, 600)%Z;
     getContext2d := fun _ _ => true;
     toJpegBase64 := fun _ base64Str _ _ => "jpeg:" ++ base64Str |}.

(** A browser in which no payload decodes. *)
Definition undecodable_browser : Browser :=
  {| decode := fun _ _ => None;
     getContext2d := fun _ _ => true;
     toJpegBase64 := fun _ _ _ _ => EmptyString |}.

(** A service that describes every reference and answers every edit with
    the given candidates. *)
Definition answering_remote (candidates : option (list GenAI.Candidate)) : GenAI.Remote :=
  {| GenAI.generateContent := fun _ request =>
       match request with
       | GenAI.GenerateContent _ _ None =>
           Return {| GenAI.candidates := None; GenAI.text := Some "a long red coat" |}
       | _ => Return {| GenAI.candidates := candidates; GenAI.text := None |}
       end;
     GenAI.generateImages := fun _ _ =>
       Return {| GenAI.generatedImages :=
                   Some [ {| GenAI.image := Some {| GenAI.imageBytes := Some "IMAGEN" |} |} ] |} |}.

Definition blocked_candidate : GenAI.Candidate :=
  {| GenAI.finishReason := Some "SAFETY"; GenAI.content := None |}.

Definition image_candidate : GenAI.Candidate :=
  {| GenAI.finishReason := Some "STOP";
     GenAI.content := Some [ GenAI.Text "Here it is."; GenAI.InlineData "RESULT" "image/png" ] |}.

Definition blocked_env : Env :=
  {| API_KEY := Some "key";
     browser := jpeg_browser;
     remote := answering_remote (Some [blocked_candidate]) |}.

Definition working_env : Env :=
  {| API_KEY := Some "key";
     browser := jpeg_browser;
     remote := answering_remote (Some [image_candidate]) |}.

Definition undecodable_env : Env :=
  {| API_KEY := Some "key";
     browser := undecodable_browser;
     remote := answering_remote (Some [image_candidate]) |}.

Definition source_800x600 : ImageAsset :=
  {| data := "SRC"; mimeType := "image/png"; width := Some 800; height := Some 600 |}.

(** A generated image moved back to the source slot: no dimensions. *)
Definition source_unmeasured : ImageAsset :=
  {| data := "SRC"; mimeType := "image/png"; width := None; height := None |}.

Definition reference_image : ImageAsset :=
  {| data := "REF"; mimeType := "image/webp"; width := Some 600; height := Some 800 |}.

Definition sunglasses_config : GenerationConfig :=
  {| prompt := "add sunglasses";
     aspectRatio := SAME_AS_SOURCE;
     referenceMode := None;
     customReferencePrompt := None;
     modelId := Some GEMINI_2_5 |}.

Definition dress_config : GenerationConfig :=
  {| prompt := EmptyString;
     aspectRatio := SAME_AS_SOURCE;
     referenceMode := Some DRESS;
     customReferencePrompt := None;
     modelId := Some GEMINI_2_5 |}.

Definition custom_config (customPrompt : option string) : GenerationConfig :=
  {| prompt := EmptyString;
     aspectRatio := SQUARE;
     referenceMode := Some CUSTOM;
     customReferencePrompt := customPrompt;
     modelId := Some GEMINI_3_PRO |}.

(** The error of a service that is over quota. *)
Definition rate_limit_error : JsError :=
  {| message := Some "Resource has been exhausted (e.g. check quota).";
     status := Some 429%Z;
     code := None;
     json := "{}" |}.

(** The error of a service that refuses the credential. *)
Definition permission_error : JsError :=
  {| message := Some "Permission denied for this model.";
     status := Some 403%Z;
     code := None;
     json := "{}" |}.

(** An operation over a call counter: rate-limited twice, then done. *)
Definition flaky_operation : @Operation nat string :=
  fun calls =>
    match calls with
    | 0%nat | 1%nat => (Throw (ThrownError rate_limit_error), S calls)
    | _ => (Return "done", S calls)
    end.

(** An operation over a call counter that is always refused. *)
Definition refused_operation : @Operation nat string :=
  fun calls => (Throw (ThrownError permission_error), S calls).

(** A service that is always over quota. *)
Definition busy_remote : GenAI.Remote :=
  {| GenAI.generateContent := fun _ _ => Throw (ThrownError rate_limit_error);
     GenAI.generateImages := fun _ _ => Throw (ThrownError rate_limit_error) |}.

Definition busy_env : Env :=
  {| API_KEY := Some "key"; browser := jpeg_browser; remote := busy_remote |}.

(* ===================================================================== *)
(** * Vocabulary of the further properties *)
(* ===================================================================== *)

(** The delays of the first [n] retries: [initialDelay * 2^i] for
    [i = 0 .. n-1]. *)
Definition backoff (initialDelay : Z) (n : nat) : list Z :=
  map (fun i => (initialDelay * 2 ^ Z.of_nat i)%Z) (seq 0 n).

(** The sum of a list of delays. *)
Definition total (delays : list Z) : Z := fold_right Z.add 0%Z delays.

(** What the loop logs for [k] rate-limited attempts in a row, the first at
    iteration [i]: each is an invocation, a warning and a sleep. *)
Definition rate_limited_trace (retries : nat) (initialDelay : Z) (i k : nat)
  : list Effect :=
  flat_map
    (fun j =>
       [ Invoked;
         ConsoleWarn (rate_limit_warning (initialDelay * 2 ^ Z.of_nat j) j retries);
         Slept (initialDelay * 2 ^ Z.of_nat j) ])
    (seq i k).

(** The first [k] invocations are rate-limited: [states j] is the state
    before invocation [j], [errors j] the error it throws. *)
Definition rate_limited_until {St T : Type} (operation : @Operation St T)
    (states : nat -> St) (errors : nat -> JsError) (k : nat) : Prop :=
  forall j, (j < k)%nat ->
    operation (states j) = (Throw (ThrownError (errors j)), states (S j))
    /\ RateLimitClassified (errors j).

(** [c], started in [w], sends at most [n] requests, all satisfying [P]. *)
Definition sends_within (P : GenAI.Request -> Prop) (n : nat) {A : Type}
    (c : M A) (w : World) : Prop :=
  exists new,
    outbound (snd (c w)) = (outbound w ++ new)%list
    /\ Forall P new /\ (List.length new <= n)%nat.

Definition isGenerateContent (request : GenAI.Request) : Prop :=
  match request with
  | GenAI.GenerateContent _ _ _ => True
  | GenAI.GenerateImages _ _ _ => False
  end.

Definition isGenerateImages (request : GenAI.Request) : Prop :=
  match request with
  | GenAI.GenerateContent _ _ _ => False
  | GenAI.GenerateImages _ _ _ => True
  end.

(** [config.modelId || ModelId.GEMINI_2_5]. *)
Definition chosenModel (config : GenerationConfig) : ModelId :=
  match modelId config with
  | Some m => m
  | None => GEMINI_2_5
  end.

(** A thrown value the callers can read: an error object whose [message] is
    a non-empty string. *)
Definition readable (t : Thrown) : Prop :=
  exists msg, t = ThrownError (new_Error msg) /\ msg <> EmptyString.

(** What every request of a call made with [config] on [sourceImage] looks
    like: the analysis call goes to the fixed analysis model and has no
    configuration; an edit call goes to the chosen model with the resolved
    ratio, the four safety settings and, for the Pro model only, the 1K size
    hint; a text-to-image call asks for one JPEG image of the prompt. *)
Definition requestOf (config : GenerationConfig) (sourceImage : ImageAsset)
    (request : GenAI.Request) : Prop :=
  match request with
  | GenAI.GenerateContent model _ None => model = "gemini-2.5-flash"
  | GenAI.GenerateContent model _ (Some editConfig) =>
      chosenModel config <> IMAGEN_4
      /\ model = ModelId_str (chosenModel config)
      /\ GenAI.aspectRatio (GenAI.imageConfig editConfig)
         = resolveTargetRatio config sourceImage
      /\ (GenAI.imageSize (GenAI.imageConfig editConfig) = Some "1K" <->
          chosenModel config = GEMINI_3_PRO)
      /\ (GenAI.imageSize (GenAI.imageConfig editConfig) = None <->
          chosenModel config <> GEMINI_3_PRO)
      /\ GenAI.safetySettings editConfig
         = [ (GenAI.HARM_CATEGORY_HARASSMENT, GenAI.BLOCK_ONLY_HIGH);
             (GenAI.HARM_CATEGORY_HATE_SPEECH, GenAI.BLOCK_ONLY_HIGH);
             (GenAI.HARM_CATEGORY_SEXUALLY_EXPLICIT, GenAI.BLOCK_ONLY_HIGH);
             (GenAI.HARM_CATEGORY_DANGEROUS_CONTENT, GenAI.BLOCK_ONLY_HIGH) ]
  | GenAI.GenerateImages model text imagesConfig =>
      chosenModel config = IMAGEN_4
      /\ model = "imagen-4.0-generate-001"
      /\ text = prompt config
      /\ GenAI.numberOfImages imagesConfig = 1%Z
      /\ GenAI.outputMimeType imagesConfig = "image/jpeg"
      /\ GenAI.imagesAspectRatio imagesConfig
         = AspectRatio_str (resolveTargetRatio config sourceImage)
  end.

(** A byte that occurs in the encoding of some white-space code point. *)
Definition white_byte (b : ascii) : bool :=
  existsb
    (fun codePoint => existsb (Ascii.eqb b) (list_ascii_of_string (Js.utf8 codePoint)))
    Js.white_space.

(** The analysis call of the extraction: [generateContent] on the analysis
    model, without a configuration. *)
Definition isAnalysisRequest (request : GenAI.Request) : Prop :=
  exists parts, request = GenAI.GenerateContent "gemini-2.5-flash" parts None.

(* ===================================================================== *)
(** * More JavaScript primitives, used by the components *)
(* ===================================================================== *)

Module JsString.

(** [String.prototype.startsWith]. *)
Definition startsWith (s start : string) : bool := String.prefix start s.

(** [s.split(',')]: the pieces of [s] between its commas. *)
Fixpoint split_comma (s : string) : list string :=
  match s with
  | EmptyString => [EmptyString]
  | String c rest =>
      if Ascii.eqb c ","%char then EmptyString :: split_comma rest
      else match split_comma rest with
           | piece :: pieces => String c piece :: pieces
           | [] => [String c EmptyString]
           end
  end.

(** [array.filter((_, i) => keep(i))]. *)
Fixpoint filter_index {A : Type} (keep : nat -> bool) (i : nat) (l : list A) : list A :=
  match l with
  | [] => []
  | x :: rest =>
      if keep i then x :: filter_index keep (S i) rest
      else filter_index keep (S i) rest
  end.

End JsString.

Definition ReferenceMode_str (m : ReferenceMode) : string :=
  match m with
  | POSE => "Pose"
  | DRESS => "Dress / Outfit"
  | EXPRESSION => "Facial Expression"
  | STYLE => "Artistic Style"
  | BACKGROUND => "Background"
  | COMPOSITION => "Composition"
  | CUSTOM => "Custom Feature"
  end.

(* ===================================================================== *)
(** * components/UploadZone.tsx: handleFile *)
(* ===================================================================== *)

(** A [File]: its [type] and the base64 text of its bytes. *)
Record File : Type := mkFile {
  file_type : string;
  file_base64 : string
}.

(** [reader.readAsDataURL(file)]: the data URL of the file. *)
Definition readAsDataURL (file : File) : string :=
  "data:" ++ file_type file ++ ";base64," ++ file_base64 file.

(** [handleFile]: the asset [onImageUpload] is called with, [None] when it
    is never called (the file is not an image, or the image never loads).
    The image is loaded from the data URL of the file, which is the URL
    [data:${type};base64,${base64}] that [decode] stands for.  The stored
    data is [result.split(',')[1]]; a data URL always has a comma, so that
    piece is never undefined. *)
Definition handleFile (b : Browser) (file : File) : option ImageAsset :=
  if negb (JsString.startsWith (file_type file) "image/") then None
  else
    let result := readAsDataURL file in
    match decode b (file_type file) (file_base64 file) with
    | None => None
    | Some (img_width, img_height) =>
        Some {| data := nth 1 (JsString.split_comma result) EmptyString;
                mimeType := file_type file;
                width := Some (inject_Z img_width);
                height := Some (inject_Z img_height) |}
    end.

(* ===================================================================== *)
(** * App.tsx: the state of the page and its handlers *)
(* ===================================================================== *)

Module App.

(** The [useState] cells of the component.  [generatedImage] and the
    entries of [history] hold what [generateFutureImage] resolved to; [null]
    and [undefined] are both [None]. *)
Record State : Type := mkState {
  sourceImage : option ImageAsset;
  refImage : option ImageAsset;
  useRefImage : bool;
  prompt : string;
  aspectRatio : AspectRatio;
  refMode : ReferenceMode;
  customRefPrompt : string;
  selectedModel : ModelId;
  generatedImage : option string;
  history : list (option string);
  isGenerating : bool;
  error : option string;
  isExtracting : bool;
  extractedText : option string
}.

Definition setSourceImage (v : option ImageAsset) (st : State) : State :=
  mkState v (refImage st) (useRefImage st) (prompt st) (aspectRatio st) (refMode st)
    (customRefPrompt st) (selectedModel st) (generatedImage st) (history st)
    (isGenerating st) (error st) (isExtracting st) (extractedText st).

Definition setRefImage (v : option ImageAsset) (st : State) : State :=
  mkState (sourceImage st) v (useRefImage st) (prompt st) (aspectRatio st) (refMode st)
    (customRefPrompt st) (selectedModel st) (generatedImage st) (history st)
    (isGenerating st) (error st) (isExtracting st) (extractedText st).

Definition setUseRefImage (v : bool) (st : State) : State :=
  mkState (sourceImage st) (refImage st) v (prompt st) (aspectRatio st) (refMode st)
    (customRefPrompt st) (selectedModel st) (generatedImage st) (history st)
    (isGenerating st) (error st) (isExtracting st) (extractedText st).

Definition setPrompt (v : string) (st : State) : State :=
  mkState (sourceImage st) (refImage st) (useRefImage st) v (aspectRatio st) (refMode st)
    (customRefPrompt st) (selectedModel st) (generatedImage st) (history st)
    (isGenerating st) (error st) (isExtracting st) (extractedText st).

Definition setCustomRefPrompt (v : string) (st : State) : State :=
  mkState (sourceImage st) (refImage st) (useRefImage st) (prompt st) (aspectRatio st)
    (refMode st) v (selectedModel st) (generatedImage st) (history st)
    (isGenerating st) (error st) (isExtracting st) (extractedText st).

Definition setGeneratedImage (v : option string) (st : State) : State :=
  mkState (sourceImage st) (refImage st) (useRefImage st) (prompt st) (aspectRatio st)
    (refMode st) (customRefPrompt st) (selectedModel st) v (history st)
    (isGenerating st) (error st) (isExtracting st) (extractedText st).

Definition setHistory (v : list (option string)) (st : State) : State :=
  mkState (sourceImage st) (refImage st) (useRefImage st) (prompt st) (aspectRatio st)
    (refMode st) (customRefPrompt st) (selectedModel st) (generatedImage st) v
    (isGenerating st) (error st) (isExtracting st) (extractedText st).

Definition setIsGenerating (v : bool) (st : State) : State :=
  mkState (sourceImage st) (refImage st) (useRefImage st) (prompt st) (aspectRatio st)
    (refMode st) (customRefPrompt st) (selectedModel st) (generatedImage st) (history st)
    v (error st) (isExtracting st) (extractedText st).

Definition setError (v : option string) (st : State) : State :=
  mkState (sourceImage st) (refImage st) (useRefImage st) (prompt st) (aspectRatio st)
    (refMode st) (customRefPrompt st) (selectedModel st) (generatedImage st) (history st)
    (isGenerating st) v (isExtracting st) (extractedText st).

Definition setIsExtracting (v : bool) (st : State) : State :=
  mkState (sourceImage st) (refImage st) (useRefImage st) (prompt st) (aspectRatio st)
    (refMode st) (customRefPrompt st) (selectedModel st) (generatedImage st) (history st)
    (isGenerating st) (error st) v (extractedText st).

Definition setExtractedText (v : option string) (st : State) : State :=
  mkState (sourceImage st) (refImage st) (useRefImage st) (prompt st) (aspectRatio st)
    (refMode st) (customRefPrompt st) (selectedModel st) (generatedImage st) (history st)
    (isGenerating st) (error st) (isExtracting st) v.

(** The state the component starts in. *)
Definition initialState : State :=
  mkState None None false EmptyString SAME_AS_SOURCE POSE EmptyString GEMINI_2_5
    None [] false None false None.

(** What a handler leaves: how it completed, the state once its updates are
    applied, and the world.  A handler runs alone: no other update of the
    state comes between its own. *)
Definition Handled : Type := Completion unit * State * World.

Definition isImagen (st : State) : bool :=
  match selectedModel st with
  | IMAGEN_4 => true
  | _ => false
  end.

Definition isCustom (st : State) : bool :=
  match refMode st with
  | CUSTOM => true
  | _ => false
  end.

Definition isSome {A : Type} (o : option A) : bool :=
  match o with
  | Some _ => true
  | None => false
  end.

(** Lines 56-66 of the component: the arguments of [generateFutureImage]. *)
Definition generateArguments (st : State)
  : ImageAsset * option ImageAsset * GenerationConfig :=
  (match sourceImage st with
   | Some image => image
   | None => mkImageAsset EmptyString "image/png" None None
   end,
   if useRefImage st then refImage st else None,
   mkGenerationConfig (prompt st) (aspectRatio st)
     (if useRefImage st then Some (refMode st) else None)
     (if useRefImage st && isCustom st then Some (customRefPrompt st) else None)
     (Some (selectedModel st))).

(** Lines 70-76: the message shown for a caught error. *)
Definition generationErrorMessage (st : State) (err : JsError) : string :=
  let msg := Js.or_string (message err) "An error occurred during generation." in
  if Js.includes msg "429" || Js.includes msg "quota"
     || Js.includes msg "RESOURCE_EXHAUSTED"
  then "Server is busy (Rate Limit). Please wait a moment and try again."
  else if Js.includes msg "403" || Js.includes msg "permission"
  then "Access denied for model " ++ ModelId_str (selectedModel st)
       ++ ". Your API key might not have access to this preview model yet."
  else msg.

Definition handleGenerate (env : Env) (st : State) (w : World) : Handled :=
  if negb (isSome (sourceImage st)) && negb (isImagen st) then
    (Return tt, setError (Some "Please upload a source image.") st, w)
  else if negb (Js.truthy_trim (prompt st)) && negb (useRefImage st) then
    (Return tt, setError (Some "Please enter a prompt or use a reference image.") st, w)
  else if useRefImage st && negb (isSome (refImage st)) then
    (Return tt,
     setError (Some "Reference mode is on but no reference image provided.") st, w)
  else if useRefImage st && isCustom st && negb (Js.truthy_trim (customRefPrompt st)) then
    (Return tt,
     setError (Some "Please enter what you want to copy from the reference image.") st, w)
  else
    let st1 := setGeneratedImage None (setIsGenerating true (setError None st)) in
    let '(source, reference, config) := generateArguments st in
    match generateFutureImage env source reference config w with
    | (Return resultBase64, w') =>
        (Return tt,
         setIsGenerating false
           (setHistory (resultBase64 :: history st1)
              (setGeneratedImage resultBase64 st1)),
         w')
    | (Throw (ThrownError err), w') =>
        (Return tt,
         setIsGenerating false (setError (Some (generationErrorMessage st err)) st1),
         w')
    | (Throw ThrownUndefined, w') =>
        (Throw (ThrownError (TypeError_undefined "message")),
         setIsGenerating false st1, w')
    end.

(** Lines 99-101: the message shown for an error caught while extracting. *)
Definition extractionErrorMessage (err : JsError) : string :=
  let msg := Js.or_string (message err) "Failed to analyze image." in
  if Js.includes msg "429" then "Rate limit hit. Please wait." else msg.

Definition handleExtractFeature (env : Env) (st : State) (w : World) : Handled :=
  match refImage st with
  | None => (Return tt, st, w)
  | Some image =>
      if isCustom st && negb (Js.truthy_trim (customRefPrompt st)) then
        (Return tt,
         setError (Some "Please specify what feature to extract first.") st, w)
      else
        let st1 := setError None (setIsExtracting true st) in
        let '(extracted, w') :=
          extractFeatureDescription env image (refMode st) (Some (customRefPrompt st)) w in
        let tried :=
          match extracted with
          | Return text =>
              if Js.truthy_string text then Return text
              else Throw (ThrownError (new_Error "Could not analyze image."))
          | Throw e => Throw e
          end in
        match tried with
        | Return text =>
            (Return tt, setIsExtracting false (setExtractedText (Some text) st1), w')
        | Throw (ThrownError err) =>
            (Return tt,
             setIsExtracting false (setError (Some (extractionErrorMessage err)) st1), w')
        | Throw ThrownUndefined =>
            (Throw (ThrownError (TypeError_undefined "message")),
             setIsExtracting false st1, w')
        end
  end.

Definition moveToPrompt (st : State) : State :=
  match extractedText st with
  | Some (String c s as text) =>
      let prefix :=
        if isCustom st then "Custom (" ++ customRefPrompt st ++ "):"
        else ReferenceMode_str (refMode st) ++ ":" in
      let cleanText := Js.trim text in
      setPrompt
        (if Js.truthy_string (prompt st)
         then prompt st ++ Js.LF ++ Js.LF ++ prefix ++ " " ++ cleanText
         else prefix ++ " " ++ cleanText)
        st
  | _ => st
  end.

Definition moveToSource (imgData : string) (st : State) : State :=
  setGeneratedImage None
    (setSourceImage (Some (mkImageAsset imgData "image/png" None None)) st).

Definition moveToReference (imgData : string) (st : State) : State :=
  setGeneratedImage None
    (setUseRefImage true
       (setRefImage (Some (mkImageAsset imgData "image/png" None None)) st)).

Definition clearHistory (st : State) : State := setHistory [] st.

Definition deleteHistoryItem (index : nat) (st : State) : State :=
  setHistory (JsString.filter_index (fun i => negb (i =? index)%nat) 0 (history st)) st.

(** Lines 30-49: what the checks of [handleGenerate] let through. *)
Definition valid (st : State) : Prop :=
  (sourceImage st <> None \/ selectedModel st = IMAGEN_4)
  /\ (Js.truthy_trim (prompt st) = true \/ useRefImage st = true)
  /\ (useRefImage st = true -> refImage st <> None)
  /\ (useRefImage st = true -> refMode st = CUSTOM ->
      Js.truthy_trim (customRefPrompt st) = true).

End App.

(* ===================================================================== *)
(** * More concrete values used by the examples *)
(* ===================================================================== *)

(** An operation over a call counter that is always over quota. *)
Definition busy_operation : @Operation nat string :=
  fun calls => (Throw (ThrownError rate_limit_error), S calls).


(** The page once a source is uploaded and a prompt typed. *)
Definition ready_state : App.State :=
  App.setPrompt "add sunglasses"
    (App.setSourceImage (Some source_800x600) App.initialState).

(** The page with a source and a prompt made of a no-break space, a space
    and an ideographic space. *)
Definition blank_state : App.State :=
  App.setPrompt (Js.utf8 0xA0 ++ " " ++ Js.utf8 0x3000)
    (App.setSourceImage (Some source_800x600) App.initialState).

(** The page set to copy a custom feature from a reference. *)
Definition custom_state : App.State :=
  App.mkState (Some source_800x600) (Some reference_image) true EmptyString
    SAME_AS_SOURCE CUSTOM "the hat" GEMINI_2_5 None [] false None false None.

(** The page set to the text-to-image model, with a prompt and no source. *)
Definition imagen_state : App.State :=
  App.mkState None None false "a lighthouse at dusk" SAME_AS_SOURCE POSE EmptyString
    IMAGEN_4 None [] false None false None.

(** The page after an extraction, with two results in the history. *)
Definition extracted_state : App.State :=
  App.mkState (Some source_800x600) (Some reference_image) true "keep the smile"
    SAME_AS_SOURCE DRESS EmptyString GEMINI_2_5 None [Some "B"; Some "A"] false None
    false (Some "  a long red coat ").

Definition png_file : File :=
  {| file_type := "image/png"; file_base64 := "iVBORw0KGgo=" |}.

(** A browser that decodes the reference payload only. *)
Definition picky_browser : Browser :=
  {| decode := fun _ base64Str =>
       if String.eqb base64Str "REF" then Some (600, 800)%Z else None;
     getContext2d := fun _ _ => true;
     toJpegBase64 := fun _ base64Str _ _ => "jpeg:" ++ base64Str |}.

Definition picky_env : Env :=
  {| API_KEY := Some "key";
     browser := picky_browser;
     remote := answering_remote (Some [image_candidate]) |}.

(* ===================================================================== *)
(** * Properties of the aspect-ratio resolver *)
(* ===================================================================== *)

Lemma ltb_lt (x y : Q) : Js.ltb x y = true <-> x < y.
Proof.
  unfold Js.ltb. rewrite negb_true_iff. split; intro H.
  - apply Qnot_le_lt. intro Hle. apply Qle_bool_iff in Hle. congruence.
  - destruct (Qle_bool y x) eqn:E; [|reflexivity].
    apply Qle_bool_iff in E. exfalso. exact (Qlt_not_le _ _ H E).
Qed.

Lemma ltb_ge (x y : Q) : Js.ltb x y = false <-> y <= x.
Proof.
  unfold Js.ltb. rewrite negb_false_iff. apply Qle_bool_iff.
Qed.

Section Closest.

Variable ratio : Q.

(** Loop invariant of the [reduce]: the accumulator [p] is strictly closer
    than everything before it and at least as close as everything seen
    after it. *)
Lemma closer_fold_split (rest pre mid : list RatioEntry) (p : RatioEntry) :
  (forall x, In x pre -> dist ratio p < dist ratio x) ->
  (forall x, In x mid -> dist ratio p <= dist ratio x) ->
  exists before e after,
    (pre ++ p :: mid ++ rest)%list = (before ++ e :: after)%list
    /\ fold_left (closer ratio) rest p = e
    /\ (forall x, In x before -> dist ratio e < dist ratio x)
    /\ (forall x, In x after -> dist ratio e <= dist ratio x).
Proof.
  revert pre mid p.
  induction rest as [|c rest IH]; intros pre mid p Hpre Hmid.
  - exists pre, p, mid. rewrite app_nil_r. auto.
  - simpl. unfold closer at 2. fold (dist ratio c) (dist ratio p).
    destruct (Js.ltb (dist ratio c) (dist ratio p)) eqn:E.
    + apply ltb_lt in E.
      destruct (IH (pre ++ p :: mid)%list [] c) as (b & e & a & Heq & Hres & Hb & Ha).
      * intros x Hx. apply in_app_or in Hx. destruct Hx as [Hx | [Hx | Hx]].
        -- eapply Qlt_trans; [exact E | auto].
        -- subst x. exact E.
        -- eapply Qlt_le_trans; [exact E | auto].
      * intros x [].
      * exists b, e, a. repeat split; auto.
        rewrite <- Heq. rewrite <- app_assoc. reflexivity.
    + apply ltb_ge in E.
      destruct (IH pre (mid ++ [c])%list p) as (b & e & a & Heq & Hres & Hb & Ha).
      * exact Hpre.
      * intros x Hx. apply in_app_or in Hx. destruct Hx as [Hx | [Hx | []]]; auto.
        subst x. exact E.
      * exists b, e, a. repeat split; auto.
        rewrite <- Heq. rewrite <- app_assoc. reflexivity.
Qed.

End Closest.

Lemma closest_split (width height : Q) :
  exists before e after,
    supported = (before ++ e :: after)%list
    /\ getClosestSupportedRatio width height = str e
    /\ (forall x, In x before -> dist (width / height) e < dist (width / height) x)
    /\ (forall x, In x after -> dist (width / height) e <= dist (width / height) x).
Proof.
  destruct (closer_fold_split (width / height) supported_rest [] [] supported_first)
    as (b & e & a & Heq & Hres & Hb & Ha).
  - intros x [].
  - intros x [].
  - exists b, e, a. repeat split; auto.
    unfold getClosestSupportedRatio, Js.reduce. rewrite Hres. reflexivity.
Qed.

(** Any entry chosen after the first one is strictly closer than [1:1]. *)
Lemma closest_not_first (width height : Q) :
  getClosestSupportedRatio width height <> SQUARE ->
  exists e, In e supported_rest
    /\ getClosestSupportedRatio width height = str e
    /\ dist (width / height) e < dist (width / height) supported_first.
Proof.
  intro Hne.
  destruct (closest_split width height) as (b & e & a & Heq & Hres & Hb & _).
  destruct b as [|b0 b].
  - simpl in Heq. unfold supported in Heq. injection Heq as He _. subst e.
    rewrite Hres in Hne. exfalso. apply Hne. reflexivity.
  - simpl in Heq. unfold supported in Heq. injection Heq as Hb0 Hrest. subst b0.
    exists e. split; [|split; [exact Hres|]].
    + rewrite Hrest. apply in_or_app. right. left. reflexivity.
    + apply Hb. left. reflexivity.
Qed.

Lemma ratio_gt_1 (width height : Q) :
  0 < height -> height < width -> 1 < width / height.
Proof.
  intros Hh Hlt. apply Qlt_shift_div_l; [exact Hh|]. rewrite Qmult_1_l. exact Hlt.
Qed.

Lemma ratio_eq_1 (width height : Q) :
  0 < height -> width == height -> width / height == 1.
Proof.
  intros Hh Heq. rewrite Heq. apply Qmult_inv_r. intro H0. rewrite H0 in Hh.
  exact (Qlt_irrefl _ Hh).
Qed.

(** For a ratio above 1, no portrait entry is strictly closer than [1:1]. *)
Lemma portrait_not_closer (r : Q) (e : RatioEntry) :
  1 < r -> In e supported_rest -> dist r e < dist r supported_first ->
  str e <> PORTRAIT /\ str e <> WIDE_PORTRAIT.
Proof.
  intros Hr Hin. unfold dist, supported_first, supported_rest in *.
  destruct Hin as [<- | [<- | [<- | [<- | []]]]]; cbn [val str];
    try (intros _; split; discriminate);
    apply Qabs_case; intros H1; apply Qabs_case; intros H2 H3; exfalso; lra.
Qed.

(** For a ratio equal to 1, nothing is strictly closer than [1:1]. *)
Lemma nothing_closer_at_1 (r : Q) (e : RatioEntry) :
  r == 1 -> ~ dist r e < dist r supported_first.
Proof.
  intros Hr Hd. unfold dist, supported_first in Hd. cbn [val] in Hd.
  pose proof (Qabs_nonneg (val e - r)) as Hn.
  assert (H0 : Qabs (1 - r) <= 0) by (apply Qabs_case; intros; lra).
  lra.
Qed.

(** C5. For positive [width] and [height], [getClosestSupportedRatio] returns
    an entry of the fixed table that is strictly closer to [width / height]
    than every entry before it and at least as close as every entry after
    it: the minimum absolute difference, the earliest entry winning an exact
    tie.  When [width > height] the result is neither [3:4] nor [9:16], and
    when [width = height] it is [1:1]. *)
Theorem getClosestSupportedRatio_closest (width height : Q) :
  0 < width -> 0 < height ->
  (exists before e after,
      supported = (before ++ e :: after)%list
      /\ getClosestSupportedRatio width height = str e
      /\ (forall x, In x before ->
            Qabs (val e - width / height) < Qabs (val x - width / height))
      /\ (forall x, In x after ->
            Qabs (val e - width / height) <= Qabs (val x - width / height)))
  /\ (height < width ->
        getClosestSupportedRatio width height <> PORTRAIT
        /\ getClosestSupportedRatio width height <> WIDE_PORTRAIT)
  /\ (width == height -> getClosestSupportedRatio width height = SQUARE).
Proof.
  intros Hw Hh. split; [exact (closest_split width height)|]. split.
  - intro Hlt. pose proof (ratio_gt_1 width height Hh Hlt) as Hr.
    destruct (AspectRatio_eq_dec (getClosestSupportedRatio width height) SQUARE) as [E|E].
    + rewrite E. split; discriminate.
    + destruct (closest_not_first width height E) as (e & Hin & Hres & Hd).
      rewrite Hres. exact (portrait_not_closer _ e Hr Hin Hd).
  - intro Heq. pose proof (ratio_eq_1 width height Hh Heq) as Hr.
    destruct (AspectRatio_eq_dec (getClosestSupportedRatio width height) SQUARE) as [E|E];
      [exact E|].
    destruct (closest_not_first width height E) as (e & _ & _ & Hd).
    exfalso. exact (nothing_closer_at_1 _ e Hr Hd).
Qed.

Lemma getClosestSupportedRatio_closest_witness :
  0 < 800 /\ 0 < 600 /\ getClosestSupportedRatio 800 600 <> PORTRAIT.
Proof.
  split; [reflexivity|]. split; [reflexivity|].
  apply (getClosestSupportedRatio_closest 800 600); reflexivity.
Defined.

Example scenario_A_ratio : getClosestSupportedRatio 800 600 = LANDSCAPE.
Proof. reflexivity. Qed.

(* ===================================================================== *)
(** * Properties of the image pre-processor *)
(* ===================================================================== *)

(** [Math.round] is within one half of its argument. *)
Lemma Math_round_near (x : Q) : Qabs (inject_Z (Js.Math_round x) - x) <= 1 # 2.
Proof.
  unfold Js.Math_round.
  pose proof (Qfloor_le (x + (1 # 2))) as Hle.
  pose proof (Qlt_floor (x + (1 # 2))) as Hlt.
  rewrite inject_Z_plus in Hlt. change (inject_Z 1) with 1 in Hlt.
  apply Qabs_case; intros; lra.
Qed.

Lemma Math_round_le (x : Q) (n : Z) : x <= inject_Z n -> (Js.Math_round x <= n)%Z.
Proof.
  intro Hx. unfold Js.Math_round.
  pose proof (Qfloor_le (x + (1 # 2))) as Hle.
  destruct (Z_le_gt_dec (Qfloor (x + (1 # 2))) n) as [H|H]; [exact H|].
  exfalso. assert (Hn : (n + 1 <= Qfloor (x + (1 # 2)))%Z) by lia.
  rewrite Zle_Qle in Hn. rewrite inject_Z_plus in Hn. change (inject_Z 1) with 1 in Hn.
  lra.
Qed.

(** The scaled side of a shrunk image: [l] is the longer side. *)
Lemma scaled_le_MAX_SIZE (s l : Z) :
  (0 < l)%Z -> (s <= l)%Z ->
  inject_Z (s * MAX_SIZE) / inject_Z l <= inject_Z MAX_SIZE.
Proof.
  intros Hl Hs.
  assert (Hq : inject_Z 0 < inject_Z l) by (rewrite <- Zlt_Qlt; exact Hl).
  change (inject_Z 0) with 0 in Hq.
  apply Qle_shift_div_r; [exact Hq|].
  rewrite <- inject_Z_mult. rewrite <- Zle_Qle. unfold MAX_SIZE. lia.
Qed.

Lemma canvasSize_small (width height : Z) :
  (width <= MAX_SIZE)%Z -> (height <= MAX_SIZE)%Z ->
  canvasSize width height = (width, height).
Proof.
  intros Hw Hh. unfold canvasSize.
  destruct (Z.gtb_spec width MAX_SIZE); [lia|].
  destruct (Z.gtb_spec height MAX_SIZE); [lia|]. reflexivity.
Qed.

Lemma canvasSize_big (width height : Z) :
  (0 < width)%Z -> (0 < height)%Z ->
  (MAX_SIZE < width)%Z \/ (MAX_SIZE < height)%Z ->
  exists w h,
    canvasSize width height = (w, h)
    /\ (Z.max w h <= MAX_SIZE)%Z
    /\ ((width <= MAX_SIZE)%Z /\ (height <= MAX_SIZE)%Z /\ w = width /\ h = height
        \/ ((MAX_SIZE < width)%Z \/ (MAX_SIZE < height)%Z) /\ (height < width)%Z
           /\ w = MAX_SIZE
           /\ Qabs (inject_Z h - inject_Z (height * MAX_SIZE) / inject_Z width) <= 1 # 2
        \/ ((MAX_SIZE < width)%Z \/ (MAX_SIZE < height)%Z) /\ (width <= height)%Z
           /\ h = MAX_SIZE
           /\ Qabs (inject_Z w - inject_Z (width * MAX_SIZE) / inject_Z height) <= 1 # 2).
Proof.
  intros Hw Hh Hbig. unfold canvasSize.
  assert (Hor : ((width >? MAX_SIZE) || (height >? MAX_SIZE))%Z = true).
  { apply orb_true_iff. destruct Hbig; [left|right]; apply Z.gtb_lt; assumption. }
  rewrite Hor. destruct (Z.gtb_spec width height) as [Hwh|Hwh].
  - eexists; eexists. split; [reflexivity|]. split.
    + apply Z.max_lub; [apply Z.le_refl|].
      apply Math_round_le, scaled_le_MAX_SIZE; lia.
    + right; left. repeat split; auto. apply Math_round_near.
  - eexists; eexists. split; [reflexivity|]. split.
    + apply Z.max_lub; [|apply Z.le_refl].
      apply Math_round_le, scaled_le_MAX_SIZE; lia.
    + right; right. repeat split; auto. apply Math_round_near.
Qed.

Lemma canvasSize_bounds (width height : Z) :
  (0 < width)%Z -> (0 < height)%Z ->
  exists w h,
    canvasSize width height = (w, h)
    /\ (Z.max w h <= MAX_SIZE)%Z
    /\ ((width <= MAX_SIZE)%Z /\ (height <= MAX_SIZE)%Z /\ w = width /\ h = height
        \/ ((MAX_SIZE < width)%Z \/ (MAX_SIZE < height)%Z) /\ (height < width)%Z
           /\ w = MAX_SIZE
           /\ Qabs (inject_Z h - inject_Z (height * MAX_SIZE) / inject_Z width) <= 1 # 2
        \/ ((MAX_SIZE < width)%Z \/ (MAX_SIZE < height)%Z) /\ (width <= height)%Z
           /\ h = MAX_SIZE
           /\ Qabs (inject_Z w - inject_Z (width * MAX_SIZE) / inject_Z height) <= 1 # 2).
Proof.
  intros Hw Hh.
  destruct (Z_le_gt_dec width MAX_SIZE) as [Hsw|Hbw];
    [destruct (Z_le_gt_dec height MAX_SIZE) as [Hsh|Hbh]|].
  - exists width, height. split; [apply canvasSize_small; assumption|].
    split; [apply Z.max_lub; assumption|]. left. auto.
  - apply canvasSize_big; [assumption..|right; lia].
  - apply canvasSize_big; [assumption..|left; lia].
Qed.

(** C6. For an image that decodes to a positive [width] by [height], and
    a canvas that gives its 2D context, [compressImage] returns the JPEG
    encoding of a [w] by [h] canvas with mimeType "image/jpeg" whatever the
    input mimeType.  Neither [w] nor [h] exceeds 1024.  When both input
    dimensions are at most 1024 they are kept; otherwise the longer one
    becomes 1024 and the shorter one is within one half of a pixel of its
    exact proportional value. *)
Theorem compressImage_bounded_jpeg (b : Browser) (base64Str mimeType : string)
    (width height : Z) :
  decode b mimeType base64Str = Some (width, height) ->
  (0 < width)%Z -> (0 < height)%Z ->
  getContext2d b (fst (canvasSize width height)) (snd (canvasSize width height)) = true ->
  exists w h,
    compressImage b base64Str mimeType
    = Return {| c_data := toJpegBase64 b mimeType base64Str w h;
                c_mimeType := "image/jpeg" |}
    /\ (Z.max w h <= 1024)%Z
    /\ ((width <= 1024)%Z /\ (height <= 1024)%Z /\ w = width /\ h = height
        \/ ((1024 < width)%Z \/ (1024 < height)%Z) /\ (height < width)%Z
           /\ w = 1024%Z
           /\ Qabs (inject_Z h - inject_Z (height * 1024) / inject_Z width) <= 1 # 2
        \/ ((1024 < width)%Z \/ (1024 < height)%Z) /\ (width <= height)%Z
           /\ h = 1024%Z
           /\ Qabs (inject_Z w - inject_Z (width * 1024) / inject_Z height) <= 1 # 2).
Proof.
  intros Hdec Hw Hh Hctx.
  destruct (canvasSize_bounds width height Hw Hh) as (w & h & Hsize & Hrest).
  exists w, h. split; [|exact Hrest].
  unfold compressImage. rewrite Hdec. rewrite Hsize in *. cbn [fst snd] in Hctx.
  rewrite Hctx. reflexivity.
Qed.

Lemma compressImage_bounded_jpeg_witness :
  exists w h,
    compressImage canvas_browser "iVBORw0KGgo" "image/png"
    = Return {| c_data := toJpegBase64 canvas_browser "image/png" "iVBORw0KGgo" w h;
                c_mimeType := "image/jpeg" |}
    /\ (Z.max w h <= 1024)%Z.
Proof.
  destruct (compressImage_bounded_jpeg canvas_browser "iVBORw0KGgo" "image/png" 4000 3000)
    as (w & h & Hc & Hmax & _).
  - reflexivity.
  - reflexivity.
  - reflexivity.
  - reflexivity.
  - exists w, h. split; assumption.
Defined.

(** C10. For an image that decodes to a [width] and a [height] that are both
    at most 1024, and a canvas that gives its 2D context, the scaling branch
    is skipped: the canvas keeps exactly [width] by [height], and
    [compressImage] returns its JPEG encoding. *)
Theorem compressImage_never_upscales (b : Browser) (base64Str mimeType : string)
    (width height : Z) :
  decode b mimeType base64Str = Some (width, height) ->
  (width <= 1024)%Z -> (height <= 1024)%Z ->
  getContext2d b width height = true ->
  canvasSize width height = (width, height)
  /\ compressImage b base64Str mimeType
     = Return {| c_data := toJpegBase64 b mimeType base64Str width height;
                 c_mimeType := "image/jpeg" |}.
Proof.
  intros Hdec Hw Hh Hctx.
  pose proof (canvasSize_small width height Hw Hh) as Hsize.
  split; [exact Hsize|].
  unfold compressImage. rewrite Hdec, Hsize, Hctx. reflexivity.
Qed.

Lemma compressImage_never_upscales_witness :
  compressImage jpeg_browser "SRC" "image/png"
  = Return {| c_data := "jpeg:SRC"; c_mimeType := "image/jpeg" |}.
Proof.
  destruct (compressImage_never_upscales jpeg_browser "SRC" "image/png" 800 600)
    as (_ & Hrun).
  - reflexivity.
  - lia.
  - lia.
  - reflexivity.
  - exact Hrun.
Defined.

(* ===================================================================== *)
(** * Properties of the retry policy *)
(* ===================================================================== *)

Lemma is_429_true (o : option Z) : is_429 o = true <-> o = Some 429%Z.
Proof.
  destruct o as [n|]; simpl.
  - rewrite Z.eqb_eq. split; [intros ->; reflexivity | intros [= ->]; reflexivity].
  - split; discriminate.
Qed.

Lemma isRateLimit_classified (error : JsError) :
  isRateLimit error = true <-> RateLimitClassified error.
Proof.
  unfold isRateLimit, RateLimitClassified.
  rewrite !orb_true_iff, !is_429_true. tauto.
Qed.

Lemma isRateLimit_not_classified (error : JsError) :
  isRateLimit error = false <-> ~ RateLimitClassified error.
Proof.
  rewrite <- isRateLimit_classified. destruct (isRateLimit error); split; congruence.
Qed.

Section RetryFacts.

Context {St T : Type}.
Variable operation : @Operation St T.
Variables (retries : nat) (initialDelay : Z).

(** One iteration that meets a rate limit with attempts left. *)
Lemma retry_loop_again (remaining i : nat) (lastError : Thrown) (s s' : St)
    (log : list Effect) (error : JsError) :
  operation s = (Throw (ThrownError error), s') ->
  RateLimitClassified error ->
  (i < retries - 1)%nat ->
  retry_loop operation retries initialDelay (S remaining) i lastError s log
  = retry_loop operation retries initialDelay remaining (S i) (ThrownError error) s'
      (log ++ [Invoked;
               ConsoleWarn (rate_limit_warning (initialDelay * 2 ^ Z.of_nat i) i retries);
               Slept (initialDelay * 2 ^ Z.of_nat i)])%list.
Proof.
  intros Hop Hrl Hi. cbn [retry_loop]. rewrite Hop.
  apply isRateLimit_classified in Hrl. rewrite Hrl.
  apply Nat.ltb_lt in Hi. rewrite Hi. reflexivity.
Qed.

(** One iteration that succeeds. *)
Lemma retry_loop_return (remaining i : nat) (lastError : Thrown) (s s' : St)
    (log : list Effect) (v : T) :
  operation s = (Return v, s') ->
  retry_loop operation retries initialDelay (S remaining) i lastError s log
  = (Return v, s', (log ++ [Invoked])%list).
Proof. intros Hop. cbn [retry_loop]. rewrite Hop. reflexivity. Qed.

(** One iteration that meets another error. *)
Lemma retry_loop_rethrow (remaining i : nat) (lastError : Thrown) (s s' : St)
    (log : list Effect) (error : JsError) :
  operation s = (Throw (ThrownError error), s') ->
  ~ RateLimitClassified error ->
  retry_loop operation retries initialDelay (S remaining) i lastError s log
  = (Throw (ThrownError error), s', (log ++ [Invoked])%list).
Proof.
  intros Hop Hrl. cbn [retry_loop]. rewrite Hop.
  apply isRateLimit_not_classified in Hrl. rewrite Hrl. reflexivity.
Qed.

End RetryFacts.

(** C2. For an operation whose first two invocations fail with a
    rate-limit-classified error and whose third succeeds, [retryOperation]
    with [retries = 3] returns the third invocation's result, in the state
    that invocation left; it invokes the operation exactly three times and
    waits [initialDelay] then [2 * initialDelay] between the attempts.  With
    [initialDelay = 2000] the log reads: invoke, warn, sleep 2000, invoke,
    warn, sleep 4000, invoke. *)
Theorem retryOperation_succeeds_on_third {St T : Type} (operation : @Operation St T)
    (initialDelay : Z) (s0 s1 s2 s3 : St) (e1 e2 : JsError) (v : T) (log : list Effect) :
  operation s0 = (Throw (ThrownError e1), s1) -> RateLimitClassified e1 ->
  operation s1 = (Throw (ThrownError e2), s2) -> RateLimitClassified e2 ->
  operation s2 = (Return v, s3) ->
  exists trace,
    retryOperation operation 3 initialDelay s0 log = (Return v, s3, (log ++ trace)%list)
    /\ invocations trace = 3%nat
    /\ sleeps trace = [initialDelay; (2 * initialDelay)%Z]
    /\ (initialDelay = 2000%Z ->
        trace = [Invoked;
                 ConsoleWarn "Rate limit hit. Retrying in 2000ms... (Attempt 1/3)";
                 Slept 2000;
                 Invoked;
                 ConsoleWarn "Rate limit hit. Retrying in 4000ms... (Attempt 2/3)";
                 Slept 4000;
                 Invoked]).
Proof.
  intros H0 R0 H1 R1 H2.
  eexists. split.
  - unfold retryOperation.
    rewrite (retry_loop_again operation 3 initialDelay 2 0 _ s0 s1 log e1 H0 R0) by (simpl; lia).
    rewrite (retry_loop_again operation 3 initialDelay 1 1 _ s1 s2 _ e2 H1 R1) by (simpl; lia).
    rewrite (retry_loop_return operation 3 initialDelay 0 2 _ s2 s3 _ v H2).
    rewrite <- !app_assoc. reflexivity.
  - cbn [app invocations sleeps]. repeat split.
    + change (Z.of_nat 0) with 0%Z. change (Z.of_nat 1) with 1%Z.
      rewrite Z.pow_0_r, Z.pow_1_r. f_equal; [|f_equal]; lia.
    + intros ->. reflexivity.
Qed.

(** C3. For an operation whose first invocation fails with an error that is
    not rate-limit-classified, [retryOperation] throws that very error in the
    state the invocation left: the log gains the one invocation and nothing
    else, so there is no second attempt and no sleep. *)
Theorem retryOperation_rethrows_at_once {St T : Type} (operation : @Operation St T)
    (retries : nat) (initialDelay : Z) (s0 s1 : St) (error : JsError) (log : list Effect) :
  (0 < retries)%nat ->
  operation s0 = (Throw (ThrownError error), s1) ->
  ~ RateLimitClassified error ->
  exists trace,
    retryOperation operation retries initialDelay s0 log
    = (Throw (ThrownError error), s1, (log ++ trace)%list)
    /\ trace = [Invoked]
    /\ invocations trace = 1%nat
    /\ sleeps trace = [].
Proof.
  intros Hr Hop Hrl. exists [Invoked]. split; [|repeat split].
  unfold retryOperation. destruct retries as [|n]; [lia|].
  apply retry_loop_rethrow; assumption.
Qed.

Lemma not_classified_permission_error : ~ RateLimitClassified permission_error.
Proof.
  unfold RateLimitClassified. intros [H | [H | [H | [H | H]]]]; discriminate.
Qed.

Lemma retryOperation_succeeds_on_third_witness :
  exists trace,
    retryOperation flaky_operation 3 2000 0%nat [] = (Return "done", 3%nat, trace)
    /\ invocations trace = 3%nat
    /\ sleeps trace = [2000; 4000]%Z.
Proof.
  destruct (retryOperation_succeeds_on_third flaky_operation 2000 0%nat 1%nat 2%nat 3%nat
              rate_limit_error rate_limit_error "done" [])
    as (trace & Hrun & Hcalls & Hsleeps & _).
  - reflexivity.
  - right. left. reflexivity.
  - reflexivity.
  - right. right. right. left. reflexivity.
  - reflexivity.
  - exists trace. repeat split; assumption.
Defined.

Lemma retryOperation_rethrows_at_once_witness :
  exists trace,
    retryOperation refused_operation 3 2000 0%nat []
    = (Throw (ThrownError permission_error), 1%nat, trace)
    /\ sleeps trace = [].
Proof.
  destruct (retryOperation_rethrows_at_once refused_operation 3 2000 0%nat 1%nat
              permission_error [])
    as (trace & Hrun & _ & _ & Hsleeps).
  - lia.
  - reflexivity.
  - exact not_classified_permission_error.
  - exists trace. split; assumption.
Defined.

(** Past the budget the last rate-limit error is thrown: three invocations,
    two sleeps. *)
Example retryOperation_exhausted :
  retryOperation (send (GenAI.generateContent busy_remote)
                       (extractionRequest {| c_data := "x"; c_mimeType := "image/jpeg" |} "q"))
    3 2000 [] []
  = (Throw (ThrownError rate_limit_error),
     repeat (extractionRequest {| c_data := "x"; c_mimeType := "image/jpeg" |} "q") 3,
     [Invoked; ConsoleWarn "Rate limit hit. Retrying in 2000ms... (Attempt 1/3)"; Slept 2000;
      Invoked; ConsoleWarn "Rate limit hit. Retrying in 4000ms... (Attempt 2/3)"; Slept 4000;
      Invoked]).
Proof. reflexivity. Qed.

(* ===================================================================== *)
(** * What a run sends *)
(* ===================================================================== *)

Section SendsOnly.

Variable P : GenAI.Request -> Prop.

Lemma sends_nothing {A : Type} (c : M A) (w : World) :
  outbound (snd (c w)) = outbound w -> sends_only P c w.
Proof. intro H. exists []. rewrite app_nil_r. split; [exact H | constructor]. Qed.

Lemma sends_only_ret {A : Type} (v : A) (w : World) : sends_only P (ret v) w.
Proof. apply sends_nothing. reflexivity. Qed.

Lemma sends_only_throw {A : Type} (e : JsError) (w : World) :
  sends_only P (@throw A e) w.
Proof. apply sends_nothing. reflexivity. Qed.

Lemma sends_only_await {A : Type} (c : Completion A) (w : World) :
  sends_only P (await c) w.
Proof. apply sends_nothing. reflexivity. Qed.

Lemma sends_only_console (e : Effect) (w : World) : sends_only P (console e) w.
Proof. apply sends_nothing. reflexivity. Qed.

Lemma sends_only_bind {A B : Type} (c : M A) (k : A -> M B) (w : World) :
  sends_only P c w ->
  (forall v w', c w = (Return v, w') -> sends_only P (k v) w') ->
  sends_only P (bind c k) w.
Proof.
  intros (n1 & H1 & F1) Hk. unfold sends_only, bind.
  destruct (c w) as [[v|e] w'] eqn:E; cbn [snd] in H1.
  - destruct (Hk v w' eq_refl) as (n2 & H2 & F2).
    exists (n1 ++ n2)%list. split.
    + rewrite H2, H1, app_assoc. reflexivity.
    + apply Forall_app. split; assumption.
  - exists n1. split; assumption.
Qed.

Lemma sends_only_try_catch {A : Type} (c : M A) (handler : Thrown -> M A) (w : World) :
  sends_only P c w ->
  (forall e w', c w = (Throw e, w') -> sends_only P (handler e) w') ->
  sends_only P (try_catch c handler) w.
Proof.
  intros (n1 & H1 & F1) Hh. unfold sends_only, try_catch.
  destruct (c w) as [[v|e] w'] eqn:E; cbn [snd] in H1.
  - exists n1. split; assumption.
  - destruct (Hh e w' eq_refl) as (n2 & H2 & F2).
    exists (n1 ++ n2)%list. split.
    + rewrite H2, H1, app_assoc. reflexivity.
    + apply Forall_app. split; assumption.
Qed.

(** The retry loop around one request sends that request, some number of
    times. *)
Lemma retry_loop_send {A : Type}
    (respond : list GenAI.Request -> GenAI.Request -> Completion A)
    (request : GenAI.Request) (retries : nat) (initialDelay : Z)
    (remaining i : nat) (lastError : Thrown) (sent : list GenAI.Request)
    (log : list Effect) :
  exists k,
    snd (fst (retry_loop (send respond request) retries initialDelay
                remaining i lastError sent log))
    = (sent ++ repeat request k)%list.
Proof.
  revert i lastError sent log.
  induction remaining as [|remaining IH]; intros i lastError sent log.
  - exists 0%nat. cbn. rewrite app_nil_r. reflexivity.
  - cbn [retry_loop]. unfold send at 1.
    destruct (respond sent request) as [v|[|error]].
    + exists 1%nat. reflexivity.
    + exists 1%nat. reflexivity.
    + destruct (isRateLimit error && (i <? retries - 1)%nat).
      * destruct (IH (S i) (ThrownError error) (sent ++ [request])%list
                    (log ++ [Invoked;
                             ConsoleWarn (rate_limit_warning
                                            (initialDelay * 2 ^ Z.of_nat i) i retries);
                             Slept (initialDelay * 2 ^ Z.of_nat i)])%list) as (k & Hk).
        exists (S k). rewrite Hk, <- app_assoc. reflexivity.
      * exists 1%nat. reflexivity.
Qed.

Lemma sends_only_await_retry {A : Type}
    (respond : list GenAI.Request -> GenAI.Request -> Completion A)
    (request : GenAI.Request) (w : World) :
  P request -> sends_only P (await_retry (send respond request)) w.
Proof.
  intro HP. unfold sends_only, await_retry, retryOperation.
  destruct (retry_loop_send respond request 3 2000 3 0 ThrownUndefined
              (outbound w) (effects w)) as (k & Hk).
  destruct (retry_loop _ _ _ _ _ _ _ _) as [[c sent] log]. cbn [fst snd] in *.
  exists (repeat request k). split; [exact Hk|].
  apply Forall_forall. intros r Hr. apply repeat_spec in Hr. subst r. exact HP.
Qed.

Lemma sends_only_extract (env : Env) (image : ImageAsset) (mode : ReferenceMode)
    (customPrompt : option string) (w : World) :
  (forall processed promptText, P (extractionRequest processed promptText)) ->
  sends_only P (extractFeatureDescription env image mode customPrompt) w.
Proof.
  intro HP. unfold extractFeatureDescription.
  destruct (negb _); [apply sends_only_throw|].
  apply sends_only_bind; [apply sends_only_await|]. intros processed w' _.
  apply sends_only_try_catch.
  - apply sends_only_bind; [apply sends_only_await_retry, HP|].
    intros; apply sends_only_ret.
  - intros e w1 _. apply sends_only_bind; [apply sends_only_console|].
    intros; apply sends_only_ret.
Qed.

Lemma sends_only_guidance (env : Env) (referenceImage : option ImageAsset)
    (config : GenerationConfig) (w : World) :
  (forall processed promptText, P (extractionRequest processed promptText)) ->
  sends_only P (extractGuidance env referenceImage config) w.
Proof.
  intro HP. unfold extractGuidance.
  destruct referenceImage as [reference|]; [|apply sends_only_ret].
  destruct (referenceMode config) as [mode|]; [|apply sends_only_ret].
  apply sends_only_try_catch.
  - apply sends_only_bind; [apply sends_only_extract, HP|].
    intros; apply sends_only_ret.
  - intros e w1 _. apply sends_only_bind; [apply sends_only_console|].
    intros; apply sends_only_ret.
Qed.

Lemma sends_only_compressBoth (env : Env) (sourceImage : ImageAsset)
    (referenceImage : option ImageAsset) (w : World) :
  sends_only P (compressBoth env sourceImage referenceImage) w.
Proof.
  unfold compressBoth. apply sends_only_bind; [apply sends_only_await|].
  intros ps w' _. destruct referenceImage; [|apply sends_only_ret].
  apply sends_only_bind; [apply sends_only_await|]. intros; apply sends_only_ret.
Qed.

Lemma sends_only_edit (env : Env) (request : GenAI.Request) (w : World) :
  P request -> sends_only P (editAndInterpret env request) w.
Proof.
  intro HP. unfold editAndInterpret. apply sends_only_try_catch.
  - apply sends_only_bind; [apply sends_only_await_retry, HP|].
    intros; apply sends_only_await.
  - intros e w1 _. apply sends_only_bind; [apply sends_only_console|].
    intros _ w2 _. destruct e; apply sends_only_throw.
Qed.

Lemma sends_only_imagen (env : Env) (config : GenerationConfig)
    (targetRatio : AspectRatio) (w : World) :
  P (imagenRequest config targetRatio) ->
  sends_only P (generateWithImagen env config targetRatio) w.
Proof.
  intro HP. unfold generateWithImagen. apply sends_only_try_catch.
  - apply sends_only_bind; [apply sends_only_await_retry, HP|].
    intros response w1 _.
    destruct (GenAI.generatedImages response) as [[|g l]|];
      [apply sends_only_throw| |apply sends_only_throw].
    destruct (GenAI.image g); [apply sends_only_ret|apply sends_only_throw].
  - intros e w1 _. destruct e; apply sends_only_throw.
Qed.

End SendsOnly.

(** What [compressBoth] returns is what [compressImage] gave for each image. *)
Lemma compressBoth_returns (env : Env) (sourceImage : ImageAsset)
    (referenceImage : option ImageAsset) (w w' : World)
    (processedSource : Compressed) (processedRef : option Compressed) :
  compressBoth env sourceImage referenceImage w
  = (Return (processedSource, processedRef), w') ->
  w' = w
  /\ compressImage (browser env) (data sourceImage) (mimeType sourceImage)
     = Return processedSource
  /\ match referenceImage with
     | Some reference =>
         exists processed,
           processedRef = Some processed
           /\ compressImage (browser env) (data reference) (mimeType reference)
              = Return processed
     | None => processedRef = None
     end.
Proof.
  unfold compressBoth, bind, await, ret.
  destruct (compressImage (browser env) (data sourceImage) (mimeType sourceImage))
    as [ps|e]; [|discriminate].
  destruct referenceImage as [reference|].
  - destruct (compressImage (browser env) (data reference) (mimeType reference))
      as [pr|e]; [|discriminate].
    intros [= <- <- <-]. repeat split. exists pr. split; reflexivity.
  - intros [= <- <- <-]. repeat split.
Qed.

(** The guidance step never throws. *)
Lemma extractGuidance_returns (env : Env) (referenceImage : option ImageAsset)
    (config : GenerationConfig) (w : World) :
  exists guidance w', extractGuidance env referenceImage config w = (Return guidance, w').
Proof.
  unfold extractGuidance.
  destruct referenceImage as [reference|]; [|unfold ret; eauto].
  destruct (referenceMode config) as [mode|]; [|unfold ret; eauto].
  unfold try_catch, bind.
  destruct (extractFeatureDescription env reference mode (customReferencePrompt config) w)
    as [[desc|e] w1]; unfold ret, console; eauto.
Qed.

Lemma compressBoth_succeeds (env : Env) (sourceImage : ImageAsset)
    (referenceImage : option ImageAsset) (w : World) (processedSource : Compressed) :
  compressImage (browser env) (data sourceImage) (mimeType sourceImage)
  = Return processedSource ->
  match referenceImage with
  | Some reference =>
      exists processedRef,
        compressImage (browser env) (data reference) (mimeType reference)
        = Return processedRef
  | None => True
  end ->
  exists processedRef,
    compressBoth env sourceImage referenceImage w
    = (Return (processedSource, processedRef), w).
Proof.
  intros Hs Hr. unfold compressBoth, bind, await. rewrite Hs.
  destruct referenceImage as [reference|].
  - destruct Hr as (pr & Hr). rewrite Hr. exists (Some pr). reflexivity.
  - exists None. reflexivity.
Qed.

(** The retry loop around one request, with an attempt left, sends it at
    least once. *)
Lemma retry_loop_send_once {A : Type}
    (respond : list GenAI.Request -> GenAI.Request -> Completion A)
    (request : GenAI.Request) (retries : nat) (initialDelay : Z)
    (remaining i : nat) (lastError : Thrown) (sent : list GenAI.Request)
    (log : list Effect) :
  exists k,
    snd (fst (retry_loop (send respond request) retries initialDelay
                (S remaining) i lastError sent log))
    = (sent ++ repeat request (S k))%list.
Proof.
  cbn [retry_loop]. unfold send at 1.
  destruct (respond sent request) as [v|[|error]];
    try (exists 0%nat; reflexivity).
  destruct (isRateLimit error && (i <? retries - 1)%nat);
    [|exists 0%nat; reflexivity].
  match goal with
  | |- context [retry_loop ?op ?r ?d ?n ?j ?e ?s ?l] =>
      destruct (retry_loop_send respond request r d n j e s l) as (k & Hk)
  end.
  exists k. rewrite Hk, <- app_assoc. reflexivity.
Qed.

(** The retry loop around one request sends it at most once per remaining
    iteration. *)
Lemma retry_loop_send_le {A : Type}
    (respond : list GenAI.Request -> GenAI.Request -> Completion A)
    (request : GenAI.Request) (retries : nat) (initialDelay : Z)
    (remaining i : nat) (lastError : Thrown) (sent : list GenAI.Request)
    (log : list Effect) :
  exists k,
    (k <= remaining)%nat
    /\ snd (fst (retry_loop (send respond request) retries initialDelay
                   remaining i lastError sent log))
       = (sent ++ repeat request k)%list.
Proof.
  revert i lastError sent log.
  induction remaining as [|remaining IH]; intros i lastError sent log.
  - exists 0%nat. cbn. rewrite app_nil_r. split; [lia|reflexivity].
  - cbn [retry_loop]. unfold send at 1.
    destruct (respond sent request) as [v|[|error]];
      try (exists 1%nat; split; [lia|reflexivity]).
    destruct (isRateLimit error && (i <? retries - 1)%nat);
      [|exists 1%nat; split; [lia|reflexivity]].
    match goal with
    | |- context [retry_loop ?op ?r ?d ?n ?j ?e ?s ?l] =>
        destruct (IH j e s l) as (k & Hle & Hk)
    end.
    exists (S k). split; [lia|]. rewrite Hk, <- app_assoc. reflexivity.
Qed.

(** The retry loop around one request, with [n + 1] attempts left, sends it
    between one and [n + 1] times. *)
Lemma retry_loop_send_count {A : Type}
    (respond : list GenAI.Request -> GenAI.Request -> Completion A)
    (request : GenAI.Request) (retries : nat) (initialDelay : Z)
    (n i : nat) (lastError : Thrown) (sent : list GenAI.Request)
    (log : list Effect) :
  exists k,
    (k <= n)%nat
    /\ snd (fst (retry_loop (send respond request) retries initialDelay
                   (S n) i lastError sent log))
       = (sent ++ repeat request (S k))%list.
Proof.
  cbn [retry_loop]. unfold send at 1.
  destruct (respond sent request) as [v|[|error]];
    try (exists 0%nat; split; [lia|reflexivity]).
  destruct (isRateLimit error && (i <? retries - 1)%nat);
    [|exists 0%nat; split; [lia|reflexivity]].
  match goal with
  | |- context [retry_loop ?op ?r ?d ?m ?j ?e ?s ?l] =>
      destruct (retry_loop_send_le respond request r d m j e s l) as (k & Hle & Hk)
  end.
  exists k. split; [exact Hle|]. rewrite Hk, <- app_assoc. reflexivity.
Qed.

(** The edit step sends its request, at least once, and nothing else. *)
Lemma editAndInterpret_sends (env : Env) (request : GenAI.Request) (w : World) :
  exists k,
    outbound (snd (editAndInterpret env request w))
    = (outbound w ++ repeat request (S k))%list.
Proof.
  destruct (retry_loop_send_once (GenAI.generateContent (remote env)) request
              3 2000 2 0 ThrownUndefined (outbound w) (effects w)) as (k & Hk).
  exists k. unfold editAndInterpret, try_catch, bind, await_retry, retryOperation.
  destruct (retry_loop _ _ _ _ _ _ _ _) as [[c sent] log]. cbn [fst snd] in Hk.
  subst sent. destruct c as [response|e].
  - unfold await. destruct (interpretResponse response) as [d|[|e]]; reflexivity.
  - destruct e; reflexivity.
Qed.

(** The text-to-image path: its requests. *)
Lemma generateWithImagen_requests (env : Env) (config : GenerationConfig)
    (targetRatio : AspectRatio) (w : World) :
  exists k,
    (k <= 2)%nat
    /\ outbound (snd (generateWithImagen env config targetRatio w))
       = (outbound w ++ repeat (imagenRequest config targetRatio) (S k))%list.
Proof.
  destruct (retry_loop_send_count (GenAI.generateImages (remote env))
              (imagenRequest config targetRatio) 3 2000 2 0 ThrownUndefined
              (outbound w) (effects w)) as (k & Hle & Hk).
  exists k. split; [exact Hle|].
  unfold generateWithImagen, try_catch, bind, await_retry, retryOperation.
  destruct (retry_loop _ _ _ _ _ _ _ _) as [[c sent] log]. cbn [fst snd] in Hk.
  subst sent. destruct c as [response|e].
  - destruct (GenAI.generatedImages response) as [[|g l]|]; try reflexivity.
    destruct (GenAI.image g); reflexivity.
  - destruct e; reflexivity.
Qed.

(** With the credential present, an editing model chosen and the images
    compressed, a run is its edit step, started after the guidance step. *)
Lemma generateFutureImage_editing_path (env : Env) (sourceImage : ImageAsset)
    (referenceImage : option ImageAsset) (config : GenerationConfig) (w : World)
    (processedSource : Compressed) :
  Js.truthy_opt_string (API_KEY env) = true ->
  modelId config <> Some IMAGEN_4 ->
  compressImage (browser env) (data sourceImage) (mimeType sourceImage)
  = Return processedSource ->
  match referenceImage with
  | Some reference =>
      exists processedRef,
        compressImage (browser env) (data reference) (mimeType reference)
        = Return processedRef
  | None => True
  end ->
  exists model guidance processedRef w1 before,
    generateFutureImage env sourceImage referenceImage config w
    = editAndInterpret env
        (editRequest model
           (buildParts processedSource processedRef
              (composeInstruction processedRef guidance config))
           (resolveTargetRatio config sourceImage))
        w1
    /\ outbound w1 = (outbound w ++ before)%list.
Proof.
  intros Hkey Hmodel Hs Hr.
  destruct (extractGuidance_returns env referenceImage config w) as (g & w1 & Hg).
  destruct (sends_only_guidance (fun _ => True) env referenceImage config w)
    as (before & Hb & _); [intros; exact I|].
  rewrite Hg in Hb. cbn [snd] in Hb.
  destruct (compressBoth_succeeds env sourceImage referenceImage w1 processedSource Hs Hr)
    as (pr & Hc).
  exists (match modelId config with Some m => m | None => GEMINI_2_5 end), g, pr, w1, before.
  split; [|exact Hb].
  unfold generateFutureImage. rewrite Hkey. cbn [negb].
  assert (Hedit : forall model,
    (guidanceDescription <- extractGuidance env referenceImage config ;;
     processed <- compressBoth env sourceImage referenceImage ;;
     let '(processedSource, processedRef) := processed in
     editAndInterpret env
       (editRequest model
          (buildParts processedSource processedRef
             (composeInstruction processedRef guidanceDescription config))
          (resolveTargetRatio config sourceImage))) w
    = editAndInterpret env
        (editRequest model
           (buildParts processedSource pr (composeInstruction pr g config))
           (resolveTargetRatio config sourceImage)) w1).
  { intro model. unfold bind at 1. rewrite Hg. unfold bind at 1. rewrite Hc. reflexivity. }
  destruct (modelId config) as [[| |]|]; try apply Hedit. congruence.
Qed.

Lemma resolveTargetRatio_not_same (config : GenerationConfig) (sourceImage : ImageAsset) :
  resolveTargetRatio config sourceImage <> SAME_AS_SOURCE.
Proof.
  unfold resolveTargetRatio.
  destruct (aspectRatio config); try discriminate.
  destruct (width sourceImage) as [sw|]; [|discriminate].
  destruct (height sourceImage) as [sh|]; [|discriminate].
  destruct (_ && _); [|discriminate].
  destruct (closest_split sw sh) as (b & e & a & Heq & Hres & _).
  rewrite Hres.
  assert (Hin : In e supported) by (rewrite Heq; apply in_or_app; right; left; reflexivity).
  unfold supported, supported_first, supported_rest in Hin.
  destruct Hin as [<- | [<- | [<- | [<- | [<- | []]]]]]; discriminate.
Qed.

Lemma resolveTargetRatio_known (config : GenerationConfig) (sourceImage : ImageAsset)
    (sourceWidth sourceHeight : Q) :
  aspectRatio config = SAME_AS_SOURCE ->
  width sourceImage = Some sourceWidth -> height sourceImage = Some sourceHeight ->
  0 < sourceWidth -> 0 < sourceHeight ->
  resolveTargetRatio config sourceImage
  = getClosestSupportedRatio sourceWidth sourceHeight.
Proof.
  intros Ha Hw Hh Hpw Hph. unfold resolveTargetRatio. rewrite Ha, Hw, Hh.
  assert (Ht : forall q, 0 < q -> Js.truthy_opt_number (Some q) = true).
  { intros q Hq. cbn. apply negb_true_iff. destruct (Qeq_bool q 0) eqn:E; [|reflexivity].
    apply Qeq_bool_iff in E. rewrite E in Hq. exfalso. exact (Qlt_irrefl _ Hq). }
  rewrite (Ht _ Hpw), (Ht _ Hph). reflexivity.
Qed.

Lemma resolveTargetRatio_unknown (config : GenerationConfig) (sourceImage : ImageAsset) :
  aspectRatio config = SAME_AS_SOURCE ->
  Js.truthy_opt_number (width sourceImage) = false
  \/ Js.truthy_opt_number (height sourceImage) = false ->
  resolveTargetRatio config sourceImage = SQUARE.
Proof.
  intros Ha Hf. unfold resolveTargetRatio. rewrite Ha.
  destruct (width sourceImage) as [sw|]; [|reflexivity].
  destruct (height sourceImage) as [sh|]; [|reflexivity].
  destruct Hf as [Hf|Hf]; rewrite Hf; [|rewrite andb_false_r]; reflexivity.
Qed.

Lemma imagenAspectRatio_not_same (targetRatio : AspectRatio) :
  imagenAspectRatio targetRatio <> "SAME_AS_SOURCE".
Proof. destruct targetRatio; discriminate. Qed.

Lemma imagenAspectRatio_wire (targetRatio : AspectRatio) :
  targetRatio <> SAME_AS_SOURCE ->
  imagenAspectRatio targetRatio = AspectRatio_str targetRatio.
Proof. destruct targetRatio; intro H; try reflexivity. congruence. Qed.

Lemma AspectRatio_str_same (a : AspectRatio) :
  AspectRatio_str a = "SAME_AS_SOURCE" -> a = SAME_AS_SOURCE.
Proof. destruct a; try discriminate. reflexivity. Qed.

(** The requests of a run, whatever the path, in terms of the resolved
    ratio. *)
Lemma generateFutureImage_sends (P : GenAI.Request -> Prop) (env : Env)
    (sourceImage : ImageAsset) (referenceImage : option ImageAsset)
    (config : GenerationConfig) (w : World) :
  (forall processed promptText, P (extractionRequest processed promptText)) ->
  P (imagenRequest config (resolveTargetRatio config sourceImage)) ->
  (forall model processedSource processedRef guidance,
      compressImage (browser env) (data sourceImage) (mimeType sourceImage)
      = Return processedSource ->
      match referenceImage with
      | Some reference =>
          exists processed,
            processedRef = Some processed
            /\ compressImage (browser env) (data reference) (mimeType reference)
               = Return processed
      | None => processedRef = None
      end ->
      P (editRequest model
           (buildParts processedSource processedRef
              (composeInstruction processedRef guidance config))
           (resolveTargetRatio config sourceImage))) ->
  sends_only P (generateFutureImage env sourceImage referenceImage config) w.
Proof.
  intros Hx Hi He. unfold generateFutureImage.
  destruct (negb _); [apply sends_only_throw|].
  assert (Hedit : forall model,
    sends_only P
      (guidanceDescription <- extractGuidance env referenceImage config ;;
       processed <- compressBoth env sourceImage referenceImage ;;
       let '(processedSource, processedRef) := processed in
       editAndInterpret env
         (editRequest model
            (buildParts processedSource processedRef
               (composeInstruction processedRef guidanceDescription config))
            (resolveTargetRatio config sourceImage))) w).
  { intro model.
    apply sends_only_bind; [apply sends_only_guidance, Hx|]. intros guidance w1 _.
    apply sends_only_bind; [apply sends_only_compressBoth|].
    intros [ps pr] w2 Hc. apply compressBoth_returns in Hc. destruct Hc as (_ & Hs & Hr).
    apply sends_only_edit. apply He; assumption. }
  destruct (match modelId config with Some m => m | None => GEMINI_2_5 end);
    [apply Hedit | apply Hedit | apply sends_only_imagen, Hi].
Qed.

(** The requests of the extractor, in terms of its question. *)
Lemma extractFeatureDescription_asks (P : GenAI.Request -> Prop) (env : Env)
    (image : ImageAsset) (mode : ReferenceMode) (customPrompt : option string)
    (w : World) :
  (forall processed,
      compressImage (browser env) (data image) (mimeType image) = Return processed ->
      P (extractionRequest processed (extractionPrompt mode customPrompt))) ->
  sends_only P (extractFeatureDescription env image mode customPrompt) w.
Proof.
  intro HP. unfold extractFeatureDescription.
  destruct (negb _); [apply sends_only_throw|].
  apply sends_only_bind; [apply sends_only_await|]. intros processed w' Hc.
  assert (Hp : compressImage (browser env) (data image) (mimeType image) = Return processed).
  { unfold await in Hc. injection Hc as Hc _. exact Hc. }
  apply sends_only_try_catch.
  - apply sends_only_bind; [apply sends_only_await_retry, HP, Hp|].
    intros; apply sends_only_ret.
  - intros e w1 _. apply sends_only_bind; [apply sends_only_console|].
    intros; apply sends_only_ret.
Qed.

(** The requests of a run, whatever the path, in terms of the question asked
    about the reference and of the instruction. *)
Lemma generateFutureImage_asks (P : GenAI.Request -> Prop) (env : Env)
    (sourceImage : ImageAsset) (referenceImage : option ImageAsset)
    (config : GenerationConfig) (w : World) :
  (forall reference mode processed,
      referenceImage = Some reference -> referenceMode config = Some mode ->
      compressImage (browser env) (data reference) (mimeType reference) = Return processed ->
      P (extractionRequest processed
           (extractionPrompt mode (customReferencePrompt config)))) ->
  P (imagenRequest config (resolveTargetRatio config sourceImage)) ->
  (forall model processedSource processedRef guidance,
      compressImage (browser env) (data sourceImage) (mimeType sourceImage)
      = Return processedSource ->
      match referenceImage with
      | Some reference =>
          exists processed,
            processedRef = Some processed
            /\ compressImage (browser env) (data reference) (mimeType reference)
               = Return processed
      | None => processedRef = None
      end ->
      P (editRequest model
           (buildParts processedSource processedRef
              (composeInstruction processedRef guidance config))
           (resolveTargetRatio config sourceImage))) ->
  sends_only P (generateFutureImage env sourceImage referenceImage config) w.
Proof.
  intros Hx Hi He. unfold generateFutureImage.
  destruct (negb _); [apply sends_only_throw|].
  assert (Hguidance : sends_only P (extractGuidance env referenceImage config) w).
  { unfold extractGuidance.
    destruct referenceImage as [reference|]; [|apply sends_only_ret].
    destruct (referenceMode config) as [mode|]; [|apply sends_only_ret].
    apply sends_only_try_catch.
    - apply sends_only_bind.
      + apply extractFeatureDescription_asks. intros processed Hc.
        exact (Hx reference mode processed eq_refl eq_refl Hc).
      + intros; apply sends_only_ret.
    - intros e w1 _. apply sends_only_bind; [apply sends_only_console|].
      intros; apply sends_only_ret. }
  assert (Hedit : forall model,
    sends_only P
      (guidanceDescription <- extractGuidance env referenceImage config ;;
       processed <- compressBoth env sourceImage referenceImage ;;
       let '(processedSource, processedRef) := processed in
       editAndInterpret env
         (editRequest model
            (buildParts processedSource processedRef
               (composeInstruction processedRef guidanceDescription config))
            (resolveTargetRatio config sourceImage))) w).
  { intro model.
    apply sends_only_bind; [exact Hguidance|]. intros guidance w1 _.
    apply sends_only_bind; [apply sends_only_compressBoth|].
    intros [ps pr] w2 Hc. apply compressBoth_returns in Hc. destruct Hc as (_ & Hs & Hr).
    apply sends_only_edit. apply He; assumption. }
  destruct (match modelId config with Some m => m | None => GEMINI_2_5 end);
    [apply Hedit | apply Hedit | apply sends_only_imagen, Hi].
Qed.

(** C4. Whatever the call, no request that [generateFutureImage] sends
    carries the literal [SAME_AS_SOURCE] as its aspect ratio: the analysis
    call has no ratio, and every other request carries the resolved ratio,
    which is never [SAME_AS_SOURCE]; such a request is sent as soon as the
    credential is present and the model is the text-to-image one or the
    images compress.  When the configuration asks for [SAME_AS_SOURCE] and
    both source dimensions are known (positive), the resolved ratio is the
    closest supported one; when either dimension is unknown (undefined or
    zero), it is [1:1], and the call behaves exactly as the same call made
    with [1:1]. *)
Theorem SAME_AS_SOURCE_never_sent (env : Env) (sourceImage : ImageAsset)
    (referenceImage : option ImageAsset) (config : GenerationConfig) (w : World) :
  (exists new,
      outbound (snd (generateFutureImage env sourceImage referenceImage config w))
      = (outbound w ++ new)%list
      /\ Forall (fun request => requestAspectRatio request <> Some "SAME_AS_SOURCE") new
      /\ Forall (fun request =>
                   isAnalysisRequest request
                   \/ requestAspectRatio request
                      = Some (AspectRatio_str (resolveTargetRatio config sourceImage)))
           new
      /\ (Js.truthy_opt_string (API_KEY env) = true ->
          modelId config = Some IMAGEN_4
          \/ (modelId config <> Some IMAGEN_4
              /\ (exists processedSource,
                     compressImage (browser env) (data sourceImage) (mimeType sourceImage)
                     = Return processedSource)
              /\ match referenceImage with
                 | Some reference =>
                     exists processedRef,
                       compressImage (browser env) (data reference) (mimeType reference)
                       = Return processedRef
                 | None => True
                 end) ->
          exists request,
            In request new
            /\ requestAspectRatio request
               = Some (AspectRatio_str (resolveTargetRatio config sourceImage))))
  /\ resolveTargetRatio config sourceImage <> SAME_AS_SOURCE
  /\ (forall sourceWidth sourceHeight,
        aspectRatio config = SAME_AS_SOURCE ->
        width sourceImage = Some sourceWidth -> height sourceImage = Some sourceHeight ->
        0 < sourceWidth -> 0 < sourceHeight ->
        resolveTargetRatio config sourceImage
        = getClosestSupportedRatio sourceWidth sourceHeight)
  /\ (aspectRatio config = SAME_AS_SOURCE ->
      Js.truthy_opt_number (width sourceImage) = false
      \/ Js.truthy_opt_number (height sourceImage) = false ->
      resolveTargetRatio config sourceImage = SQUARE
      /\ generateFutureImage env sourceImage referenceImage config w
         = generateFutureImage env sourceImage referenceImage
             (withAspectRatio config SQUARE) w).
Proof.
  split; [|split; [apply resolveTargetRatio_not_same|split]].
  - destruct (generateFutureImage_sends
                (fun request =>
                   requestAspectRatio request <> Some "SAME_AS_SOURCE"
                   /\ (isAnalysisRequest request
                       \/ requestAspectRatio request
                          = Some (AspectRatio_str (resolveTargetRatio config sourceImage))))
                env sourceImage referenceImage config w) as (new & Heq & Hall).
    + intros processed promptText. split; [discriminate|].
      left. eexists. reflexivity.
    + cbn. rewrite imagenAspectRatio_wire by apply resolveTargetRatio_not_same.
      split; [|right; reflexivity].
      intros [= H]. apply AspectRatio_str_same in H.
      exact (resolveTargetRatio_not_same _ _ H).
    + intros model ps pr g _ _. cbn. split; [|right; reflexivity].
      intros [= H]. apply AspectRatio_str_same in H.
      exact (resolveTargetRatio_not_same _ _ H).
    + exists new. split; [exact Heq|].
      split; [exact (Forall_impl _ (fun r H => proj1 H) Hall)|].
      split; [exact (Forall_impl _ (fun r H => proj2 H) Hall)|].
      intros Hkey [Himagen | (Hmodel & (ps & Hs) & Hr)].
      * assert (Hrun : generateFutureImage env sourceImage referenceImage config w
                       = generateWithImagen env config
                           (resolveTargetRatio config sourceImage) w)
          by (unfold generateFutureImage; rewrite Hkey, Himagen; reflexivity).
        rewrite Hrun in Heq.
        destruct (generateWithImagen_requests env config
                    (resolveTargetRatio config sourceImage) w) as (k & _ & Hk).
        rewrite Hk in Heq. apply app_inv_head in Heq. subst new.
        eexists. split; [left; reflexivity|].
        cbn. rewrite imagenAspectRatio_wire by apply resolveTargetRatio_not_same.
        reflexivity.
      * destruct (generateFutureImage_editing_path env sourceImage referenceImage config w
                    ps Hkey Hmodel Hs Hr)
          as (model & g & pr & w1 & before & Hrun & Hw1).
        rewrite Hrun in Heq.
        destruct (editAndInterpret_sends env
                    (editRequest model (buildParts ps pr (composeInstruction pr g config))
                       (resolveTargetRatio config sourceImage)) w1) as (k & Hk).
        rewrite Hk, Hw1, <- app_assoc in Heq. apply app_inv_head in Heq. subst new.
        eexists. split; [apply in_or_app; right; left; reflexivity|]. reflexivity.
  - intros; apply resolveTargetRatio_known; assumption.
  - intros Ha Hf. pose proof (resolveTargetRatio_unknown config sourceImage Ha Hf) as Hr.
    split; [exact Hr|].
    unfold generateFutureImage. rewrite Hr. reflexivity.
Qed.

(** C7. Every edit request that [generateFutureImage] sends has its parts in
    the fixed order: the compressed source image, then the compressed
    reference image when a reference image is given, then the instruction
    text; it has no other part.  And with the credential present, an
    editing model chosen and the images compressed, such a request is sent. *)
Theorem edit_parts_in_fixed_order (env : Env) (sourceImage : ImageAsset)
    (referenceImage : option ImageAsset) (config : GenerationConfig) (w : World) :
  exists new,
    outbound (snd (generateFutureImage env sourceImage referenceImage config w))
    = (outbound w ++ new)%list
    /\ Forall (editRequestInOrder env sourceImage referenceImage) new
    /\ (forall processedSource,
          Js.truthy_opt_string (API_KEY env) = true ->
          modelId config <> Some IMAGEN_4 ->
          compressImage (browser env) (data sourceImage) (mimeType sourceImage)
          = Return processedSource ->
          match referenceImage with
          | Some reference =>
              exists processedRef,
                compressImage (browser env) (data reference) (mimeType reference)
                = Return processedRef
          | None => True
          end ->
          exists model parts editConfig,
            In (GenAI.GenerateContent model parts (Some editConfig)) new).
Proof.
  destruct (generateFutureImage_sends (editRequestInOrder env sourceImage referenceImage)
              env sourceImage referenceImage config w) as (new & Heq & Hall).
  - intros; exact I.
  - exact I.
  - intros model ps pr g Hs Hr. cbn.
    exists ps, (composeInstruction pr g config). split; [exact Hs|].
    destruct referenceImage as [reference|].
    + destruct Hr as (processed & -> & Hc). exists processed. split; [exact Hc|reflexivity].
    + subst pr. reflexivity.
  - exists new. split; [exact Heq|]. split; [exact Hall|].
    intros ps Hkey Hmodel Hs Hr.
    destruct (generateFutureImage_editing_path env sourceImage referenceImage config w
                ps Hkey Hmodel Hs Hr)
      as (model & g & pr & w1 & before & Hrun & Hw1).
    rewrite Hrun in Heq.
    destruct (editAndInterpret_sends env
                (editRequest model (buildParts ps pr (composeInstruction pr g config))
                   (resolveTargetRatio config sourceImage)) w1) as (k & Hk).
    rewrite Hk, Hw1, <- app_assoc in Heq. apply app_inv_head in Heq. subst new.
    unfold editRequest. do 3 eexists. apply in_or_app. right. left. reflexivity.
Qed.

Lemma edit_parts_in_fixed_order_witness :
  exists new,
    outbound (snd (generateFutureImage working_env source_800x600 (Some reference_image)
                     dress_config initial))
    = new
    /\ Forall (editRequestInOrder working_env source_800x600 (Some reference_image)) new
    /\ exists model parts editConfig,
         In (GenAI.GenerateContent model parts (Some editConfig)) new.
Proof.
  destruct (edit_parts_in_fixed_order working_env source_800x600 (Some reference_image)
              dress_config initial) as (new & Heq & Hall & Hsent).
  exists new. split; [exact Heq|]. split; [exact Hall|].
  apply (Hsent {| c_data := "jpeg:SRC"; c_mimeType := "image/jpeg" |}).
  - reflexivity.
  - discriminate.
  - reflexivity.
  - exists {| c_data := "jpeg:REF"; c_mimeType := "image/jpeg" |}. reflexivity.
Defined.

Lemma SAME_AS_SOURCE_never_sent_witness :
  (exists request,
      In request
        (outbound (snd (generateFutureImage working_env source_800x600 None
                          sunglasses_config initial)))
      /\ requestAspectRatio request = Some "4:3")
  /\ resolveTargetRatio sunglasses_config source_800x600 = getClosestSupportedRatio 800 600
  /\ resolveTargetRatio sunglasses_config source_unmeasured = SQUARE.
Proof.
  split; [|split].
  - destruct (SAME_AS_SOURCE_never_sent working_env source_800x600 None
                sunglasses_config initial) as ((new & Heq & _ & _ & Hsent) & _).
    destruct Hsent as (request & Hin & Hratio).
    + reflexivity.
    + right. split; [discriminate|]. split; [|exact I].
      exists {| c_data := "jpeg:SRC"; c_mimeType := "image/jpeg" |}. reflexivity.
    + exists request. split; [|exact Hratio].
      rewrite Heq. exact Hin.
  - destruct (SAME_AS_SOURCE_never_sent working_env source_800x600 None
                sunglasses_config initial) as (_ & _ & Hknown & _).
    apply Hknown; reflexivity.
  - destruct (SAME_AS_SOURCE_never_sent working_env source_unmeasured None
                sunglasses_config initial) as (_ & _ & _ & Hunknown).
    apply Hunknown; [reflexivity | left; reflexivity].
Defined.

(** Scenario A of the specification: an 800 by 600 source, no reference, the
    fast editor.  One edit request with two parts, image then text, made
    with 4:3; the inline image of the first candidate is returned. *)
Example scenario_A :
  exists instruction,
    generateFutureImage working_env source_800x600 None sunglasses_config initial
    = (Return (Some "RESULT"),
       {| outbound :=
            [ editRequest GEMINI_2_5
                [ GenAI.InlineData "jpeg:SRC" "image/jpeg"; GenAI.Text instruction ]
                LANDSCAPE ];
          effects := [Invoked] |}).
Proof. eexists. vm_compute. reflexivity. Qed.

(** Scenario B: Dress mode with a reference and an empty prompt.  One
    analysis request with the dress question, then one edit request with
    three parts: source, reference, text. *)
Example scenario_B :
  exists instruction,
    generateFutureImage working_env source_800x600 (Some reference_image)
      dress_config initial
    = (Return (Some "RESULT"),
       {| outbound :=
            [ extractionRequest {| c_data := "jpeg:REF"; c_mimeType := "image/jpeg" |}
                (extractionPrompt DRESS None);
              editRequest GEMINI_2_5
                [ GenAI.InlineData "jpeg:SRC" "image/jpeg";
                  GenAI.InlineData "jpeg:REF" "image/jpeg";
                  GenAI.Text instruction ]
                LANDSCAPE ];
          effects := [Invoked; Invoked] |}).
Proof. eexists. vm_compute. reflexivity. Qed.

(** Scenario C: the text-to-image model, [SAME_AS_SOURCE], no source
    dimensions.  One [generateImages] request made with 1:1. *)
Example scenario_C :
  generateFutureImage working_env source_unmeasured None
    {| prompt := "a lighthouse at dusk";
       aspectRatio := SAME_AS_SOURCE;
       referenceMode := None;
       customReferencePrompt := None;
       modelId := Some IMAGEN_4 |}
    initial
  = (Return (Some "IMAGEN"),
     {| outbound :=
          [ GenAI.GenerateImages "imagen-4.0-generate-001" "a lighthouse at dusk"
              {| GenAI.numberOfImages := 1;
                 GenAI.imagesAspectRatio := "1:1";
                 GenAI.outputMimeType := "image/jpeg" |} ];
        effects := [Invoked] |}).
Proof. vm_compute. reflexivity. Qed.

(* ===================================================================== *)
(** * Properties of the feature extractor *)
(* ===================================================================== *)

(** With the credential present and the image compressed, the extractor is
    its guarded block: the outcome of the retried analysis call decides. *)
Lemma extractFeatureDescription_guarded (env : Env) (image : ImageAsset)
    (mode : ReferenceMode) (customPrompt : option string) (w : World)
    (processed : Compressed) :
  Js.truthy_opt_string (API_KEY env) = true ->
  compressImage (browser env) (data image) (mimeType image) = Return processed ->
  extractFeatureDescription env image mode customPrompt w
  = match retryOperation
            (send (GenAI.generateContent (remote env))
                  (extractionRequest processed (extractionPrompt mode customPrompt)))
            3 2000 (outbound w) (effects w) with
    | (Return response, sent, log) =>
        (Return (Js.or_string (GenAI.text response) EmptyString),
         {| outbound := sent; effects := log |})
    | (Throw error, sent, log) =>
        (Return EmptyString,
         {| outbound := sent;
            effects := (log ++ [ConsoleError "Feature Extraction Error:" error])%list |})
    end.
Proof.
  intros Hkey Hc. unfold extractFeatureDescription. rewrite Hkey. cbn [negb].
  unfold bind at 1. unfold await at 1. rewrite Hc.
  unfold try_catch, bind, await_retry.
  destruct (retryOperation _ _ _ _ _) as [[[response|error] sent] log]; reflexivity.
Qed.

(** With the credential present and the image compressed, the extractor
    sends its one request, between one and three times. *)
Lemma extractFeatureDescription_sends (env : Env) (image : ImageAsset)
    (mode : ReferenceMode) (customPrompt : option string) (w : World)
    (processed : Compressed) :
  Js.truthy_opt_string (API_KEY env) = true ->
  compressImage (browser env) (data image) (mimeType image) = Return processed ->
  exists k,
    (k <= 2)%nat
    /\ outbound (snd (extractFeatureDescription env image mode customPrompt w))
       = (outbound w
          ++ repeat (extractionRequest processed (extractionPrompt mode customPrompt))
               (S k))%list.
Proof.
  intros Hkey Hc.
  rewrite (extractFeatureDescription_guarded env image mode customPrompt w processed
             Hkey Hc).
  unfold retryOperation.
  destruct (retry_loop_send_count (GenAI.generateContent (remote env))
              (extractionRequest processed (extractionPrompt mode customPrompt))
              3 2000 2 0 ThrownUndefined (outbound w) (effects w)) as (k & Hle & Hk).
  destruct (retry_loop _ _ _ _ _ _ _ _) as [[c sent] log]. cbn [fst snd] in Hk.
  exists k. split; [exact Hle|]. destruct c; cbn [snd outbound]; exact Hk.
Qed.

(** C1, as the code has it.  A missing credential propagates; so does a
    failure of the image compression, which runs before the guarded block.
    With the credential present and the image compressed,
    [extractFeatureDescription] never propagates an error.  It sends the
    analysis request, between one and three times, under the retry policy:
    when the retried call ends with a response, the text of that response is
    returned, or the empty string when the response has no text; when the
    retried call ends with an error, the error is logged and the empty
    string is returned. *)
Theorem extractFeatureDescription_absorbs_remote_failure (env : Env)
    (image : ImageAsset) (mode : ReferenceMode) (customPrompt : option string)
    (w : World) :
  (Js.truthy_opt_string (API_KEY env) = false ->
   extractFeatureDescription env image mode customPrompt w
   = (Throw (ThrownError API_KEY_missing), w))
  /\ (forall e,
        Js.truthy_opt_string (API_KEY env) = true ->
        compressImage (browser env) (data image) (mimeType image) = Throw e ->
        extractFeatureDescription env image mode customPrompt w = (Throw e, w))
  /\ (forall processed,
        Js.truthy_opt_string (API_KEY env) = true ->
        compressImage (browser env) (data image) (mimeType image) = Return processed ->
        let request :=
          GenAI.GenerateContent "gemini-2.5-flash"
            [ GenAI.InlineData (c_data processed) (c_mimeType processed);
              GenAI.Text (extractionPrompt mode customPrompt) ]
            None in
        let attempts :=
          retryOperation (send (GenAI.generateContent (remote env)) request)
            3 2000 (outbound w) (effects w) in
        (exists description w',
            extractFeatureDescription env image mode customPrompt w
            = (Return description, w'))
        /\ (exists k,
              (k <= 2)%nat
              /\ outbound (snd (extractFeatureDescription env image mode customPrompt w))
                 = (outbound w ++ repeat request (S k))%list)
        /\ (forall response,
              fst (fst attempts) = Return response ->
              extractFeatureDescription env image mode customPrompt w
              = (Return match GenAI.text response with
                        | Some text => text
                        | None => EmptyString
                        end,
                 {| outbound := snd (fst attempts); effects := snd attempts |}))
        /\ (forall error,
              fst (fst attempts) = Throw error ->
              extractFeatureDescription env image mode customPrompt w
              = (Return EmptyString,
                 {| outbound := snd (fst attempts);
                    effects :=
                      (snd attempts
                       ++ [ConsoleError "Feature Extraction Error:" error])%list |}))
        /\ (forall response,
              GenAI.generateContent (remote env) (outbound w) request = Return response ->
              fst (extractFeatureDescription env image mode customPrompt w)
              = Return match GenAI.text response with
                       | Some text => text
                       | None => EmptyString
                       end)).
Proof.
  split; [|split].
  - intro Hkey. unfold extractFeatureDescription. rewrite Hkey. reflexivity.
  - intros e Hkey Hc. unfold extractFeatureDescription. rewrite Hkey. cbn [negb].
    unfold bind, await. rewrite Hc. reflexivity.
  - intros processed Hkey Hc request attempts. subst request attempts.
    assert (Htext : forall response,
               Js.or_string (GenAI.text response) EmptyString
               = match GenAI.text response with
                 | Some text => text
                 | None => EmptyString
                 end).
    { intro response. destruct (GenAI.text response) as [[|c t]|]; reflexivity. }
    pose proof (extractFeatureDescription_sends env image mode customPrompt w processed
                  Hkey Hc) as Hsends.
    rewrite (extractFeatureDescription_guarded env image mode customPrompt w processed
               Hkey Hc) in *.
    unfold extractionRequest in *.
    split; [|split; [exact Hsends|split; [|split]]].
    + destruct (retryOperation _ _ _ _ _) as [[[response|error] sent] log]; eauto.
    + intros response Hres.
      destruct (retryOperation _ _ _ _ _) as [[c sent] log]. cbn [fst snd] in *.
      subst c. rewrite Htext. reflexivity.
    + intros error Hres.
      destruct (retryOperation _ _ _ _ _) as [[c sent] log]. cbn [fst snd] in *.
      subst c. reflexivity.
    + intros response Hres.
      unfold retryOperation. cbn [retry_loop]. unfold send at 1.
      rewrite Hres. cbn [fst]. f_equal. apply Htext.
Qed.

(** C1, as stated, fails: with the credential present, an image that does
    not decode makes [extractFeatureDescription] throw the compression error
    instead of returning the empty string. *)
Lemma extractFeatureDescription_compression_failure_propagates :
  Js.truthy_opt_string (API_KEY undecodable_env) = true
  /\ compressImage (browser undecodable_env) (data reference_image)
       (mimeType reference_image)
     = Throw (ThrownError (new_Error "Failed to process image"))
  /\ extractFeatureDescription undecodable_env reference_image POSE None initial
     = (Throw (ThrownError (new_Error "Failed to process image")), initial)
  /\ fst (extractFeatureDescription undecodable_env reference_image POSE None initial)
     <> Return EmptyString.
Proof.
  split; [reflexivity|]. split; [reflexivity|]. split; [reflexivity|]. discriminate.
Qed.

Lemma extractFeatureDescription_absorbs_remote_failure_witness :
  fst (extractFeatureDescription busy_env reference_image DRESS None initial)
  = Return EmptyString
  /\ fst (extractFeatureDescription working_env reference_image DRESS None initial)
     = Return "a long red coat".
Proof.
  split.
  - destruct (extractFeatureDescription_absorbs_remote_failure
                busy_env reference_image DRESS None initial) as (_ & _ & H).
    destruct (H {| c_data := "jpeg:REF"; c_mimeType := "image/jpeg" |})
      as (_ & _ & _ & Hfail & _).
    + reflexivity.
    + reflexivity.
    + rewrite (Hfail (ThrownError rate_limit_error)); reflexivity.
  - destruct (extractFeatureDescription_absorbs_remote_failure
                working_env reference_image DRESS None initial) as (_ & _ & H).
    destruct (H {| c_data := "jpeg:REF"; c_mimeType := "image/jpeg" |})
      as (_ & _ & _ & _ & Hanswer).
    + reflexivity.
    + reflexivity.
    + apply (Hanswer {| GenAI.candidates := None; GenAI.text := Some "a long red coat" |}).
      reflexivity.
Defined.

(* ===================================================================== *)
(** * Properties of the orchestrator: reading the response *)
(* ===================================================================== *)

(** An edit call answered at once ends as the reading of its response. *)
Lemma editAndInterpret_answered (env : Env) (request : GenAI.Request) (w : World)
    (response : GenAI.GenerateContentResponse) :
  GenAI.generateContent (remote env) (outbound w) request = Return response ->
  fst (editAndInterpret env request w) = surfaced (interpretResponse response).
Proof.
  intro Hr. unfold editAndInterpret, try_catch, bind, await_retry, retryOperation.
  cbn [retry_loop]. unfold send at 1. rewrite Hr. unfold await.
  destruct (interpretResponse response) as [d|[|e]]; reflexivity.
Qed.

(** On the editing path, once the images compress and the service answers
    the edit call, the call ends as the reading of the response. *)
Lemma generateFutureImage_reads_response (env : Env) (sourceImage : ImageAsset)
    (referenceImage : option ImageAsset) (config : GenerationConfig) (w : World)
    (processedSource : Compressed) (response : GenAI.GenerateContentResponse) :
  Js.truthy_opt_string (API_KEY env) = true ->
  modelId config <> Some IMAGEN_4 ->
  compressImage (browser env) (data sourceImage) (mimeType sourceImage)
  = Return processedSource ->
  match referenceImage with
  | Some reference =>
      exists processedRef,
        compressImage (browser env) (data reference) (mimeType reference)
        = Return processedRef
  | None => True
  end ->
  (forall sent model parts config,
      GenAI.generateContent (remote env) sent (GenAI.GenerateContent model parts (Some config))
      = Return response) ->
  fst (generateFutureImage env sourceImage referenceImage config w)
  = surfaced (interpretResponse response).
Proof.
  intros Hkey Hmodel Hs Hr Hremote.
  destruct (generateFutureImage_editing_path env sourceImage referenceImage config w
              processedSource Hkey Hmodel Hs Hr)
    as (model & g & pr & w1 & before & Hrun & _).
  rewrite Hrun. apply editAndInterpret_answered. apply Hremote.
Qed.

Lemma firstInlineData_text_only (parts : list GenAI.Part) :
  (forall part, In part parts -> exists text, part = GenAI.Text text) ->
  firstInlineData parts = None.
Proof.
  induction parts as [|part parts IH]; intro H; [reflexivity|].
  destruct (H part (or_introl eq_refl)) as (t & ->). cbn.
  apply IH. intros p Hp. apply H. right. exact Hp.
Qed.

(** C8. On the editing path, once the images compress and the service
    answers the edit call with a response:
    - with no candidate, the call fails with "No response from AI model.";
    - with a first candidate whose finish reason is present and is not
      STOP, the call fails: for RECITATION, IMAGE_RECITATION and SAFETY the
      message names the reason and ends with "Try a different reference.",
      for any other reason it is "Generation blocked by filter: " followed
      by the reason;
    - with a first candidate whose finish reason is absent or STOP and whose
      parts are all text, the call fails with the text-instead-of-image
      message. *)
Theorem generateFutureImage_classifies_response (env : Env) (sourceImage : ImageAsset)
    (referenceImage : option ImageAsset) (config : GenerationConfig) (w : World)
    (processedSource : Compressed) (response : GenAI.GenerateContentResponse) :
  Js.truthy_opt_string (API_KEY env) = true ->
  modelId config <> Some IMAGEN_4 ->
  compressImage (browser env) (data sourceImage) (mimeType sourceImage)
  = Return processedSource ->
  match referenceImage with
  | Some reference =>
      exists processedRef,
        compressImage (browser env) (data reference) (mimeType reference)
        = Return processedRef
  | None => True
  end ->
  (forall sent model parts config,
      GenAI.generateContent (remote env) sent (GenAI.GenerateContent model parts (Some config))
      = Return response) ->
  let outcome := fst (generateFutureImage env sourceImage referenceImage config w) in
  (GenAI.candidates response = None \/ GenAI.candidates response = Some [] ->
   outcome = Throw (ThrownError (new_Error "No response from AI model.")))
  /\ (forall candidate others reason,
        GenAI.candidates response = Some (candidate :: others) ->
        GenAI.finishReason candidate = Some reason ->
        reason <> EmptyString -> reason <> "STOP" ->
        (reason = "RECITATION" \/ reason = "IMAGE_RECITATION" \/ reason = "SAFETY" ->
         outcome
         = Throw (ThrownError (new_Error
             ("Generation blocked: The request was flagged for " ++ reason
              ++ " (likely too close to a protected image or person). Try a different reference."))))
        /\ (reason <> "RECITATION" -> reason <> "IMAGE_RECITATION" -> reason <> "SAFETY" ->
            outcome
            = Throw (ThrownError (new_Error ("Generation blocked by filter: " ++ reason)))))
  /\ (forall candidate others parts,
        GenAI.candidates response = Some (candidate :: others) ->
        GenAI.finishReason candidate = None
        \/ GenAI.finishReason candidate = Some EmptyString
        \/ GenAI.finishReason candidate = Some "STOP" ->
        GenAI.content candidate = Some parts ->
        (forall part, In part parts -> exists text, part = GenAI.Text text) ->
        outcome
        = Throw (ThrownError (new_Error
            "The model generated a text response instead of an image. Please try adjusting your prompt."))).
Proof.
  intros Hkey Hmodel Hs Hr Hremote outcome.
  assert (Hout : outcome = surfaced (interpretResponse response))
    by (apply (generateFutureImage_reads_response env sourceImage referenceImage config w
                 processedSource response); assumption).
  rewrite Hout. clear Hout outcome. unfold interpretResponse.
  split; [|split].
  - intros [Hc|Hc]; rewrite Hc; reflexivity.
  - intros candidate others reason Hc Hf Hne Hstop. rewrite Hc.
    unfold finishReasonError. rewrite Hf.
    assert (Ht : Js.truthy_string reason = true) by (destruct reason; [congruence|reflexivity]).
    apply String.eqb_neq in Hstop. rewrite Ht, Hstop. cbn [andb negb]. split.
    + intros [-> | [-> | ->]]; reflexivity.
    + intros H1 H2 H3. apply String.eqb_neq in H1, H2, H3. rewrite H1, H2, H3.
      reflexivity.
  - intros candidate others parts Hc Hf Hp Htext. rewrite Hc.
    assert (Hn : finishReasonError candidate = None)
      by (unfold finishReasonError; destruct Hf as [-> | [-> | ->]]; reflexivity).
    rewrite Hn, Hp, (firstInlineData_text_only parts Htext). reflexivity.
Qed.

Lemma generateFutureImage_classifies_response_witness :
  fst (generateFutureImage blocked_env source_800x600 (Some reference_image)
         dress_config initial)
  = Throw (ThrownError (new_Error
      "Generation blocked: The request was flagged for SAFETY (likely too close to a protected image or person). Try a different reference.")).
Proof.
  destruct (generateFutureImage_classifies_response
              blocked_env source_800x600 (Some reference_image) dress_config initial
              {| c_data := "jpeg:SRC"; c_mimeType := "image/jpeg" |}
              {| GenAI.candidates := Some [blocked_candidate]; GenAI.text := None |})
    as (_ & H & _).
  - reflexivity.
  - discriminate.
  - reflexivity.
  - exists {| c_data := "jpeg:REF"; c_mimeType := "image/jpeg" |}. reflexivity.
  - reflexivity.
  - destruct (H blocked_candidate [] "SAFETY") as (Hblocked & _).
    + reflexivity.
    + reflexivity.
    + discriminate.
    + discriminate.
    + apply Hblocked. right. right. reflexivity.
Defined.

(* ===================================================================== *)
(** * Properties of the prompt composer *)
(* ===================================================================== *)

Lemma append_assoc (a b c : string) : (a ++ b) ++ c = a ++ (b ++ c).
Proof. induction a as [|x a IH]; cbn; [reflexivity | rewrite IH; reflexivity]. Qed.

Lemma or_string_nonempty (o : option string) (dflt : string) :
  dflt <> EmptyString -> Js.or_string o dflt <> EmptyString.
Proof. intro H. destruct o as [[|c s]|]; cbn; try exact H. discriminate. Qed.

(** With the reference compressed, the guidance step sends the analysis
    request, at least once. *)
Lemma extractGuidance_sends (env : Env) (reference : ImageAsset)
    (config : GenerationConfig) (mode : ReferenceMode) (w : World)
    (processed : Compressed) :
  Js.truthy_opt_string (API_KEY env) = true ->
  referenceMode config = Some mode ->
  compressImage (browser env) (data reference) (mimeType reference) = Return processed ->
  exists k,
    outbound (snd (extractGuidance env (Some reference) config w))
    = (outbound w
       ++ repeat (extractionRequest processed
                    (extractionPrompt mode (customReferencePrompt config)))
            (S k))%list.
Proof.
  intros Hkey Hmode Hc.
  destruct (extractFeatureDescription_sends env reference mode
              (customReferencePrompt config) w processed Hkey Hc) as (k & _ & Hk).
  exists k. unfold extractGuidance. rewrite Hmode. unfold try_catch, bind.
  destruct (extractFeatureDescription env reference mode (customReferencePrompt config) w)
    as [[desc|e] w1]; exact Hk.
Qed.

(** With the credential present, an editing model chosen and the images
    compressed, a run is its guidance step followed by its edit step. *)
Lemma generateFutureImage_editing_run (env : Env) (sourceImage : ImageAsset)
    (referenceImage : option ImageAsset) (config : GenerationConfig) (w : World)
    (processedSource : Compressed) (processedRef : option Compressed) :
  Js.truthy_opt_string (API_KEY env) = true ->
  modelId config <> Some IMAGEN_4 ->
  compressImage (browser env) (data sourceImage) (mimeType sourceImage)
  = Return processedSource ->
  match referenceImage with
  | Some reference =>
      exists processed,
        processedRef = Some processed
        /\ compressImage (browser env) (data reference) (mimeType reference)
           = Return processed
  | None => processedRef = None
  end ->
  exists guidance w1,
    extractGuidance env referenceImage config w = (Return guidance, w1)
    /\ generateFutureImage env sourceImage referenceImage config w
       = editAndInterpret env
           (editRequest (chosenModel config)
              (buildParts processedSource processedRef
                 (composeInstruction processedRef guidance config))
              (resolveTargetRatio config sourceImage))
           w1.
Proof.
  intros Hkey Hmodel Hs Hr.
  destruct (extractGuidance_returns env referenceImage config w) as (g & w1 & Hg).
  exists g, w1. split; [exact Hg|].
  assert (Hc : compressBoth env sourceImage referenceImage w1
               = (Return (processedSource, processedRef), w1)).
  { unfold compressBoth, bind, await. rewrite Hs.
    destruct referenceImage as [reference|].
    - destruct Hr as (pr & -> & Hr). rewrite Hr. reflexivity.
    - subst processedRef. reflexivity. }
  unfold generateFutureImage, chosenModel. rewrite Hkey. cbn [negb].
  assert (Hedit : forall model,
    (guidanceDescription <- extractGuidance env referenceImage config ;;
     processed <- compressBoth env sourceImage referenceImage ;;
     let '(processedSource, processedRef) := processed in
     editAndInterpret env
       (editRequest model
          (buildParts processedSource processedRef
             (composeInstruction processedRef guidanceDescription config))
          (resolveTargetRatio config sourceImage))) w
    = editAndInterpret env
        (editRequest model
           (buildParts processedSource processedRef
              (composeInstruction processedRef g config))
           (resolveTargetRatio config sourceImage)) w1).
  { intro model. unfold bind at 1. rewrite Hg. unfold bind at 1. rewrite Hc. reflexivity. }
  destruct (modelId config) as [[| |]|]; try apply Hedit. congruence.
Qed.

(** In Custom reference mode every request of a run is built around the
    feature of line 295 and the question of lines 120-122. *)
Lemma generateFutureImage_custom_requests (env : Env) (sourceImage : ImageAsset)
    (referenceImage : option ImageAsset) (config : GenerationConfig) (w : World) :
  referenceMode config = Some CUSTOM ->
  sends_only
    (customRequest config (customFeature config)
       (extractionPrompt CUSTOM (customReferencePrompt config)))
    (generateFutureImage env sourceImage referenceImage config) w.
Proof.
  intro Hmode. apply generateFutureImage_asks.
  - intros reference mode processed _ Hm _. rewrite Hmode in Hm. injection Hm as <-.
    cbn. eexists. reflexivity.
  - reflexivity.
  - intros model ps pr g _ Hr. unfold editRequest, customRequest, buildParts.
    destruct pr as [processed|]; cbn [app].
    + right. exists (inlinePart ps), (inlinePart processed), g.
      unfold composeInstruction. rewrite append_assoc.
      unfold modeDirective. rewrite Hmode. reflexivity.
    + left. exists (inlinePart ps). reflexivity.
Qed.

(** C9. In Custom reference mode no request carries an empty feature.  The
    feature is [customReferencePrompt] when that is a non-empty string and
    the fallback "feature" when it is absent or empty; the question is the
    one that quotes the custom prompt when that is a non-empty string and
    the generic description request when it is absent or empty.  Every
    request of a run of [generateFutureImage] is built around them: the
    analysis call asks that question, and an edit call made with a reference
    names that feature in its directive; with the credential present, an
    editing model, a reference and the images compressed, both requests are
    sent.  The requests of [extractFeatureDescription] ask that question. *)
Theorem custom_feature_never_empty (env : Env) (sourceImage : ImageAsset)
    (referenceImage : option ImageAsset) (config : GenerationConfig) (w : World) :
  referenceMode config = Some CUSTOM ->
  exists feature question,
    feature <> EmptyString
    /\ question <> EmptyString
    /\ (Js.truthy_opt_string (customReferencePrompt config) = false ->
        feature = "feature"
        /\ question = "Describe the key distinctive visual attributes of this image.")
    /\ (forall custom,
          customReferencePrompt config = Some custom -> custom <> EmptyString ->
          feature = custom
          /\ question
             = "Analyze the image and provide a detailed description of the following feature: "
               ++ Js.DQ ++ custom ++ Js.DQ
               ++ ". Describe it specifically so it can be visually replicated.")
    /\ (exists new,
          outbound (snd (generateFutureImage env sourceImage referenceImage config w))
          = (outbound w ++ new)%list
          /\ Forall (customRequest config feature question) new
          /\ (forall reference processedSource processedRef,
                Js.truthy_opt_string (API_KEY env) = true ->
                modelId config <> Some IMAGEN_4 ->
                referenceImage = Some reference ->
                compressImage (browser env) (data sourceImage) (mimeType sourceImage)
                = Return processedSource ->
                compressImage (browser env) (data reference) (mimeType reference)
                = Return processedRef ->
                (exists image,
                    In (GenAI.GenerateContent "gemini-2.5-flash"
                          [image; GenAI.Text question] None) new)
                /\ (exists model source image guidance editConfig,
                       In (GenAI.GenerateContent model
                             [ source; image;
                               GenAI.Text
                                 (dualImagePreamble guidance
                                  ++ (Js.LF ++ "MODE: CUSTOM TRANSFER (" ++ feature ++ ")"
                                      ++ Js.LF
                                      ++ "1. Transfer the " ++ feature
                                      ++ " from the Reference Image to the Source Character."
                                      ++ Js.LF
                                      ++ "2. Blend the " ++ feature
                                      ++ " naturally with the Source Character while preserving their identity."
                                      ++ Js.LF)
                                  ++ userInstructions config) ]
                             (Some editConfig)) new)))
    /\ (forall image processed w0,
          Js.truthy_opt_string (API_KEY env) = true ->
          compressImage (browser env) (data image) (mimeType image) = Return processed ->
          exists k,
            (k <= 2)%nat
            /\ outbound (snd (extractFeatureDescription env image CUSTOM
                                (customReferencePrompt config) w0))
               = (outbound w0
                  ++ repeat
                       (GenAI.GenerateContent "gemini-2.5-flash"
                          [ GenAI.InlineData (c_data processed) (c_mimeType processed);
                            GenAI.Text question ]
                          None)
                       (S k))%list).
Proof.
  intro Hmode.
  exists (customFeature config), (extractionPrompt CUSTOM (customReferencePrompt config)).
  split; [|split; [|split; [|split; [|split]]]].
  - apply or_string_nonempty. discriminate.
  - destruct (customReferencePrompt config) as [[|c s]|]; discriminate.
  - unfold customFeature.
    destruct (customReferencePrompt config) as [[|c s]|]; try (split; reflexivity).
    discriminate.
  - unfold customFeature. intros custom -> Hne.
    destruct custom; [congruence|split; reflexivity].
  - destruct (generateFutureImage_custom_requests env sourceImage referenceImage config w
                Hmode) as (new & Heq & Hall).
    exists new. split; [exact Heq|]. split; [exact Hall|].
    intros reference ps pr Hkey Hmodel -> Hs Hr.
    destruct (generateFutureImage_editing_run env sourceImage (Some reference) config w
                ps (Some pr) Hkey Hmodel Hs)
      as (g & w1 & Hg & Hrun); [exists pr; split; [reflexivity|exact Hr]|].
    destruct (extractGuidance_sends env reference config CUSTOM w pr Hkey Hmode Hr)
      as (k & Hk).
    rewrite Hg in Hk. cbn [snd] in Hk.
    rewrite Hrun in Heq.
    destruct (editAndInterpret_sends env
                (editRequest (chosenModel config)
                   (buildParts ps (Some pr) (composeInstruction (Some pr) g config))
                   (resolveTargetRatio config sourceImage)) w1) as (k' & Hk').
    rewrite Hk', Hk, <- app_assoc in Heq. apply app_inv_head in Heq. subst new.
    split.
    + eexists. apply in_or_app. left. left. reflexivity.
    + exists (ModelId_str (chosenModel config)), (inlinePart ps), (inlinePart pr), g.
      eexists. apply in_or_app. right. left.
      unfold editRequest, buildParts, composeInstruction. cbn [app].
      rewrite append_assoc. unfold modeDirective. rewrite Hmode. reflexivity.
  - intros image processed w0 Hkey Hc.
    exact (extractFeatureDescription_sends env image CUSTOM (customReferencePrompt config)
             w0 processed Hkey Hc).
Qed.

Lemma custom_feature_never_empty_witness :
  exists model source image guidance editConfig,
    In (GenAI.GenerateContent model
          [ source; image;
            GenAI.Text
              (dualImagePreamble guidance
               ++ (Js.LF ++ "MODE: CUSTOM TRANSFER (feature)" ++ Js.LF
                   ++ "1. Transfer the feature from the Reference Image to the Source Character."
                   ++ Js.LF
                   ++ "2. Blend the feature naturally with the Source Character while preserving their identity."
                   ++ Js.LF)
               ++ userInstructions (custom_config None)) ]
          (Some editConfig))
       (outbound (snd (generateFutureImage working_env source_800x600
                         (Some reference_image) (custom_config None) initial))).
Proof.
  destruct (custom_feature_never_empty working_env source_800x600 (Some reference_image)
              (custom_config None) initial eq_refl)
    as (feature & question & _ & _ & Hfallback & _ & (new & Heq & _ & Hsent) & _).
  destruct (Hfallback eq_refl) as (-> & _).
  destruct (Hsent reference_image
              {| c_data := "jpeg:SRC"; c_mimeType := "image/jpeg" |}
              {| c_data := "jpeg:REF"; c_mimeType := "image/jpeg" |})
    as (_ & model & source & image & guidance & editConfig & Hin).
  - reflexivity.
  - discriminate.
  - reflexivity.
  - reflexivity.
  - reflexivity.
  - exists model, source, image, guidance, editConfig.
    rewrite Heq. exact Hin.
Defined.

(** A whitespace-only custom prompt is truthy: it is used as it is. *)
Example custom_feature_blank :
  customFeature (custom_config (Some "  ")) = "  ".
Proof. reflexivity. Qed.

(** With the service over quota, the extraction gives up after three
    attempts and returns the empty string. *)
Example extraction_over_quota :
  fst (extractFeatureDescription busy_env reference_image POSE None initial)
  = Return EmptyString
  /\ sleeps (effects (snd (extractFeatureDescription busy_env reference_image POSE None
                             initial)))
     = [2000; 4000]%Z.
Proof. split; reflexivity. Qed.

(** Scenario D: the edit call answers with finish reason SAFETY. *)
Example scenario_D :
  fst (generateFutureImage blocked_env source_800x600 None sunglasses_config initial)
  = Throw (ThrownError (new_Error (blockedMessage "SAFETY"))).
Proof. reflexivity. Qed.

(* ===================================================================== *)
(** * Further properties of the aspect-ratio resolver *)
(* ===================================================================== *)

Lemma Qabs_sub_cases (c r : Q) :
  (r <= c /\ Qabs (c - r) == c - r) \/ (c <= r /\ Qabs (c - r) == r - c).
Proof.
  destruct (Qlt_le_dec c r) as [H|H].
  - right. split; [lra|]. rewrite Qabs_neg by lra. lra.
  - left. split; [exact H|]. apply Qabs_pos. lra.
Qed.

Ltac ltb_cases :=
  repeat match goal with
         | |- context [Js.ltb (Qabs (?a - ?r)) (Qabs (?b - ?r))] =>
             lazymatch b with
             | val _ => fail
             | _ => idtac
             end;
             let E := fresh "E" in
             destruct (Js.ltb (Qabs (a - r)) (Qabs (b - r))) eqn:E;
             [apply ltb_lt in E | apply ltb_ge in E]; cbn [val str]
         end.

Ltac abs_cases r :=
  destruct (Qabs_sub_cases 1 r) as [[? ?]|[? ?]];
  destruct (Qabs_sub_cases (75 # 100) r) as [[? ?]|[? ?]];
  destruct (Qabs_sub_cases (133 # 100) r) as [[? ?]|[? ?]];
  destruct (Qabs_sub_cases (5625 # 10000) r) as [[? ?]|[? ?]];
  destruct (Qabs_sub_cases (177 # 100) r) as [[? ?]|[? ?]].

Lemma closest_of_ratio (r : Q) :
  let chosen := str (Js.reduce (closer r) supported_first supported_rest) in
  (r < 21 # 32 -> chosen = WIDE_PORTRAIT)
  /\ (21 # 32 <= r -> r < 7 # 8 -> chosen = PORTRAIT)
  /\ (7 # 8 <= r -> r <= 233 # 200 -> chosen = SQUARE)
  /\ (233 # 200 < r -> r <= 31 # 20 -> chosen = LANDSCAPE)
  /\ (31 # 20 < r -> chosen = WIDE_LANDSCAPE).
Proof.
  cbv zeta. unfold Js.reduce, supported_rest, supported_first. cbn [fold_left].
  unfold closer. cbn [val str].
  repeat split; intros; ltb_cases; try reflexivity; exfalso; abs_cases r; lra.
Qed.

(** X1. For positive [width] and [height] (where the exact division is the
    JavaScript one), the ratio chosen depends on [width / height] through
    four cut points, each going to the entry that comes first in the table:
    below 21/32 it is 9:16, from 21/32 to below 7/8 it is 3:4, from 7/8 to
    233/200 it is 1:1, above 233/200 and up to 31/20 it is 4:3, above 31/20
    it is 16:9. *)
Theorem getClosestSupportedRatio_thresholds (width height : Q) :
  0 < width -> 0 < height ->
  (width / height < 21 # 32 ->
   getClosestSupportedRatio width height = WIDE_PORTRAIT)
  /\ (21 # 32 <= width / height -> width / height < 7 # 8 ->
      getClosestSupportedRatio width height = PORTRAIT)
  /\ (7 # 8 <= width / height -> width / height <= 233 # 200 ->
      getClosestSupportedRatio width height = SQUARE)
  /\ (233 # 200 < width / height -> width / height <= 31 # 20 ->
      getClosestSupportedRatio width height = LANDSCAPE)
  /\ (31 # 20 < width / height ->
      getClosestSupportedRatio width height = WIDE_LANDSCAPE).
Proof.
  intros _ _. exact (closest_of_ratio (width / height)).
Qed.

Lemma getClosestSupportedRatio_thresholds_witness :
  getClosestSupportedRatio 1920 1080 = WIDE_LANDSCAPE
  /\ getClosestSupportedRatio 1080 1920 = WIDE_PORTRAIT.
Proof.
  split.
  - apply (getClosestSupportedRatio_thresholds 1920 1080); reflexivity.
  - apply (getClosestSupportedRatio_thresholds 1080 1920); reflexivity.
Defined.

(* ===================================================================== *)
(** * Further properties of the image pre-processor *)
(* ===================================================================== *)

(** X2. For an image of positive size, the canvas size computed for the
    canvas size is that canvas size: compressing what was compressed changes
    no dimension. *)
Theorem canvasSize_idempotent (width height : Z) :
  (0 < width)%Z -> (0 < height)%Z ->
  canvasSize (fst (canvasSize width height)) (snd (canvasSize width height))
  = canvasSize width height.
Proof.
  intros Hw Hh.
  destruct (canvasSize_bounds width height Hw Hh) as (w & h & Heq & Hmax & _).
  rewrite Heq. cbn [fst snd].
  apply canvasSize_small; unfold MAX_SIZE in *; lia.
Qed.

Lemma canvasSize_idempotent_witness :
  canvasSize (fst (canvasSize 4000 3000)) (snd (canvasSize 4000 3000)) = (1024, 768)%Z.
Proof.
  rewrite (canvasSize_idempotent 4000 3000); reflexivity.
Defined.

Lemma Math_round_scaled_le (s l : Z) :
  (0 <= s)%Z -> (MAX_SIZE <= l)%Z ->
  (Js.Math_round (inject_Z (s * MAX_SIZE) / inject_Z l) <= s)%Z.
Proof.
  intros Hs Hl. apply Math_round_le.
  assert (Hq : inject_Z 0 < inject_Z l)
    by (rewrite <- Zlt_Qlt; unfold MAX_SIZE in Hl; lia).
  change (inject_Z 0) with 0 in Hq.
  apply Qle_shift_div_r; [exact Hq|].
  rewrite <- inject_Z_mult. rewrite <- Zle_Qle. nia.
Qed.

Lemma Math_round_nonneg (x : Q) : 0 <= x -> (0 <= Js.Math_round x)%Z.
Proof.
  intro Hx. unfold Js.Math_round.
  change 0%Z with (Qfloor 0). apply Qfloor_resp_le. lra.
Qed.

Lemma scaled_nonneg (s l : Z) :
  (0 <= s)%Z -> (0 < l)%Z -> 0 <= inject_Z (s * MAX_SIZE) / inject_Z l.
Proof.
  intros Hs Hl.
  assert (Hq : inject_Z 0 < inject_Z l) by (rewrite <- Zlt_Qlt; exact Hl).
  change (inject_Z 0) with 0 in Hq.
  apply Qle_shift_div_l; [exact Hq|]. rewrite Qmult_0_l.
  change 0 with (inject_Z 0). rewrite <- Zle_Qle. unfold MAX_SIZE. lia.
Qed.

(** X3. For an image of positive size, neither dimension of the canvas
    exceeds the same dimension of the image, and neither is negative:
    [compressImage] never enlarges. *)
Theorem canvasSize_never_enlarges (width height : Z) :
  (0 < width)%Z -> (0 < height)%Z ->
  (0 <= fst (canvasSize width height) <= width)%Z
  /\ (0 <= snd (canvasSize width height) <= height)%Z.
Proof.
  intros Hw Hh. unfold canvasSize.
  destruct ((width >? MAX_SIZE) || (height >? MAX_SIZE))%Z eqn:Hbig; cbn [fst snd];
    [|lia].
  apply orb_true_iff in Hbig. rewrite !Z.gtb_lt in Hbig.
  destruct (Z.gtb_spec width height) as [Hwh|Hwh]; cbn [fst snd].
  - assert (MAX_SIZE < width)%Z by lia.
    repeat split; try (unfold MAX_SIZE in *; lia).
    + apply Math_round_nonneg, scaled_nonneg; lia.
    + apply Math_round_scaled_le; lia.
  - assert (MAX_SIZE < height)%Z by lia.
    repeat split; try (unfold MAX_SIZE in *; lia).
    + apply Math_round_nonneg, scaled_nonneg; lia.
    + apply Math_round_scaled_le; lia.
Qed.

Lemma canvasSize_never_enlarges_witness :
  (0 <= fst (canvasSize 4000 3000) <= 4000)%Z.
Proof.
  apply (canvasSize_never_enlarges 4000 3000); reflexivity.
Defined.

Lemma Math_round_zero_iff (n d : Z) :
  (0 <= n)%Z -> (0 < d)%Z ->
  (Js.Math_round (inject_Z n / inject_Z d) = 0 <-> 2 * n < d)%Z.
Proof.
  intros Hn Hd.
  assert (Hq : inject_Z 0 < inject_Z d) by (rewrite <- Zlt_Qlt; exact Hd).
  change (inject_Z 0) with 0 in Hq.
  unfold Js.Math_round.
  pose proof (Qfloor_le (inject_Z n / inject_Z d + (1 # 2))) as Hle.
  pose proof (Qlt_floor (inject_Z n / inject_Z d + (1 # 2))) as Hlt.
  assert (Hnd : inject_Z n / inject_Z d * inject_Z d == inject_Z n).
  { field. intro H0. rewrite H0 in Hq. exact (Qlt_irrefl _ Hq). }
  split.
  - intro H0. rewrite H0 in Hlt. change (inject_Z (0 + 1)) with 1 in Hlt.
    assert (Hx : inject_Z n / inject_Z d < 1 # 2) by lra.
    assert (Hm : inject_Z n < (1 # 2) * inject_Z d).
    { rewrite <- Hnd. apply Qmult_lt_compat_r; assumption. }
    assert (H2 : inject_Z (2 * n) < inject_Z d).
    { rewrite inject_Z_mult. change (inject_Z 2) with 2. lra. }
    rewrite <- Zlt_Qlt in H2. exact H2.
  - intro H2. rewrite Zlt_Qlt, inject_Z_mult in H2. change (inject_Z 2) with 2 in H2.
    assert (Hx : inject_Z n / inject_Z d < 1 # 2).
    { apply Qlt_shift_div_r; [exact Hq|]. lra. }
    assert (Hx0 : 0 <= inject_Z n / inject_Z d).
    { apply Qle_shift_div_l; [exact Hq|]. rewrite Qmult_0_l.
      change 0 with (inject_Z 0). rewrite <- Zle_Qle. exact Hn. }
    assert (Hlo : (0 <= Qfloor (inject_Z n / inject_Z d + (1 # 2)))%Z).
    { change 0%Z with (Qfloor 0). apply Qfloor_resp_le. lra. }
    assert (Hhi : (Qfloor (inject_Z n / inject_Z d + (1 # 2)) < 1)%Z).
    { rewrite Zlt_Qlt. change (inject_Z 1) with 1. lra. }
    lia.
Qed.

(** X4. The shorter side of a shrunk image vanishes exactly when the longer
    side is more than 2048 times the shorter one. *)
Theorem canvasSize_collapses (width height : Z) :
  (0 < width)%Z -> (0 < height)%Z ->
  ((1024 < width)%Z -> (height < width)%Z ->
   (snd (canvasSize width height) = 0 <-> 2048 * height < width)%Z)
  /\ ((1024 < height)%Z -> (width <= height)%Z ->
      (fst (canvasSize width height) = 0 <-> 2048 * width < height)%Z).
Proof.
  intros Hw Hh. split; intros Hbig Hwh; unfold canvasSize.
  - assert (Hor : ((width >? MAX_SIZE) || (height >? MAX_SIZE))%Z = true).
    { apply orb_true_iff. left. apply Z.gtb_lt. exact Hbig. }
    rewrite Hor. destruct (Z.gtb_spec width height); [|lia]. cbn [snd].
    rewrite Math_round_zero_iff by (unfold MAX_SIZE; lia). unfold MAX_SIZE. lia.
  - assert (Hor : ((width >? MAX_SIZE) || (height >? MAX_SIZE))%Z = true).
    { apply orb_true_iff. right. apply Z.gtb_lt. exact Hbig. }
    rewrite Hor. destruct (Z.gtb_spec width height); [lia|]. cbn [fst].
    rewrite Math_round_zero_iff by (unfold MAX_SIZE; lia). unfold MAX_SIZE. lia.
Qed.

Lemma canvasSize_collapses_witness :
  snd (canvasSize 4100 2) = 0%Z /\ snd (canvasSize 4096 2) <> 0%Z.
Proof.
  destruct (canvasSize_collapses 4100 2) as (H1 & _); [reflexivity|reflexivity|].
  destruct (canvasSize_collapses 4096 2) as (H2 & _); [reflexivity|reflexivity|].
  split.
  - apply H1; reflexivity.
  - intro H. apply H2 in H; [discriminate H|reflexivity|reflexivity].
Defined.

(** X5. [compressImage] throws "Failed to process image" exactly when the
    payload does not decode.  Anything else it throws is "Canvas context not
    available", thrown when the payload decodes and the canvas of the
    computed size gives no 2D context. *)
Theorem compressImage_failures (b : Browser) (base64Str mimeType : string) :
  (decode b mimeType base64Str = None <->
   compressImage b base64Str mimeType
   = Throw (ThrownError (new_Error "Failed to process image")))
  /\ (forall e,
        compressImage b base64Str mimeType = Throw e ->
        e = ThrownError (new_Error "Failed to process image")
        \/ e = ThrownError (new_Error "Canvas context not available")
           /\ exists width height,
                decode b mimeType base64Str = Some (width, height)
                /\ getContext2d b (fst (canvasSize width height))
                     (snd (canvasSize width height)) = false).
Proof.
  unfold compressImage. split.
  - destruct (decode b mimeType base64Str) as [[w h]|].
    + split; [discriminate|]. destruct (canvasSize w h) as [w' h'].
      destruct (getContext2d b w' h'); discriminate.
    + split; reflexivity.
  - intros e. destruct (decode b mimeType base64Str) as [[w h]|].
    + destruct (canvasSize w h) as [w' h'] eqn:Hc. cbn [fst snd].
      destruct (getContext2d b w' h') eqn:Hctx; cbn [negb]; [discriminate|].
      intros [= <-]. right. split; [reflexivity|]. exists w, h.
      rewrite Hc. split; [reflexivity|exact Hctx].
    + intros [= <-]. left. reflexivity.
Qed.

(* ===================================================================== *)
(** * Further properties of the retry policy *)
(* ===================================================================== *)

Lemma invocations_app (l1 l2 : list Effect) :
  invocations (l1 ++ l2) = (invocations l1 + invocations l2)%nat.
Proof.
  induction l1 as [|e l1 IH]; [reflexivity|].
  destruct e; cbn; rewrite IH; reflexivity.
Qed.

Lemma sleeps_app (l1 l2 : list Effect) :
  sleeps (l1 ++ l2) = (sleeps l1 ++ sleeps l2)%list.
Proof.
  induction l1 as [|e l1 IH]; [reflexivity|].
  destruct e; cbn; rewrite IH; reflexivity.
Qed.

Lemma total_app (l1 l2 : list Z) : total (l1 ++ l2) = (total l1 + total l2)%Z.
Proof.
  unfold total. induction l1 as [|x l1 IH]; cbn; [reflexivity|]. rewrite IH. lia.
Qed.

(** The delays of retries [i .. i+n-1]. *)
Lemma backoff_from (initialDelay : Z) (i n : nat) :
  map (fun j => (initialDelay * 2 ^ Z.of_nat j)%Z) (seq i (S n))
  = ((initialDelay * 2 ^ Z.of_nat i)%Z
     :: map (fun j => (initialDelay * 2 ^ Z.of_nat j)%Z) (seq (S i) n)).
Proof. reflexivity. Qed.

Lemma total_backoff (initialDelay : Z) (n : nat) :
  total (backoff initialDelay n) = (initialDelay * (2 ^ Z.of_nat n - 1))%Z.
Proof.
  unfold backoff. induction n as [|n IH].
  - cbn. lia.
  - rewrite seq_S, map_app, total_app, IH. cbn [Nat.add map total fold_right].
    rewrite Nat2Z.inj_succ, Z.pow_succ_r by lia. lia.
Qed.

Section RetryTrace.

Context {St T : Type}.
Variable operation : @Operation St T.
Variables (retries : nat) (initialDelay : Z).

(** Whatever the operation does, what the loop adds to the log is a number
    of invocations within the remaining budget, separated by the delays of
    the backoff schedule. *)
Lemma retry_loop_trace (remaining i : nat) (lastError : Thrown) (s : St)
    (log : list Effect) :
  (i + remaining = retries)%nat ->
  exists trace,
    snd (retry_loop operation retries initialDelay remaining i lastError s log)
    = (log ++ trace)%list
    /\ (invocations trace <= remaining)%nat
    /\ (0 < remaining -> 0 < invocations trace)%nat
    /\ sleeps trace
       = map (fun j => (initialDelay * 2 ^ Z.of_nat j)%Z)
           (seq i (invocations trace - 1)).
Proof.
  revert i lastError s log.
  induction remaining as [|remaining IH]; intros i lastError s log Hi.
  - exists []. cbn. rewrite app_nil_r. repeat split; lia.
  - cbn [retry_loop].
    destruct (operation s) as [[v|[|error]] s'].
    + exists [Invoked]. cbn. repeat split; lia.
    + exists [Invoked]. cbn. repeat split; lia.
    + destruct (isRateLimit error && (i <? retries - 1)%nat) eqn:Hc.
      * apply andb_true_iff in Hc. destruct Hc as [_ Hc]. apply Nat.ltb_lt in Hc.
        destruct (IH (S i) (ThrownError error) s'
                    (log ++ [Invoked;
                             ConsoleWarn (rate_limit_warning
                                            (initialDelay * 2 ^ Z.of_nat i) i retries);
                             Slept (initialDelay * 2 ^ Z.of_nat i)])%list)
          as (trace & Heq & Hle & Hpos & Hsl); [lia|].
        exists ([Invoked;
                 ConsoleWarn (rate_limit_warning (initialDelay * 2 ^ Z.of_nat i) i retries);
                 Slept (initialDelay * 2 ^ Z.of_nat i)] ++ trace)%list.
        split; [rewrite Heq, <- app_assoc; reflexivity|].
        cbn [app invocations sleeps]. split; [lia|]. split; [lia|].
        rewrite Hsl. specialize (Hpos ltac:(lia)).
        destruct (invocations trace) as [|n]; [lia|].
        cbn [Nat.sub]. rewrite Nat.sub_0_r. reflexivity.
      * exists [Invoked]. cbn. repeat split; lia.
Qed.

End RetryTrace.

(** X6. Whatever the operation does, [retryOperation] invokes it at most
    [retries] times (and at least once when [retries] is positive), sleeps
    only between invocations, for the delays of the backoff schedule in
    order, and so for at most [initialDelay * (2^(retries-1) - 1)] in all. *)
Theorem retryOperation_bounded {St T : Type} (operation : @Operation St T)
    (retries : nat) (initialDelay : Z) (s : St) (log : list Effect) :
  exists trace,
    snd (retryOperation operation retries initialDelay s log) = (log ++ trace)%list
    /\ (invocations trace <= retries)%nat
    /\ (0 < retries -> 0 < invocations trace)%nat
    /\ sleeps trace = backoff initialDelay (invocations trace - 1)
    /\ ((0 <= initialDelay)%Z ->
        (0 <= total (sleeps trace) <= initialDelay * (2 ^ Z.of_nat (retries - 1) - 1))%Z).
Proof.
  destruct (retry_loop_trace operation retries initialDelay retries 0 ThrownUndefined s log)
    as (trace & Heq & Hle & Hpos & Hsl); [lia|].
  exists trace.
  split; [exact Heq|]. split; [exact Hle|]. split; [exact Hpos|]. split; [exact Hsl|].
  intro Hd. unfold backoff in Hsl |- *. rewrite Hsl.
  fold (backoff initialDelay (invocations trace - 1)). rewrite total_backoff.
  assert (0 < 2 ^ Z.of_nat (invocations trace - 1))%Z by (apply Z.pow_pos_nonneg; lia).
  assert (2 ^ Z.of_nat (invocations trace - 1) <= 2 ^ Z.of_nat (retries - 1))%Z
    by (apply Z.pow_le_mono_r; lia).
  nia.
Qed.

Lemma rate_limited_trace_counts (retries : nat) (initialDelay : Z) (i k : nat) :
  invocations (rate_limited_trace retries initialDelay i k) = k
  /\ sleeps (rate_limited_trace retries initialDelay i k)
     = map (fun j => (initialDelay * 2 ^ Z.of_nat j)%Z) (seq i k).
Proof.
  unfold rate_limited_trace. revert i.
  induction k as [|k IH]; intro i; [split; reflexivity|].
  destruct (IH (S i)) as (Hi & Hs).
  cbn [seq flat_map app invocations sleeps map]. rewrite Hi, Hs. split; reflexivity.
Qed.

Section RetryRuns.

Context {St T : Type}.
Variable operation : @Operation St T.
Variables (retries : nat) (initialDelay : Z).

(** [states j] is the state before invocation [j], [errors j] the error it
    throws: the first [k] invocations are rate-limited. *)
Variables (states : nat -> St) (errors : nat -> JsError).

(** The loop goes through rate-limited attempts that have attempts left. *)
Lemma retry_loop_skips (k remaining i : nat) (lastError : Thrown) (log : list Effect) :
  rate_limited_until operation states errors (i + k) ->
  (i + k < retries)%nat ->
  exists lastError',
    retry_loop operation retries initialDelay (k + remaining) i lastError (states i) log
    = retry_loop operation retries initialDelay remaining (i + k) lastError'
        (states (i + k)) (log ++ rate_limited_trace retries initialDelay i k)%list.
Proof.
  revert i lastError log.
  induction k as [|k IH]; intros i lastError log Hrl Hlt.
  - exists lastError. rewrite Nat.add_0_r. cbn. rewrite app_nil_r. reflexivity.
  - destruct (Hrl i ltac:(lia)) as (Hop & Hc).
    cbn [Nat.add].
    rewrite (retry_loop_again operation retries initialDelay (k + remaining) i lastError
               (states i) (states (S i)) log (errors i) Hop Hc) by lia.
    destruct (IH (S i) (ThrownError (errors i))
                (log ++ [Invoked;
                         ConsoleWarn (rate_limit_warning
                                        (initialDelay * 2 ^ Z.of_nat i) i retries);
                         Slept (initialDelay * 2 ^ Z.of_nat i)])%list) as (e' & He').
    + replace (S i + k)%nat with (i + S k)%nat by lia. exact Hrl.
    + lia.
    + exists e'. rewrite He'. replace (S i + k)%nat with (i + S k)%nat by lia.
      rewrite <- app_assoc. reflexivity.
Qed.

End RetryRuns.

(** X7. After [k] rate-limited attempts, an attempt that returns, or that
    throws an error that is not rate-limit-classified, ends the loop with
    that very outcome: [k + 1] invocations, and the first [k] delays of the
    backoff schedule. *)
Theorem retryOperation_stops_when_settled {St T : Type} (operation : @Operation St T)
    (retries : nat) (initialDelay : Z) (states : nat -> St) (errors : nat -> JsError)
    (k : nat) (outcome : Completion T) (s' : St) (log : list Effect) :
  (k < retries)%nat ->
  rate_limited_until operation states errors k ->
  operation (states k) = (outcome, s') ->
  match outcome with
  | Return _ => True
  | Throw (ThrownError error) => ~ RateLimitClassified error
  | Throw ThrownUndefined => False
  end ->
  exists trace,
    retryOperation operation retries initialDelay (states 0%nat) log
    = (outcome, s', (log ++ trace)%list)
    /\ invocations trace = S k
    /\ sleeps trace = backoff initialDelay k.
Proof.
  intros Hk Hrl Hop Hsettled.
  exists (rate_limited_trace retries initialDelay 0 k ++ [Invoked])%list.
  destruct (rate_limited_trace_counts retries initialDelay 0 k) as (Hi & Hs).
  split; [|split].
  - unfold retryOperation.
    replace retries with (k + S (retries - S k))%nat at 2 by lia.
    destruct (retry_loop_skips operation retries initialDelay states errors
                k (S (retries - S k)) 0 ThrownUndefined log Hrl Hk) as (e' & He').
    rewrite He'. cbn [Nat.add]. rewrite app_assoc.
    destruct outcome as [v|[|error]].
    + apply retry_loop_return. exact Hop.
    + contradiction.
    + apply retry_loop_rethrow; assumption.
  - rewrite invocations_app, Hi. cbn. lia.
  - rewrite sleeps_app, Hs. cbn. rewrite app_nil_r. reflexivity.
Qed.

Lemma retryOperation_stops_when_settled_witness :
  exists trace,
    retryOperation flaky_operation 5 1000 0%nat [] = (Return "done", 3%nat, trace)
    /\ invocations trace = 3%nat
    /\ sleeps trace = [1000; 2000]%Z.
Proof.
  destruct (retryOperation_stops_when_settled flaky_operation 5 1000
              (fun j => j) (fun _ => rate_limit_error) 2 (Return "done") 3%nat [])
    as (trace & Hrun & Hcalls & Hsleeps).
  - lia.
  - intros j Hj. split.
    + destruct j as [|[|j]]; [reflexivity|reflexivity|lia].
    + right. left. reflexivity.
  - reflexivity.
  - exact I.
  - exists trace. split; [exact Hrun|]. split; [exact Hcalls|exact Hsleeps].
Defined.

(** X8. When every one of the [retries] attempts is rate-limited, the loop
    gives up with the error of the last attempt, after [retries]
    invocations and the first [retries - 1] delays of the backoff schedule:
    it does not sleep after the last attempt. *)
Theorem retryOperation_gives_up {St T : Type} (operation : @Operation St T)
    (retries : nat) (initialDelay : Z) (states : nat -> St) (errors : nat -> JsError)
    (log : list Effect) :
  (0 < retries)%nat ->
  rate_limited_until operation states errors retries ->
  exists trace,
    retryOperation operation retries initialDelay (states 0%nat) log
    = (Throw (ThrownError (errors (retries - 1)%nat)), states retries,
       (log ++ trace)%list)
    /\ invocations trace = retries
    /\ sleeps trace = backoff initialDelay (retries - 1).
Proof.
  intros Hpos Hrl.
  exists (rate_limited_trace retries initialDelay 0 (retries - 1) ++ [Invoked])%list.
  destruct (rate_limited_trace_counts retries initialDelay 0 (retries - 1)) as (Hi & Hs).
  split; [|split].
  - unfold retryOperation.
    replace retries with ((retries - 1) + 1)%nat at 2 by lia.
    destruct (retry_loop_skips operation retries initialDelay states errors
                (retries - 1) 1 0 ThrownUndefined log) as (e' & He').
    + intros j Hj. apply Hrl. lia.
    + lia.
    + rewrite He'. cbn [Nat.add]. rewrite app_assoc.
      destruct (Hrl (retries - 1)%nat ltac:(lia)) as (Hop & Hc).
      cbn [retry_loop]. rewrite Hop.
      replace (retries - 1 <? retries - 1)%nat with false
        by (symmetry; apply Nat.ltb_irrefl).
      rewrite andb_false_r. replace (S (retries - 1)) with retries by lia.
      reflexivity.
  - rewrite invocations_app, Hi. cbn. lia.
  - rewrite sleeps_app, Hs. cbn. rewrite app_nil_r. reflexivity.
Qed.

Lemma retryOperation_gives_up_witness :
  exists trace,
    retryOperation busy_operation 4 500 0%nat []
    = (Throw (ThrownError rate_limit_error), 4%nat, trace)
    /\ invocations trace = 4%nat
    /\ sleeps trace = [500; 1000; 2000]%Z.
Proof.
  destruct (retryOperation_gives_up busy_operation 4 500
              (fun j => j) (fun _ => rate_limit_error) [])
    as (trace & Hrun & Hcalls & Hsleeps).
  - lia.
  - intros j _. split; [reflexivity|]. right. left. reflexivity.
  - exists trace. split; [exact Hrun|]. split; [exact Hcalls|exact Hsleeps].
Defined.

(* ===================================================================== *)
(** * How many requests a run sends, and of which kind *)
(* ===================================================================== *)

Section SendsWithin.

Variable P : GenAI.Request -> Prop.

Lemma sends_within_weaken {A : Type} (c : M A) (w : World) (n m : nat) :
  (n <= m)%nat -> sends_within P n c w -> sends_within P m c w.
Proof. intros Hle (new & Heq & Hall & Hlen). exists new. repeat split; auto; lia. Qed.

Lemma sends_within_nothing {A : Type} (c : M A) (w : World) (n : nat) :
  outbound (snd (c w)) = outbound w -> sends_within P n c w.
Proof.
  intro H. exists []. rewrite app_nil_r. repeat split; [exact H|constructor|cbn; lia].
Qed.

Lemma sends_within_bind {A B : Type} (c : M A) (k : A -> M B) (w : World) (n m : nat) :
  sends_within P n c w ->
  (forall v w', c w = (Return v, w') -> sends_within P m (k v) w') ->
  sends_within P (n + m) (bind c k) w.
Proof.
  intros (n1 & H1 & F1 & L1) Hk. unfold sends_within, bind.
  destruct (c w) as [[v|e] w'] eqn:E; cbn [snd] in H1.
  - destruct (Hk v w' eq_refl) as (n2 & H2 & F2 & L2).
    exists (n1 ++ n2)%list. split; [|split].
    + rewrite H2, H1, app_assoc. reflexivity.
    + apply Forall_app. split; assumption.
    + rewrite List.length_app. lia.
  - exists n1. repeat split; auto. lia.
Qed.

Lemma sends_within_try_catch {A : Type} (c : M A) (handler : Thrown -> M A)
    (w : World) (n m : nat) :
  sends_within P n c w ->
  (forall e w', c w = (Throw e, w') -> sends_within P m (handler e) w') ->
  sends_within P (n + m) (try_catch c handler) w.
Proof.
  intros (n1 & H1 & F1 & L1) Hh. unfold sends_within, try_catch.
  destruct (c w) as [[v|e] w'] eqn:E; cbn [snd] in H1.
  - exists n1. repeat split; auto. lia.
  - destruct (Hh e w' eq_refl) as (n2 & H2 & F2 & L2).
    exists (n1 ++ n2)%list. split; [|split].
    + rewrite H2, H1, app_assoc. reflexivity.
    + apply Forall_app. split; assumption.
    + rewrite List.length_app. lia.
Qed.

Lemma sends_within_await_retry {A : Type}
    (respond : list GenAI.Request -> GenAI.Request -> Completion A)
    (request : GenAI.Request) (w : World) :
  P request -> sends_within P 3 (await_retry (send respond request)) w.
Proof.
  intro HP. unfold sends_within, await_retry, retryOperation.
  destruct (retry_loop_send_le respond request 3 2000 3 0 ThrownUndefined
              (outbound w) (effects w)) as (k & Hle & Hk).
  destruct (retry_loop _ _ _ _ _ _ _ _) as [[c sent] log]. cbn [fst snd] in *.
  exists (repeat request k). split; [exact Hk|]. split.
  - apply Forall_forall. intros r Hr. apply repeat_spec in Hr. subst r. exact HP.
  - rewrite repeat_length. exact Hle.
Qed.

Lemma sends_within_extract (env : Env) (image : ImageAsset) (mode : ReferenceMode)
    (customPrompt : option string) (w : World) :
  (forall processed promptText, P (extractionRequest processed promptText)) ->
  sends_within P 3 (extractFeatureDescription env image mode customPrompt) w.
Proof.
  intro HP. unfold extractFeatureDescription.
  destruct (negb _); [apply sends_within_nothing; reflexivity|].
  apply (sends_within_bind _ _ _ 0 3); [apply sends_within_nothing; reflexivity|].
  intros processed w' _.
  apply (sends_within_try_catch _ _ _ 3 0).
  - apply (sends_within_bind _ _ _ 3 0); [apply sends_within_await_retry, HP|].
    intros; apply sends_within_nothing; reflexivity.
  - intros e w1 _. apply sends_within_nothing. reflexivity.
Qed.

Lemma sends_within_guidance (env : Env) (referenceImage : option ImageAsset)
    (config : GenerationConfig) (w : World) :
  (forall processed promptText, P (extractionRequest processed promptText)) ->
  sends_within P 3 (extractGuidance env referenceImage config) w.
Proof.
  intro HP. unfold extractGuidance.
  destruct referenceImage as [reference|]; [|apply sends_within_nothing; reflexivity].
  destruct (referenceMode config) as [mode|]; [|apply sends_within_nothing; reflexivity].
  apply (sends_within_try_catch _ _ _ 3 0).
  - apply (sends_within_bind _ _ _ 3 0); [apply sends_within_extract, HP|].
    intros; apply sends_within_nothing; reflexivity.
  - intros e w1 _. apply sends_within_nothing. reflexivity.
Qed.

Lemma sends_within_compressBoth (env : Env) (sourceImage : ImageAsset)
    (referenceImage : option ImageAsset) (w : World) :
  sends_within P 0 (compressBoth env sourceImage referenceImage) w.
Proof.
  apply sends_within_nothing. unfold compressBoth, bind, await.
  destruct (compressImage _ _ _); [|reflexivity].
  destruct referenceImage; [|reflexivity].
  destruct (compressImage _ _ _); reflexivity.
Qed.

Lemma sends_within_edit (env : Env) (request : GenAI.Request) (w : World) :
  P request -> sends_within P 3 (editAndInterpret env request) w.
Proof.
  intro HP. unfold editAndInterpret.
  apply (sends_within_try_catch _ _ _ 3 0).
  - apply (sends_within_bind _ _ _ 3 0); [apply sends_within_await_retry, HP|].
    intros; apply sends_within_nothing; reflexivity.
  - intros e w1 _. apply sends_within_nothing. destruct e; reflexivity.
Qed.

Lemma sends_within_imagen (env : Env) (config : GenerationConfig)
    (targetRatio : AspectRatio) (w : World) :
  P (imagenRequest config targetRatio) ->
  sends_within P 3 (generateWithImagen env config targetRatio) w.
Proof.
  intro HP. unfold generateWithImagen.
  apply (sends_within_try_catch _ _ _ 3 0).
  - apply (sends_within_bind _ _ _ 3 0); [apply sends_within_await_retry, HP|].
    intros response w1 _. apply sends_within_nothing.
    destruct (GenAI.generatedImages response) as [[|g l]|]; try reflexivity.
    destruct (GenAI.image g); reflexivity.
  - intros e w1 _. apply sends_within_nothing. destruct e; reflexivity.
Qed.

End SendsWithin.

(** X10. A call sends at most six requests. With the text-to-image model it
    sends at most three, all of them [generateImages] calls; with an editing
    model it sends [generateContent] calls only. *)
Theorem generateFutureImage_requests (env : Env) (sourceImage : ImageAsset)
    (referenceImage : option ImageAsset) (config : GenerationConfig) (w : World) :
  exists new,
    outbound (snd (generateFutureImage env sourceImage referenceImage config w))
    = (outbound w ++ new)%list
    /\ (List.length new <= 6)%nat
    /\ (chosenModel config = IMAGEN_4 ->
        Forall isGenerateImages new /\ (List.length new <= 3)%nat)
    /\ (chosenModel config <> IMAGEN_4 -> Forall isGenerateContent new).
Proof.
  assert (Hedit : forall model,
    sends_within isGenerateContent (3 + (0 + 3))
      (guidanceDescription <- extractGuidance env referenceImage config ;;
       processed <- compressBoth env sourceImage referenceImage ;;
       let '(processedSource, processedRef) := processed in
       editAndInterpret env
         (editRequest model
            (buildParts processedSource processedRef
               (composeInstruction processedRef guidanceDescription config))
            (resolveTargetRatio config sourceImage))) w).
  { intro model.
    apply sends_within_bind; [apply sends_within_guidance; intros; exact I|].
    intros guidance w1 _.
    apply sends_within_bind; [apply sends_within_compressBoth|].
    intros [ps pr] w2 _. apply sends_within_edit. exact I. }
  unfold generateFutureImage, chosenModel.
  destruct (negb _).
  - exists []. rewrite app_nil_r. cbn.
    split; [reflexivity|]. split; [lia|]. split; intros _; [split; [constructor|lia]|constructor].
  - destruct (match modelId config with Some m => m | None => GEMINI_2_5 end) eqn:Em.
    + destruct (Hedit GEMINI_2_5) as (new & Heq & Hall & Hlen).
      exists new. split; [exact Heq|]. split; [lia|]. split; [discriminate|].
      intros _. exact Hall.
    + destruct (Hedit GEMINI_3_PRO) as (new & Heq & Hall & Hlen).
      exists new. split; [exact Heq|]. split; [lia|]. split; [discriminate|].
      intros _. exact Hall.
    + destruct (sends_within_imagen isGenerateImages env config
                  (resolveTargetRatio config sourceImage) w I) as (new & Heq & Hall & Hlen).
      exists new. split; [exact Heq|]. split; [lia|]. split; [|congruence].
      intros _. split; assumption.
Qed.

(** With an attempt left, the retry loop never throws [undefined]. *)
Lemma retry_loop_throws_object {St T : Type} (operation : @Operation St T)
    (retries : nat) (initialDelay : Z) (remaining i : nat) (lastError : Thrown)
    (s : St) (log : list Effect) :
  (0 < remaining)%nat \/ lastError <> ThrownUndefined ->
  fst (fst (retry_loop operation retries initialDelay remaining i lastError s log))
  <> Throw ThrownUndefined.
Proof.
  revert i lastError s log.
  induction remaining as [|remaining IH]; intros i lastError s log H.
  - cbn. destruct H as [H|H]; [lia|]. congruence.
  - cbn [retry_loop].
    destruct (operation s) as [[v|[|error]] s']; cbn [fst]; try discriminate.
    destruct (isRateLimit error && (i <? retries - 1)%nat); [|cbn [fst]; discriminate].
    apply IH. right. discriminate.
Qed.

Lemma await_retry_throws_object {A : Type}
    (operation : @Operation (list GenAI.Request) A) (w : World) :
  fst (await_retry operation w) <> Throw ThrownUndefined.
Proof.
  unfold await_retry, retryOperation.
  assert (H : fst (fst (retry_loop operation 3 2000 3 0 ThrownUndefined
                          (outbound w) (effects w))) <> Throw ThrownUndefined)
    by (apply retry_loop_throws_object; left; lia).
  destruct (retry_loop _ _ _ _ _ _ _ _) as [[c sent] log]. exact H.
Qed.

(** The text-to-image path: its outcome, by the outcome of the retried
    call. *)
Lemma generateWithImagen_outcome (env : Env) (config : GenerationConfig)
    (targetRatio : AspectRatio) (w : World) :
  fst (generateWithImagen env config targetRatio w)
  = match fst (fst (retryOperation
                      (send (GenAI.generateImages (remote env))
                            (imagenRequest config targetRatio))
                      3 2000 (outbound w) (effects w))) with
    | Return response =>
        match GenAI.generatedImages response with
        | Some (first :: _) =>
            match GenAI.image first with
            | Some image => Return (GenAI.imageBytes image)
            | None =>
                Throw (ThrownError (new_Error
                  "Imagen Generation Failed: Cannot read properties of undefined (reading 'imageBytes')"))
            end
        | _ =>
            Throw (ThrownError (new_Error
              "Imagen Generation Failed: No image generated by Imagen."))
        end
    | Throw (ThrownError e) =>
        Throw (ThrownError (new_Error
          ("Imagen Generation Failed: " ++ message_in_template e)))
    | Throw ThrownUndefined => Throw (ThrownError (TypeError_undefined "message"))
    end.
Proof.
  unfold generateWithImagen, try_catch, bind, await_retry.
  destruct (retryOperation _ _ _ _ _) as [[[response|[|e]] sent] log]; cbn [fst];
    try reflexivity.
  destruct (GenAI.generatedImages response) as [[|g l]|]; try reflexivity.
  destruct (GenAI.image g); reflexivity.
Qed.

(** The text-to-image path returns, or throws an error with a message. *)
Lemma generateWithImagen_readable (env : Env) (config : GenerationConfig)
    (targetRatio : AspectRatio) (w : World) :
  match fst (generateWithImagen env config targetRatio w) with
  | Return _ => True
  | Throw t => readable t
  end.
Proof.
  rewrite generateWithImagen_outcome.
  destruct (fst (fst (retryOperation _ _ _ _ _))) as [response|[|e]].
  - destruct (GenAI.generatedImages response) as [[|g l]|];
      try (eexists; split; [reflexivity|discriminate]).
    destruct (GenAI.image g); [exact I|].
    eexists; split; [reflexivity|discriminate].
  - eexists; split; [reflexivity|discriminate].
  - eexists; split; [reflexivity|discriminate].
Qed.



(* ===================================================================== *)
(** * What a call throws, and what it returns *)
(* ===================================================================== *)

Lemma compressImage_throws_readable (b : Browser) (base64Str mimeType : string)
    (t : Thrown) :
  compressImage b base64Str mimeType = Throw t -> readable t.
Proof.
  unfold compressImage. destruct (decode b mimeType base64Str) as [[w h]|].
  - destruct (canvasSize w h) as [w' h']. destruct (getContext2d b w' h'); cbn [negb];
      [discriminate|].
    intros [= <-]. eexists. split; [reflexivity|discriminate].
  - intros [= <-]. eexists. split; [reflexivity|discriminate].
Qed.

Lemma compressBoth_throws_readable (env : Env) (sourceImage : ImageAsset)
    (referenceImage : option ImageAsset) (w : World) (t : Thrown) :
  fst (compressBoth env sourceImage referenceImage w) = Throw t -> readable t.
Proof.
  unfold compressBoth, bind, await.
  destruct (compressImage (browser env) (data sourceImage) (mimeType sourceImage))
    as [ps|e] eqn:Es.
  - destruct referenceImage as [reference|]; [|discriminate].
    destruct (compressImage (browser env) (data reference) (mimeType reference))
      as [pr|e] eqn:Er; [discriminate|].
    cbn. intros [= <-]. exact (compressImage_throws_readable _ _ _ _ Er).
  - cbn. intros [= <-]. exact (compressImage_throws_readable _ _ _ _ Es).
Qed.

Lemma editAndInterpret_throws_readable (env : Env) (request : GenAI.Request)
    (w : World) (t : Thrown) :
  fst (editAndInterpret env request w) = Throw t -> readable t.
Proof.
  unfold editAndInterpret, try_catch, bind.
  destruct (await_retry _ w) as [[response|e] w1].
  - unfold await. destruct (interpretResponse response) as [d|[|e]]; cbn.
    + discriminate.
    + intros [= <-]. eexists. split; [reflexivity|discriminate].
    + intros [= <-]. eexists. split; [reflexivity|].
      apply or_string_nonempty. discriminate.
  - destruct e as [|e]; cbn.
    + intros [= <-]. eexists. split; [reflexivity|discriminate].
    + intros [= <-]. eexists. split; [reflexivity|].
      apply or_string_nonempty. discriminate.
Qed.

(** A call returns, or throws something readable. *)
Lemma generateFutureImage_outcome (env : Env) (sourceImage : ImageAsset)
    (referenceImage : option ImageAsset) (config : GenerationConfig) (w : World) :
  match fst (generateFutureImage env sourceImage referenceImage config w) with
  | Return _ => True
  | Throw t => readable t
  end.
Proof.
  unfold generateFutureImage.
  destruct (negb _).
  - cbn. eexists. split; [reflexivity|discriminate].
  - assert (Hedit : forall model,
      match
        fst ((guidanceDescription <- extractGuidance env referenceImage config ;;
              processed <- compressBoth env sourceImage referenceImage ;;
              let '(processedSource, processedRef) := processed in
              editAndInterpret env
                (editRequest model
                   (buildParts processedSource processedRef
                      (composeInstruction processedRef guidanceDescription config))
                   (resolveTargetRatio config sourceImage))) w)
      with
      | Return _ => True
      | Throw t => readable t
      end).
    { intro model. unfold bind at 1.
      destruct (extractGuidance_returns env referenceImage config w) as (g & w1 & Hg).
      rewrite Hg. unfold bind at 1.
      destruct (compressBoth env sourceImage referenceImage w1) as [[[ps pr]|e] w2] eqn:Ec.
      - destruct (fst (editAndInterpret env _ w2)) as [d|t] eqn:Ee; [exact I|].
        exact (editAndInterpret_throws_readable _ _ _ _ Ee).
      - cbn. apply (compressBoth_throws_readable env sourceImage referenceImage w1).
        rewrite Ec. reflexivity. }
    destruct (match modelId config with Some m => m | None => GEMINI_2_5 end);
      try apply Hedit.
    apply generateWithImagen_readable.
Qed.

(** X12. Whatever fails, what [generateFutureImage] throws is an error object
    with a non-empty message: never [undefined], never an error without
    text. *)
Theorem generateFutureImage_throws_readable (env : Env) (sourceImage : ImageAsset)
    (referenceImage : option ImageAsset) (config : GenerationConfig) (w : World)
    (t : Thrown) :
  fst (generateFutureImage env sourceImage referenceImage config w) = Throw t ->
  exists msg, t = ThrownError (new_Error msg) /\ msg <> EmptyString.
Proof.
  intro Ht.
  pose proof (generateFutureImage_outcome env sourceImage referenceImage config w) as H.
  rewrite Ht in H. destruct H as (msg & Hmsg & Hne).
  exists msg. split; assumption.
Qed.

Lemma generateFutureImage_throws_readable_witness :
  exists msg,
    ThrownError (new_Error "Failed to process image") = ThrownError (new_Error msg)
    /\ msg <> EmptyString.
Proof.
  apply (generateFutureImage_throws_readable undecodable_env source_800x600 None
           sunglasses_config initial).
  reflexivity.
Defined.

(** X13. On the editing path, once the images compress and the service
    answers the edit call, a first candidate whose finish reason is absent,
    empty or STOP and whose parts hold inline data makes the call return the
    data of the first such part: text parts before it, the parts after it
    and the other candidates are ignored. *)
Theorem generateFutureImage_returns_first_image (env : Env) (sourceImage : ImageAsset)
    (referenceImage : option ImageAsset) (config : GenerationConfig) (w : World)
    (processedSource : Compressed) (response : GenAI.GenerateContentResponse)
    (candidate : GenAI.Candidate) (others : list GenAI.Candidate)
    (texts rest : list GenAI.Part) (imageData imageType : string) :
  Js.truthy_opt_string (API_KEY env) = true ->
  modelId config <> Some IMAGEN_4 ->
  compressImage (browser env) (data sourceImage) (mimeType sourceImage)
  = Return processedSource ->
  match referenceImage with
  | Some reference =>
      exists processedRef,
        compressImage (browser env) (data reference) (mimeType reference)
        = Return processedRef
  | None => True
  end ->
  (forall sent model parts config,
      GenAI.generateContent (remote env) sent (GenAI.GenerateContent model parts (Some config))
      = Return response) ->
  GenAI.candidates response = Some (candidate :: others) ->
  GenAI.finishReason candidate = None
  \/ GenAI.finishReason candidate = Some EmptyString
  \/ GenAI.finishReason candidate = Some "STOP" ->
  GenAI.content candidate
  = Some (texts ++ GenAI.InlineData imageData imageType :: rest)%list ->
  (forall part, In part texts -> exists text, part = GenAI.Text text) ->
  fst (generateFutureImage env sourceImage referenceImage config w)
  = Return (Some imageData).
Proof.
  intros Hkey Hmodel Hs Hr Hremote Hc Hf Hp Htexts.
  rewrite (generateFutureImage_reads_response env sourceImage referenceImage config w
             processedSource response Hkey Hmodel Hs Hr Hremote).
  unfold interpretResponse. rewrite Hc.
  assert (Hn : finishReasonError candidate = None)
    by (unfold finishReasonError; destruct Hf as [-> | [-> | ->]]; reflexivity).
  rewrite Hn, Hp.
  assert (Hfirst : firstInlineData (texts ++ GenAI.InlineData imageData imageType :: rest)
                   = Some imageData).
  { clear Hp. induction texts as [|p texts IH]; [reflexivity|].
    destruct (Htexts p (or_introl eq_refl)) as (t & ->). cbn.
    apply IH. intros q Hq. apply Htexts. right. exact Hq. }
  rewrite Hfirst. reflexivity.
Qed.

Lemma generateFutureImage_returns_first_image_witness :
  fst (generateFutureImage working_env source_800x600 None sunglasses_config initial)
  = Return (Some "RESULT").
Proof.
  apply (generateFutureImage_returns_first_image working_env source_800x600 None
           sunglasses_config initial
           {| c_data := "jpeg:SRC"; c_mimeType := "image/jpeg" |}
           {| GenAI.candidates := Some [image_candidate]; GenAI.text := None |}
           image_candidate [] [GenAI.Text "Here it is."] [] "RESULT" "image/png").
  - reflexivity.
  - discriminate.
  - reflexivity.
  - exact I.
  - reflexivity.
  - reflexivity.
  - right. right. reflexivity.
  - reflexivity.
  - intros part [<- | []]. eexists. reflexivity.
Defined.

(** X14. Every request of every call follows the configuration.  The
    analysis call goes to "gemini-2.5-flash" without a configuration,
    whatever model is chosen.  An edit call goes to the chosen editing model
    with the resolved ratio, the four safety settings at BLOCK_ONLY_HIGH and
    the "1K" size hint for the Pro model only.  A text-to-image call goes to
    the Imagen model and asks for one JPEG image of the prompt at the
    resolved ratio. *)
Theorem requests_follow_the_configuration (env : Env) (sourceImage : ImageAsset)
    (referenceImage : option ImageAsset) (config : GenerationConfig) (w : World) :
  exists new,
    outbound (snd (generateFutureImage env sourceImage referenceImage config w))
    = (outbound w ++ new)%list
    /\ Forall (requestOf config sourceImage) new.
Proof.
  change (sends_only (requestOf config sourceImage)
            (generateFutureImage env sourceImage referenceImage config) w).
  unfold generateFutureImage.
  destruct (negb _); [apply sends_only_throw|].
  assert (Hedit : forall model,
    chosenModel config = model -> model <> IMAGEN_4 ->
    sends_only (requestOf config sourceImage)
      (guidanceDescription <- extractGuidance env referenceImage config ;;
       processed <- compressBoth env sourceImage referenceImage ;;
       let '(processedSource, processedRef) := processed in
       editAndInterpret env
         (editRequest model
            (buildParts processedSource processedRef
               (composeInstruction processedRef guidanceDescription config))
            (resolveTargetRatio config sourceImage))) w).
  { intros model Hm Hne.
    apply sends_only_bind; [apply sends_only_guidance; intros; reflexivity|].
    intros guidance w1 _.
    apply sends_only_bind; [apply sends_only_compressBoth|].
    intros [ps pr] w2 _. apply sends_only_edit.
    cbn. rewrite Hm. split; [exact Hne|]. split; [reflexivity|]. split; [reflexivity|].
    split; [|split; [|reflexivity]].
    - destruct model; split; congruence.
    - destruct model; split; congruence. }
  fold (chosenModel config).
  destruct (chosenModel config) eqn:Em.
  - apply Hedit; [reflexivity|discriminate].
  - apply Hedit; [reflexivity|discriminate].
  - apply sends_only_imagen. cbn. rewrite Em. repeat split.
    apply imagenAspectRatio_wire, resolveTargetRatio_not_same.
Qed.

(** X15. The analysis question is never empty.  When the image does not
    compress, the extraction leaves the world as it was: nothing is sent or
    logged.  With the credential present and the image compressed, it sends
    one and the same request, one to three times: [generateContent] on
    "gemini-2.5-flash" with the compressed JPEG, then the question, and no
    configuration. *)
Theorem extractFeatureDescription_requests (env : Env) (image : ImageAsset)
    (mode : ReferenceMode) (customPrompt : option string) (w : World) :
  extractionPrompt mode customPrompt <> EmptyString
  /\ (forall e,
        compressImage (browser env) (data image) (mimeType image) = Throw e ->
        snd (extractFeatureDescription env image mode customPrompt w) = w)
  /\ (forall processed,
        Js.truthy_opt_string (API_KEY env) = true ->
        compressImage (browser env) (data image) (mimeType image) = Return processed ->
        exists k,
          (k <= 2)%nat
          /\ outbound (snd (extractFeatureDescription env image mode customPrompt w))
             = (outbound w
                ++ repeat
                     (GenAI.GenerateContent "gemini-2.5-flash"
                        [ GenAI.InlineData (c_data processed) "image/jpeg";
                          GenAI.Text (extractionPrompt mode customPrompt) ]
                        None)
                     (S k))%list).
Proof.
  split; [|split].
  - destruct mode; try discriminate. destruct customPrompt as [[|c s]|]; discriminate.
  - intros e Hc. unfold extractFeatureDescription.
    destruct (negb _); [reflexivity|]. unfold bind, await. rewrite Hc. reflexivity.
  - intros processed Hkey Hc.
    rewrite (extractFeatureDescription_guarded env image mode customPrompt w processed
               Hkey Hc).
    assert (Hmime : c_mimeType processed = "image/jpeg").
    { revert Hc. unfold compressImage.
      destruct (decode _ _ _) as [[iw ih]|]; [|discriminate].
      destruct (canvasSize iw ih) as [cw ch].
      destruct (negb _); [discriminate|]. intros [= <-]. reflexivity. }
    unfold retryOperation.
    destruct (retry_loop_send_count (GenAI.generateContent (remote env))
                (extractionRequest processed (extractionPrompt mode customPrompt))
                3 2000 2 0 ThrownUndefined (outbound w) (effects w)) as (k & Hle & Hk).
    destruct (retry_loop _ _ _ _ _ _ _ _) as [[c sent] log]. cbn [fst snd] in Hk.
    exists k. split; [exact Hle|].
    unfold extractionRequest in Hk. rewrite Hmime in Hk.
    destruct c; cbn [snd outbound]; exact Hk.
Qed.

Lemma extractFeatureDescription_requests_witness :
  exists k,
    (k <= 2)%nat
    /\ outbound (snd (extractFeatureDescription busy_env reference_image DRESS None initial))
       = repeat
           (GenAI.GenerateContent "gemini-2.5-flash"
              [ GenAI.InlineData "jpeg:REF" "image/jpeg";
                GenAI.Text (extractionPrompt DRESS None) ]
              None)
           (S k).
Proof.
  destruct (extractFeatureDescription_requests busy_env reference_image DRESS None initial)
    as (_ & _ & H).
  apply (H {| c_data := "jpeg:REF"; c_mimeType := "image/jpeg" |}); reflexivity.
Defined.

(** The edit step against a service that is always over quota. *)
Lemma editAndInterpret_rate_limited (env : Env) (request : GenAI.Request) (w : World)
    (error : JsError) :
  (forall sent,
      GenAI.generateContent (remote env) sent request = Throw (ThrownError error)) ->
  RateLimitClassified error ->
  editAndInterpret env request w
  = (Throw (ThrownError
              (new_Error (Js.or_string (message error) "Failed to generate image."))),
     {| outbound := (outbound w ++ [request; request; request])%list;
        effects :=
          (effects w
           ++ [ Invoked;
                ConsoleWarn "Rate limit hit. Retrying in 2000ms... (Attempt 1/3)";
                Slept 2000;
                Invoked;
                ConsoleWarn "Rate limit hit. Retrying in 4000ms... (Attempt 2/3)";
                Slept 4000;
                Invoked;
                ConsoleError "Gemini API Error:" (ThrownError error) ])%list |}).
Proof.
  intros Hremote Hrl. apply isRateLimit_classified in Hrl.
  unfold editAndInterpret, try_catch, bind, await_retry, retryOperation.
  cbn [retry_loop]. unfold send.
  rewrite (Hremote (outbound w)), Hrl. cbn [Nat.ltb Nat.leb Nat.sub andb].
  rewrite (Hremote (outbound w ++ [request])%list), Hrl. cbn [Nat.ltb Nat.leb Nat.sub andb].
  rewrite (Hremote ((outbound w ++ [request]) ++ [request])%list), Hrl.
  cbn [Nat.ltb Nat.leb Nat.sub andb].
  unfold console, throw. cbn [fst snd outbound effects].
  rewrite <- !app_assoc. reflexivity.
Qed.

(** X16. When the service refuses every edit call with a rate-limit error,
    the call tries three times, sleeping 2000 then 4000, logs the error and
    throws a fresh error that carries the message of the last refusal (or
    "Failed to generate image." when it has none) and neither its status
    nor its code. *)
Theorem generateFutureImage_gives_up_on_rate_limit (env : Env)
    (sourceImage : ImageAsset) (referenceImage : option ImageAsset)
    (config : GenerationConfig) (w : World) (processedSource : Compressed)
    (error : JsError) :
  Js.truthy_opt_string (API_KEY env) = true ->
  modelId config <> Some IMAGEN_4 ->
  compressImage (browser env) (data sourceImage) (mimeType sourceImage)
  = Return processedSource ->
  match referenceImage with
  | Some reference =>
      exists processedRef,
        compressImage (browser env) (data reference) (mimeType reference)
        = Return processedRef
  | None => True
  end ->
  (forall sent model parts config,
      GenAI.generateContent (remote env) sent (GenAI.GenerateContent model parts (Some config))
      = Throw (ThrownError error)) ->
  RateLimitClassified error ->
  fst (generateFutureImage env sourceImage referenceImage config w)
  = Throw (ThrownError
             (new_Error (Js.or_string (message error) "Failed to generate image.")))
  /\ exists before log request,
       outbound (snd (generateFutureImage env sourceImage referenceImage config w))
       = (outbound w ++ before ++ [request; request; request])%list
       /\ isGenerateContent request
       /\ effects (snd (generateFutureImage env sourceImage referenceImage config w))
          = (log
             ++ [ Invoked;
                  ConsoleWarn "Rate limit hit. Retrying in 2000ms... (Attempt 1/3)";
                  Slept 2000;
                  Invoked;
                  ConsoleWarn "Rate limit hit. Retrying in 4000ms... (Attempt 2/3)";
                  Slept 4000;
                  Invoked;
                  ConsoleError "Gemini API Error:" (ThrownError error) ])%list.
Proof.
  intros Hkey Hmodel Hs Hr Hremote Hrl.
  destruct (generateFutureImage_editing_path env sourceImage referenceImage config w
              processedSource Hkey Hmodel Hs Hr)
    as (model & g & pr & w1 & before & Hrun & Hw1).
  rewrite Hrun.
  rewrite (editAndInterpret_rate_limited env
             (editRequest model
                (buildParts processedSource pr (composeInstruction pr g config))
                (resolveTargetRatio config sourceImage)) w1 error);
    [|intro sent; apply Hremote|exact Hrl].
  split; [reflexivity|].
  exists before, (effects w1). eexists. cbn [snd outbound effects].
  split; [|split; [|reflexivity]].
  - rewrite Hw1, <- app_assoc. reflexivity.
  - exact I.
Qed.

Lemma generateFutureImage_gives_up_on_rate_limit_witness :
  fst (generateFutureImage busy_env source_800x600 None sunglasses_config initial)
  = Throw (ThrownError (new_Error "Resource has been exhausted (e.g. check quota).")).
Proof.
  apply (generateFutureImage_gives_up_on_rate_limit busy_env source_800x600 None
           sunglasses_config initial
           {| c_data := "jpeg:SRC"; c_mimeType := "image/jpeg" |} rate_limit_error).
  - reflexivity.
  - discriminate.
  - reflexivity.
  - exact I.
  - reflexivity.
  - right. left. reflexivity.
Defined.



(** The analysis request for the reference was sent before the source
    failed. *)
Example guidance_runs_before_the_source_is_read :
  outbound (snd (generateFutureImage picky_env source_800x600 (Some reference_image)
                   dress_config initial))
  = [ extractionRequest {| c_data := "jpeg:REF"; c_mimeType := "image/jpeg" |}
        (extractionPrompt DRESS None) ].
Proof. reflexivity. Qed.

(* ===================================================================== *)
(** * Properties of the page: generating *)
(* ===================================================================== *)

Lemma includes_app_r (a b needle : string) :
  Js.includes b needle = true -> Js.includes (a ++ b) needle = true.
Proof.
  intro H. induction a as [|c a IH]; [exact H|].
  cbn [append Js.includes]. destruct (String.prefix needle (String c (a ++ b)));
    [reflexivity|exact IH].
Qed.

(** The bytes of a white-space character are white-space bytes. *)
Lemma is_space_bytes (character : string) (b : ascii) :
  Js.is_space character = true -> In b (list_ascii_of_string character) ->
  white_byte b = true.
Proof.
  unfold Js.is_space, white_byte. intros H Hin.
  apply existsb_exists in H. destruct H as (cp & Hcp & Heq).
  apply String.eqb_eq in Heq. subst character.
  apply existsb_exists. exists cp. split; [exact Hcp|].
  apply existsb_exists. exists b. split; [exact Hin|apply Ascii.eqb_refl].
Qed.

Lemma not_space_with (character : string) (b : ascii) :
  white_byte b = false -> In b (list_ascii_of_string character) ->
  Js.is_space character = false.
Proof.
  intros Hb Hin. destruct (Js.is_space character) eqn:E; [|reflexivity].
  rewrite (is_space_bytes character b E Hin) in Hb. discriminate.
Qed.

(** [trimStart] stops at a byte that belongs to no white space. *)
Lemma trimStart_keeps (n : nat) (a : string) (c : ascii) (b : string) :
  (String.length a <= n)%nat -> white_byte c = false ->
  exists a', Js.trimStart (a ++ String c b) = a' ++ String c b.
Proof.
  revert a. induction n as [|n IH]; intros a Hlen Hc.
  - destruct a; [|cbn in Hlen; lia]. clear Hlen.
    exists EmptyString. cbn [append Js.trimStart].
    rewrite (not_space_with _ c Hc) by (cbn; auto).
    destruct b as [|b2 r2]; [reflexivity|].
    rewrite (not_space_with _ c Hc) by (cbn; auto).
    destruct r2 as [|b3 r3]; [reflexivity|].
    rewrite (not_space_with _ c Hc) by (cbn; auto). reflexivity.
  - destruct a as [|a1 a]; [apply (IH EmptyString); [cbn; lia|exact Hc]|].
    cbn [append Js.trimStart].
    destruct (Js.is_space (String a1 EmptyString)).
    { apply IH; [cbn in Hlen; lia|exact Hc]. }
    destruct a as [|a2 a]; cbn [append].
    { exists (String a1 EmptyString).
      rewrite (not_space_with _ c Hc) by (cbn; auto).
      destruct b as [|b3 r3]; [reflexivity|].
      rewrite (not_space_with _ c Hc) by (cbn; auto). reflexivity. }
    destruct (Js.is_space (String a1 (String a2 EmptyString))).
    { apply IH; [cbn in Hlen; lia|exact Hc]. }
    destruct a as [|a3 a]; cbn [append].
    { exists (String a1 (String a2 EmptyString)).
      rewrite (not_space_with _ c Hc) by (cbn; auto). reflexivity. }
    destruct (Js.is_space (String a1 (String a2 (String a3 EmptyString)))).
    { apply IH; [cbn in Hlen; lia|exact Hc]. }
    exists (String a1 (String a2 (String a3 a))). reflexivity.
Qed.

(** [trimStart] leaves nothing to trim at the start. *)
Lemma trimStart_idempotent (s : string) : Js.trimStart (Js.trimStart s) = Js.trimStart s.
Proof.
  assert (H : forall n s, (String.length s <= n)%nat ->
                          Js.trimStart (Js.trimStart s) = Js.trimStart s).
  { clear s. induction n as [|n IH]; intros s Hlen.
    - destruct s; [reflexivity|cbn in Hlen; lia].
    - destruct s as [|b1 r1]; [reflexivity|].
      cbn [Js.trimStart].
      destruct (Js.is_space (String b1 EmptyString)) eqn:E1.
      { apply IH. cbn in Hlen; lia. }
      destruct r1 as [|b2 r2].
      { cbn [Js.trimStart]. rewrite E1. reflexivity. }
      destruct (Js.is_space (String b1 (String b2 EmptyString))) eqn:E2.
      { apply IH. cbn in Hlen; lia. }
      destruct r2 as [|b3 r3].
      { cbn [Js.trimStart]. rewrite E1, E2. reflexivity. }
      destruct (Js.is_space (String b1 (String b2 (String b3 EmptyString)))) eqn:E3.
      { apply IH. cbn in Hlen; lia. }
      cbn [Js.trimStart]. rewrite E1, E2, E3. reflexivity. }
  apply (H (String.length s)). lia.
Qed.

(** [s.trim()] is truthy exactly when [s.trimStart()] is. *)
Lemma truthy_trim_trimStart (s : string) :
  Js.truthy_trim s = Js.truthy_string (Js.trimStart s).
Proof.
  unfold Js.truthy_trim, Js.trim.
  destruct (Js.trimStart s) as [|c rest] eqn:E; [reflexivity|].
  cbn [Js.trimEnd]. rewrite <- E, trimStart_idempotent, E. reflexivity.
Qed.

(** A text with a byte that belongs to no white space is not blank. *)
Lemma truthy_trim_plain (a : string) (c : ascii) (b : string) :
  white_byte c = false -> Js.truthy_trim (a ++ String c b) = true.
Proof.
  intro Hc. rewrite truthy_trim_trimStart.
  destruct (trimStart_keeps (String.length a) a c b (Nat.le_refl _) Hc) as (a' & ->).
  destruct a'; reflexivity.
Qed.

(** The checks of [handleGenerate], as one decision. *)
Lemma valid_checks (st : App.State) :
  App.valid st <->
  negb (App.isSome (App.sourceImage st)) && negb (App.isImagen st) = false
  /\ negb (Js.truthy_trim (App.prompt st)) && negb (App.useRefImage st) = false
  /\ App.useRefImage st && negb (App.isSome (App.refImage st)) = false
  /\ App.useRefImage st && App.isCustom st
     && negb (Js.truthy_trim (App.customRefPrompt st)) = false.
Proof.
  unfold App.valid, App.isImagen, App.isCustom, App.isSome.
  rewrite !andb_false_iff, !negb_false_iff.
  destruct (App.sourceImage st), (App.selectedModel st), (App.refImage st),
    (App.refMode st), (App.useRefImage st);
    intuition congruence.
Qed.

(** X18. A form that fails a check never reaches the service: the handler
    only sets one of its four messages, and nothing is sent or logged. *)
Theorem handleGenerate_rejects_invalid (env : Env) (st : App.State) (w : World) :
  ~ App.valid st ->
  exists msg,
    App.handleGenerate env st w = (Return tt, App.setError (Some msg) st, w)
    /\ In msg [ "Please upload a source image.";
                "Please enter a prompt or use a reference image.";
                "Reference mode is on but no reference image provided.";
                "Please enter what you want to copy from the reference image." ].
Proof.
  intro Hinvalid. rewrite valid_checks in Hinvalid. unfold App.handleGenerate.
  destruct (negb (App.isSome (App.sourceImage st)) && negb (App.isImagen st)).
  { eexists. split; [reflexivity|]. left. reflexivity. }
  destruct (negb (Js.truthy_trim (App.prompt st)) && negb (App.useRefImage st)).
  { eexists. split; [reflexivity|]. right. left. reflexivity. }
  destruct (App.useRefImage st && negb (App.isSome (App.refImage st))).
  { eexists. split; [reflexivity|]. right. right. left. reflexivity. }
  destruct (App.useRefImage st && App.isCustom st
            && negb (Js.truthy_trim (App.customRefPrompt st))).
  { eexists. split; [reflexivity|]. right. right. right. left. reflexivity. }
  exfalso. apply Hinvalid. repeat split; reflexivity.
Qed.

Lemma handleGenerate_rejects_invalid_witness :
  exists msg,
    App.handleGenerate working_env blank_state initial
    = (Return tt, App.setError (Some msg) blank_state, initial).
Proof.
  destruct (handleGenerate_rejects_invalid working_env blank_state initial)
    as (msg & Hrun & _).
  - intros (_ & [H|H] & _); vm_compute in H; discriminate H.
  - exists msg. exact Hrun.
Defined.

(** A prompt made of a no-break space, a space and an ideographic space is
    blank: the form is rejected with the prompt message. *)
Example blank_prompt_is_rejected :
  App.handleGenerate working_env blank_state initial
  = (Return tt,
     App.setError (Some "Please enter a prompt or use a reference image.") blank_state,
     initial).
Proof. vm_compute. reflexivity. Qed.

(** A prompt of white space only adds no user instructions to the edit
    request. *)
Example blank_prompt_adds_no_instructions :
  userInstructions
    {| prompt := Js.utf8 0x2003 ++ Js.LF ++ Js.utf8 0xA0;
       aspectRatio := SQUARE;
       referenceMode := None;
       customReferencePrompt := None;
       modelId := None |}
  = EmptyString.
Proof. vm_compute. reflexivity. Qed.

(** [trim] removes the white space outside ASCII at both ends and keeps the
    one inside. *)
Example trim_example :
  Js.trim (Js.utf8 0xFEFF ++ " a" ++ Js.utf8 0xA0 ++ "b " ++ Js.utf8 0x2028)
  = "a" ++ Js.utf8 0xA0 ++ "b".
Proof. vm_compute. reflexivity. Qed.

Lemma valid_ready_state : App.valid ready_state.
Proof.
  repeat split; try (left; discriminate || reflexivity); discriminate.
Qed.

Lemma generationErrorMessage_nonempty (st : App.State) (err : JsError) :
  App.generationErrorMessage st err <> EmptyString.
Proof.
  unfold App.generationErrorMessage.
  destruct (_ || _); [discriminate|].
  destruct (_ || _); [discriminate|].
  apply or_string_nonempty. discriminate.
Qed.

Lemma interpretResponse_returns (response : GenAI.GenerateContentResponse)
    (result : option string) :
  interpretResponse response = Return result -> exists data, result = Some data.
Proof.
  unfold interpretResponse.
  destruct (GenAI.candidates response) as [[|candidate others]|]; try discriminate.
  destruct (finishReasonError candidate); [discriminate|].
  destruct (GenAI.content candidate) as [parts|]; [|discriminate].
  destruct (firstInlineData parts) as [d|]; [|discriminate].
  intros [= <-]. exists d. reflexivity.
Qed.

(** With an editing model, what a call returns is a string. *)
Lemma generateFutureImage_editing_returns (env : Env) (sourceImage : ImageAsset)
    (referenceImage : option ImageAsset) (config : GenerationConfig) (w : World)
    (result : option string) :
  chosenModel config <> IMAGEN_4 ->
  fst (generateFutureImage env sourceImage referenceImage config w) = Return result ->
  exists data, result = Some data.
Proof.
  intros Hmodel. unfold generateFutureImage. fold (chosenModel config).
  destruct (negb _); [discriminate|].
  assert (Hedit : forall model,
    fst ((guidanceDescription <- extractGuidance env referenceImage config ;;
          processed <- compressBoth env sourceImage referenceImage ;;
          let '(processedSource, processedRef) := processed in
          editAndInterpret env
            (editRequest model
               (buildParts processedSource processedRef
                  (composeInstruction processedRef guidanceDescription config))
               (resolveTargetRatio config sourceImage))) w) = Return result ->
    exists data, result = Some data).
  { intro model. unfold bind at 1.
    destruct (extractGuidance env referenceImage config w) as [[g|e] w1];
      [|discriminate].
    unfold bind at 1.
    destruct (compressBoth env sourceImage referenceImage w1) as [[[ps pr]|e] w2];
      [|discriminate].
    unfold editAndInterpret, try_catch, bind.
    destruct (await_retry _ w2) as [[response|e] w3].
    - unfold await.
      destruct (interpretResponse response) as [r|[|e]] eqn:Er; cbn [fst].
      + intros [= <-]. exact (interpretResponse_returns response r Er).
      + discriminate.
      + discriminate.
    - destruct e; discriminate. }
  destruct (chosenModel config); try apply Hedit. congruence.
Qed.

(** X19. A form that passes the checks makes one call of
    [generateFutureImage] and always ends with the busy flag down and the
    inputs untouched.  When the call returns, what it resolved to is shown
    and put at the front of the history with the error cleared, and with an
    editing model that is a string.  When the call throws, a non-empty
    message is shown, no image is, and the history is as it was.  The
    handler itself never throws. *)
Theorem handleGenerate_settles (env : Env) (st : App.State) (w : World) :
  App.valid st ->
  let '(source, reference, config) := App.generateArguments st in
  exists st' w',
    App.handleGenerate env st w = (Return tt, st', w')
    /\ w' = snd (generateFutureImage env source reference config w)
    /\ App.isGenerating st' = false
    /\ (App.sourceImage st', App.refImage st', App.useRefImage st', App.prompt st',
        App.aspectRatio st', App.refMode st', App.customRefPrompt st',
        App.selectedModel st', App.isExtracting st', App.extractedText st')
       = (App.sourceImage st, App.refImage st, App.useRefImage st, App.prompt st,
          App.aspectRatio st, App.refMode st, App.customRefPrompt st,
          App.selectedModel st, App.isExtracting st, App.extractedText st)
    /\ ((exists result,
            fst (generateFutureImage env source reference config w) = Return result
            /\ App.generatedImage st' = result
            /\ App.history st' = result :: App.history st
            /\ App.error st' = None
            /\ (App.selectedModel st <> IMAGEN_4 -> exists data, result = Some data))
        \/ (exists thrown msg,
               fst (generateFutureImage env source reference config w) = Throw thrown
               /\ App.error st' = Some msg /\ msg <> EmptyString
               /\ App.generatedImage st' = None
               /\ App.history st' = App.history st)).
Proof.
  intro Hvalid. rewrite valid_checks in Hvalid.
  destruct Hvalid as (H1 & H2 & H3 & H4).
  unfold App.handleGenerate. rewrite H1, H2, H3, H4.
  pose proof (generateFutureImage_outcome env
                (fst (fst (App.generateArguments st)))
                (snd (fst (App.generateArguments st)))
                (snd (App.generateArguments st)) w) as Hout.
  pose proof (generateFutureImage_editing_returns env
                (fst (fst (App.generateArguments st)))
                (snd (fst (App.generateArguments st)))
                (snd (App.generateArguments st)) w) as Hstring.
  assert (Hchosen : chosenModel (snd (App.generateArguments st)) = App.selectedModel st)
    by reflexivity.
  rewrite Hchosen in Hstring. clear Hchosen.
  destruct (App.generateArguments st) as [[source reference] config].
  cbn [fst snd] in Hout, Hstring.
  destruct (generateFutureImage env source reference config w) as [[result|t] w'];
    cbn [fst snd] in *.
  - eexists. eexists. split; [reflexivity|]. split; [reflexivity|].
    split; [reflexivity|]. split; [reflexivity|]. left. exists result.
    split; [reflexivity|].
    split; [reflexivity|]. split; [reflexivity|]. split; [reflexivity|].
    intro Hmodel. exact (Hstring result Hmodel eq_refl).
  - destruct Hout as (msg & -> & Hne).
    eexists. eexists. split; [reflexivity|]. split; [reflexivity|].
    split; [reflexivity|]. split; [reflexivity|]. right. eexists. eexists.
    split; [reflexivity|]. split; [reflexivity|].
    split; [apply generationErrorMessage_nonempty|]. split; reflexivity.
Qed.

Lemma handleGenerate_settles_witness :
  exists st' w',
    App.handleGenerate working_env ready_state initial = (Return tt, st', w')
    /\ App.isGenerating st' = false
    /\ App.generatedImage st' = Some "RESULT".
Proof.
  pose proof (handleGenerate_settles working_env ready_state initial valid_ready_state)
    as H.
  cbn [App.generateArguments ready_state] in H.
  destruct H as (st' & w' & Hrun & _ & Hflag & _ & Hend).
  exists st', w'. split; [exact Hrun|]. split; [exact Hflag|].
  destruct Hend as [(result & Hres & Himage & _) | (thrown & msg & Hthrown & _)].
  - rewrite Himage. injection Hres as <-. reflexivity.
  - discriminate Hthrown.
Defined.







(** X21. A generated image moved to the source slot, like the placeholder the
    text-to-image model gets for a missing source, has no dimensions: under
    "Same Ratio" the next request is made with 1:1, whatever the shape of
    that image. *)
Theorem moved_image_resolves_to_square (imgData : string) (st : App.State) :
  App.aspectRatio st = SAME_AS_SOURCE ->
  (let '(source, _, config) := App.generateArguments (App.moveToSource imgData st) in
   source = mkImageAsset imgData "image/png" None None
   /\ resolveTargetRatio config source = SQUARE)
  /\ (App.sourceImage st = None ->
      let '(source, _, config) := App.generateArguments st in
      resolveTargetRatio config source = SQUARE).
Proof.
  intro Hratio. split.
  - unfold App.generateArguments, App.moveToSource. cbn.
    split; [reflexivity|]. unfold resolveTargetRatio. cbn. rewrite Hratio. reflexivity.
  - intro Hnone. unfold App.generateArguments. rewrite Hnone.
    unfold resolveTargetRatio. cbn. rewrite Hratio. reflexivity.
Qed.

Lemma moved_image_resolves_to_square_witness :
  resolveTargetRatio
    (snd (App.generateArguments (App.moveToSource "RESULT" ready_state)))
    (fst (fst (App.generateArguments (App.moveToSource "RESULT" ready_state))))
  = SQUARE.
Proof.
  destruct (moved_image_resolves_to_square "RESULT" ready_state) as (H & _);
    [reflexivity|].
  apply H.
Defined.

(** The text-to-image step against a service that is always over quota. *)
Lemma generateWithImagen_rate_limited (env : Env) (config : GenerationConfig)
    (targetRatio : AspectRatio) (w : World) (error : JsError) :
  (forall sent request,
      GenAI.generateImages (remote env) sent request = Throw (ThrownError error)) ->
  RateLimitClassified error ->
  generateWithImagen env config targetRatio w
  = (Throw (ThrownError
              (new_Error ("Imagen Generation Failed: " ++ message_in_template error))),
     {| outbound :=
          (outbound w ++ repeat (imagenRequest config targetRatio) 3)%list;
        effects :=
          (effects w
           ++ [ Invoked;
                ConsoleWarn "Rate limit hit. Retrying in 2000ms... (Attempt 1/3)";
                Slept 2000;
                Invoked;
                ConsoleWarn "Rate limit hit. Retrying in 4000ms... (Attempt 2/3)";
                Slept 4000;
                Invoked ])%list |}).
Proof.
  intros Hremote Hrl. apply isRateLimit_classified in Hrl.
  unfold generateWithImagen, try_catch, bind, await_retry, retryOperation.
  cbn [retry_loop]. unfold send.
  rewrite !Hremote, Hrl. cbn [Nat.ltb Nat.leb Nat.sub andb].
  unfold throw. cbn [repeat]. rewrite <- !app_assoc. reflexivity.
Qed.

(** X22. With the text-to-image model, a prompt and a service that answers
    every call with a rate-limit error whose message says so, the page ends
    with the busy flag down and the "Server is busy" message: the wrapped
    message still carries the mark.  The request was sent three times, with
    sleeps of 2000 and 4000 between. *)
Theorem handleGenerate_shows_server_busy (env : Env) (st : App.State) (w : World)
    (error : JsError) (msg : string) :
  Js.truthy_opt_string (API_KEY env) = true ->
  App.selectedModel st = IMAGEN_4 ->
  Js.truthy_trim (App.prompt st) = true ->
  App.useRefImage st = false ->
  (forall sent request,
      GenAI.generateImages (remote env) sent request = Throw (ThrownError error)) ->
  message error = Some msg ->
  Js.includes msg "429" = true \/ Js.includes msg "quota" = true
  \/ Js.includes msg "RESOURCE_EXHAUSTED" = true ->
  exists st' w',
    App.handleGenerate env st w = (Return tt, st', w')
    /\ App.error st'
       = Some "Server is busy (Rate Limit). Please wait a moment and try again."
    /\ App.isGenerating st' = false
    /\ App.generatedImage st' = None
    /\ App.history st' = App.history st
    /\ List.length (outbound w') = (List.length (outbound w) + 3)%nat
    /\ sleeps (effects w') = (sleeps (effects w) ++ [2000; 4000]%Z)%list.
Proof.
  intros Hkey Hmodel Hprompt Huse Hremote Hmsg Hmark.
  assert (Hne : exists c s, msg = String c s).
  { destruct msg as [|c s]; [|eauto]. destruct Hmark as [H|[H|H]]; discriminate. }
  destruct Hne as (c & s & ->).
  assert (Hrl : RateLimitClassified error).
  { unfold RateLimitClassified, error_msg. rewrite Hmsg. cbn [Js.or_string]. tauto. }
  unfold App.handleGenerate, App.isImagen, App.generateArguments.
  rewrite Hmodel, Hprompt, Huse. cbn [negb andb].
  rewrite andb_false_r. cbn [andb].
  unfold generateFutureImage. rewrite Hkey. cbn [negb modelId].
  rewrite (generateWithImagen_rate_limited env _ _ w error Hremote Hrl).
  eexists. eexists. split; [reflexivity|].
  split; [|split; [reflexivity|split; [reflexivity|split; [reflexivity|split]]]].
  - cbn [App.error App.setIsGenerating App.setError].
    unfold App.generationErrorMessage. cbn [message new_Error].
    unfold message_in_template. rewrite Hmsg.
    assert (Hor : Js.or_string
                    (Some ("Imagen Generation Failed: " ++ String c s))
                    "An error occurred during generation."
                  = "Imagen Generation Failed: " ++ String c s) by reflexivity.
    rewrite Hor.
    assert (Hany : Js.includes ("Imagen Generation Failed: " ++ String c s) "429"
                   || Js.includes ("Imagen Generation Failed: " ++ String c s) "quota"
                   || Js.includes ("Imagen Generation Failed: " ++ String c s)
                        "RESOURCE_EXHAUSTED" = true).
    { rewrite !orb_true_iff.
      destruct Hmark as [H|[H|H]];
        [left; left | left; right | right]; apply includes_app_r; exact H. }
    rewrite Hany. reflexivity.
  - cbn [outbound]. rewrite List.length_app, repeat_length. reflexivity.
  - cbn [effects]. rewrite sleeps_app. reflexivity.
Qed.

Lemma handleGenerate_shows_server_busy_witness :
  exists st' w',
    App.handleGenerate busy_env imagen_state initial = (Return tt, st', w')
    /\ App.error st'
       = Some "Server is busy (Rate Limit). Please wait a moment and try again.".
Proof.
  destruct (handleGenerate_shows_server_busy busy_env imagen_state initial
              rate_limit_error "Resource has been exhausted (e.g. check quota).")
    as (st' & w' & Hrun & Herr & _).
  - reflexivity.
  - reflexivity.
  - reflexivity.
  - reflexivity.
  - reflexivity.
  - reflexivity.
  - right. left. reflexivity.
  - exists st', w'. split; [exact Hrun|exact Herr].
Defined.

(* ===================================================================== *)
(** * Properties of the page: extracting, and the small handlers *)
(* ===================================================================== *)




(** In Custom mode a custom prompt made of a no-break space only asks for
    the feature: nothing is sent. *)
Example blank_custom_prompt_is_rejected :
  App.handleExtractFeature working_env
    (App.setCustomRefPrompt (Js.utf8 0xA0) custom_state) initial
  = (Return tt,
     App.setError (Some "Please specify what feature to extract first.")
       (App.setCustomRefPrompt (Js.utf8 0xA0) custom_state),
     initial).
Proof. vm_compute. reflexivity. Qed.

Lemma filter_index_delete {A : Type} (index i : nat) (l : list A) :
  JsString.filter_index (fun j => negb (j =? index)%nat) i l
  = if (index <? i)%nat then l
    else (firstn (index - i) l ++ skipn (S (index - i)) l)%list.
Proof.
  revert i. induction l as [|x l IH]; intro i.
  - cbn [JsString.filter_index]. destruct (index <? i)%nat; [reflexivity|].
    rewrite firstn_nil, skipn_nil. reflexivity.
  - cbn [JsString.filter_index]. rewrite IH.
    destruct (Nat.ltb_spec index i) as [Hlt|Hge].
    + assert (Hne : (i =? index)%nat = false) by (apply Nat.eqb_neq; lia).
      rewrite Hne. cbn [negb].
      assert (Hlt' : (index <? S i)%nat = true) by (apply Nat.ltb_lt; lia).
      rewrite Hlt'. reflexivity.
    + destruct (Nat.eqb_spec i index) as [Heq|Hne]; cbn [negb].
      * subst i. assert (Hlt' : (index <? S index)%nat = true) by (apply Nat.ltb_lt; lia).
        rewrite Hlt', Nat.sub_diag. reflexivity.
      * assert (Hlt' : (index <? S i)%nat = false) by (apply Nat.ltb_ge; lia).
        rewrite Hlt'. replace (index - i)%nat with (S (index - S i)) by lia.
        reflexivity.
Qed.

(** X24. Deleting a history item removes the entry at that index and keeps
    the others in order; an index past the end changes nothing.  No other
    cell of the state changes. *)
Theorem deleteHistoryItem_removes_one (index : nat) (st : App.State) :
  App.history (App.deleteHistoryItem index st)
  = (firstn index (App.history st) ++ skipn (S index) (App.history st))%list
  /\ ((index < List.length (App.history st))%nat ->
      S (List.length (App.history (App.deleteHistoryItem index st)))
      = List.length (App.history st))
  /\ ((List.length (App.history st) <= index)%nat ->
      App.history (App.deleteHistoryItem index st) = App.history st)
  /\ App.deleteHistoryItem index st
     = App.setHistory (App.history (App.deleteHistoryItem index st)) st.
Proof.
  assert (Hh : App.history (App.deleteHistoryItem index st)
               = (firstn index (App.history st) ++ skipn (S index) (App.history st))%list).
  { unfold App.deleteHistoryItem. cbn [App.history App.setHistory].
    rewrite filter_index_delete. cbn [Nat.ltb Nat.leb]. rewrite Nat.sub_0_r.
    reflexivity. }
  split; [exact Hh|]. split; [|split].
  - intro Hlt. rewrite Hh, List.length_app, List.length_firstn, List.length_skipn. lia.
  - intro Hge. rewrite Hh.
    rewrite firstn_all2 by exact Hge. rewrite skipn_all2 by lia. apply app_nil_r.
  - reflexivity.
Qed.

Lemma deleteHistoryItem_removes_one_witness :
  App.history (App.deleteHistoryItem 0 extracted_state) = [Some "A"]
  /\ App.history (App.deleteHistoryItem 7 extracted_state) = [Some "B"; Some "A"].
Proof.
  split.
  - destruct (deleteHistoryItem_removes_one 0 extracted_state) as (H & _). exact H.
  - destruct (deleteHistoryItem_removes_one 7 extracted_state) as (_ & _ & H & _).
    apply H. cbn. lia.
Defined.

(** The label written in front of a moved description starts with a
    letter. *)
Lemma label_starts_plain (st : App.State) (tail : string) :
  exists c rest,
    (if App.isCustom st then "Custom (" ++ App.customRefPrompt st ++ "):"
     else ReferenceMode_str (App.refMode st) ++ ":") ++ tail
    = String c rest
    /\ white_byte c = false.
Proof.
  unfold App.isCustom.
  destruct (App.refMode st); cbn [ReferenceMode_str append];
    (eexists; eexists; split; [reflexivity|reflexivity]).
Qed.

(** X25. Moving an extracted description into the prompt keeps the previous
    prompt in front and leaves a prompt that is not blank, so that the
    prompt check of [handleGenerate] passes: a page with a source (or the
    text-to-image model) and no reference in use is then a valid form.
    With no extracted text nothing changes. *)
Theorem moveToPrompt_keeps_prompt (st : App.State) :
  (Js.truthy_opt_string (App.extractedText st) = false -> App.moveToPrompt st = st)
  /\ (Js.truthy_opt_string (App.extractedText st) = true ->
      (exists added, App.prompt (App.moveToPrompt st) = App.prompt st ++ added)
      /\ Js.truthy_trim (App.prompt (App.moveToPrompt st)) = true
      /\ App.moveToPrompt st = App.setPrompt (App.prompt (App.moveToPrompt st)) st
      /\ (App.sourceImage st <> None \/ App.selectedModel st = IMAGEN_4 ->
          App.useRefImage st = false ->
          App.valid (App.moveToPrompt st))).
Proof.
  split.
  - unfold App.moveToPrompt.
    destruct (App.extractedText st) as [[|c s]|]; try reflexivity. discriminate.
  - intro Htext.
    assert (Hprompt : Js.truthy_trim (App.prompt (App.moveToPrompt st)) = true).
    { unfold App.moveToPrompt.
      destruct (App.extractedText st) as [[|c s]|]; try discriminate.
      cbn [App.prompt App.setPrompt].
      destruct (label_starts_plain st (" " ++ Js.trim (String c s)))
        as (x & rest & Hlabel & Hplain).
      rewrite Hlabel. destruct (Js.truthy_string (App.prompt st)).
      - replace (App.prompt st ++ Js.LF ++ Js.LF ++ String x rest)
          with ((App.prompt st ++ Js.LF ++ Js.LF) ++ String x rest)
          by (rewrite !append_assoc; reflexivity).
        apply truthy_trim_plain. exact Hplain.
      - apply (truthy_trim_plain EmptyString). exact Hplain. }
    split; [|split; [exact Hprompt|split]].
    + unfold App.moveToPrompt.
      destruct (App.extractedText st) as [[|c s]|]; try discriminate.
      cbn [App.prompt App.setPrompt].
      destruct (App.prompt st) as [|p ps]; cbn [Js.truthy_string].
      * eexists. reflexivity.
      * eexists. reflexivity.
    + unfold App.moveToPrompt.
      destruct (App.extractedText st) as [[|c s]|]; try discriminate. reflexivity.
    + intros Hsource Huse.
      assert (Hsame : App.sourceImage (App.moveToPrompt st) = App.sourceImage st
                      /\ App.selectedModel (App.moveToPrompt st) = App.selectedModel st
                      /\ App.useRefImage (App.moveToPrompt st) = App.useRefImage st).
      { unfold App.moveToPrompt.
        destruct (App.extractedText st) as [[|c s]|]; repeat split. }
      destruct Hsame as (Hs & Hm & Hu).
      unfold App.valid. rewrite Hs, Hm, Hu, Huse.
      split; [exact Hsource|]. split; [left; exact Hprompt|].
      split; discriminate.
Qed.

Lemma moveToPrompt_keeps_prompt_witness :
  Js.truthy_trim (App.prompt (App.moveToPrompt extracted_state)) = true.
Proof.
  destruct (moveToPrompt_keeps_prompt extracted_state) as (_ & H).
  destruct H as (_ & Hok & _); [reflexivity|exact Hok].
Defined.

(* ===================================================================== *)
(** * Properties of the upload zone *)
(* ===================================================================== *)

Lemma includes_comma_cons (c : ascii) (s : string) :
  Js.includes (String c s) "," = false ->
  Ascii.eqb c ","%char = false /\ Js.includes s "," = false.
Proof.
  cbn [Js.includes String.prefix].
  destruct (ascii_dec "," c) as [<-|Hne].
  - destruct s; discriminate.
  - intro H. split; [|exact H]. apply Ascii.eqb_neq. congruence.
Qed.

Lemma split_comma_app (a b : string) :
  Js.includes a "," = false ->
  JsString.split_comma (a ++ "," ++ b) = a :: JsString.split_comma b.
Proof.
  induction a as [|c a IH]; [reflexivity|].
  intro H. apply includes_comma_cons in H. destruct H as (Hc & Ha).
  cbn [append JsString.split_comma]. rewrite Hc.
  cbn [append] in IH. rewrite (IH Ha). reflexivity.
Qed.

Lemma split_comma_no_comma (s : string) :
  Js.includes s "," = false -> JsString.split_comma s = [s].
Proof.
  induction s as [|c s IH]; [reflexivity|].
  intro H. apply includes_comma_cons in H. destruct H as (Hc & Hs).
  cbn [JsString.split_comma]. rewrite Hc, (IH Hs). reflexivity.
Qed.

Lemma includes_comma_app (a b : string) :
  Js.includes a "," = false -> Js.includes b "," = false ->
  Js.includes (a ++ b) "," = false.
Proof.
  intros Ha Hb. induction a as [|c a IH]; [exact Hb|].
  apply includes_comma_cons in Ha. destruct Ha as (Hc & Ha).
  cbn [append Js.includes String.prefix].
  destruct (ascii_dec "," c) as [<-|Hne]; [discriminate Hc|]. apply IH. exact Ha.
Qed.

Lemma split_comma_two_pieces (a b : string) :
  (2 <= List.length (JsString.split_comma (a ++ "," ++ b)))%nat.
Proof.
  induction a as [|c a IH].
  - cbn [append JsString.split_comma]. cbn [Ascii.eqb Bool.eqb andb].
    destruct (JsString.split_comma b) eqn:E; [|cbn; lia].
    destruct b as [|x b]; cbn in E; [discriminate|].
    destruct (Ascii.eqb x ","); [discriminate|].
    destruct (JsString.split_comma b); discriminate.
  - cbn [append JsString.split_comma]. cbn [append] in IH.
    destruct (Ascii.eqb c ","); [cbn; lia|].
    destruct (JsString.split_comma (a ++ String "," b)) as [|p ps]; [cbn in IH; lia|].
    exact IH.
Qed.

(** X26. What an upload stores.  A file whose type does not start with
    "image/" is ignored, and so is one the browser cannot decode.  The data
    URL of a file always splits into at least two pieces at its commas.  For
    an image file whose type and base64 text hold no comma, the stored data
    is the base64 text of the file, read back from its data URL, with the
    type and the decoded size of the file; so [compressImage] later rebuilds
    the very data URL the upload decoded and finds the stored size, and a
    "Same Ratio" request on that source is made with the supported ratio
    closest to the decoded size. *)
Theorem handleFile_stores_the_file (b : Browser) (file : File) :
  (JsString.startsWith (file_type file) "image/" = false -> handleFile b file = None)
  /\ (decode b (file_type file) (file_base64 file) = None -> handleFile b file = None)
  /\ (2 <= List.length (JsString.split_comma (readAsDataURL file)))%nat
  /\ (forall img_width img_height,
        JsString.startsWith (file_type file) "image/" = true ->
        Js.includes (file_type file) "," = false ->
        Js.includes (file_base64 file) "," = false ->
        decode b (file_type file) (file_base64 file) = Some (img_width, img_height) ->
        exists asset,
          handleFile b file = Some asset
          /\ asset = {| data := file_base64 file;
                        mimeType := file_type file;
                        width := Some (inject_Z img_width);
                        height := Some (inject_Z img_height) |}
          /\ "data:" ++ mimeType asset ++ ";base64," ++ data asset = readAsDataURL file
          /\ decode b (mimeType asset) (data asset) = Some (img_width, img_height)
          /\ ((0 < img_width)%Z -> (0 < img_height)%Z ->
              forall config,
                aspectRatio config = SAME_AS_SOURCE ->
                resolveTargetRatio config asset
                = getClosestSupportedRatio (inject_Z img_width) (inject_Z img_height))).
Proof.
  unfold handleFile. split; [|split; [|split]].
  - intros ->. reflexivity.
  - intros ->. destruct (negb _); reflexivity.
  - unfold readAsDataURL.
    replace ("data:" ++ file_type file ++ ";base64," ++ file_base64 file)
      with (("data:" ++ file_type file ++ ";base64") ++ "," ++ file_base64 file)
      by (rewrite !append_assoc; reflexivity).
    apply split_comma_two_pieces.
  - intros w h Hstart Htype Hdata Hdec. rewrite Hstart, Hdec. cbn [negb].
    assert (Hsplit : JsString.split_comma (readAsDataURL file)
                     = [ "data:" ++ file_type file ++ ";base64"; file_base64 file ]).
    { unfold readAsDataURL.
      replace ("data:" ++ file_type file ++ ";base64," ++ file_base64 file)
        with (("data:" ++ file_type file ++ ";base64") ++ "," ++ file_base64 file)
        by (rewrite !append_assoc; reflexivity).
      rewrite split_comma_app.
      - rewrite (split_comma_no_comma _ Hdata). reflexivity.
      - apply (includes_comma_app "data:"); [reflexivity|].
        apply includes_comma_app; [exact Htype|reflexivity]. }
    rewrite Hsplit. cbn [nth].
    eexists. split; [reflexivity|]. split; [reflexivity|].
    split; [reflexivity|]. split; [exact Hdec|].
    intros Hw Hh config Hratio.
    apply resolveTargetRatio_known; try assumption; try reflexivity.
    + change 0 with (inject_Z 0). rewrite <- Zlt_Qlt. exact Hw.
    + change 0 with (inject_Z 0). rewrite <- Zlt_Qlt. exact Hh.
Qed.

Lemma handleFile_stores_the_file_witness :
  exists asset,
    handleFile jpeg_browser png_file = Some asset
    /\ data asset = "iVBORw0KGgo=".
Proof.
  destruct (handleFile_stores_the_file jpeg_browser png_file) as (_ & _ & _ & H).
  destruct (H 800%Z 600%Z) as (asset & Hrun & Hasset & _); try reflexivity.
  exists asset. split; [exact Hrun|]. rewrite Hasset. reflexivity.
Defined.

Example moveToPrompt_example :
  App.prompt (App.moveToPrompt extracted_state)
  = "keep the smile" ++ Js.LF ++ Js.LF ++ "Dress / Outfit: a long red coat".
Proof. reflexivity. Qed.
